(** * Food-truck ETL pipeline: incremental extraction, cleaning,
      date partitioning, publishing and the daily report metrics.

    Shallow embedding of
      - [src/pipeline/ETL/extract.py]
      - [src/pipeline/ETL/transform.py]
      - [src/pipeline/ETL/partition_transactions.py]
      - [src/pipeline/ETL/load.py]
      - [src/pipeline/ETL/pipeline.py]
      - [src/pipeline/report-lambda/generate_report.py]

    Conventions of the embedding.
      - A pandas DataFrame is the list of its rows, in index order; a
        missing cell (NaN / NaT / None) is [None], a [..Null] constructor
        or, in a float64 column, the float NaN.
      - The amounts of the transaction table are IEEE 754 binary64 numbers
        (Rocq's primitive [float]): division rounds to nearest, ties to
        even, and so can lose digits, make two amounts equal and underflow
        to zero.  An integer column is held by the floats
        [astype(float)] turns it into.
      - A naive datetime is a number of microseconds since 1970-01-01
        00:00:00, the resolution of Python's [datetime] and of MySQL's
        [DATETIME]; the range is the one of [datetime], years 1 to 9999.
        [pd.to_datetime] is taken on that whole range (the narrower range
        of nanosecond-resolution pandas columns is not modelled).
      - A float written to a CSV file is read back as the same float.
      - The report metrics are taken in exact arithmetic ([Q]): rounding in
        the sums and ratios of the report is not modelled.
      - External stores (the S3 bucket, the local [data/] folder) are fields
        of an explicit world; a raised exception aborts the remaining
        statements and leaves the effects already performed in place.
      - Console output, credential retrieval, the database connection's
        opening and closing, the HTML rendering of the report and the
        dashboard are not part of the embedding. *)

From Stdlib Require Import Floats.
From Stdlib Require Import ZArith QArith Qround List String Ascii Bool Lia.
From Stdlib Require Import Permutation Sorted.
Import ListNotations.
Open Scope Z_scope.
Open Scope list_scope.

(* ================================================================== *)
(** * Naive datetimes (Python [datetime] / pandas [Timestamp]) *)

Module Time.

(** Microseconds since 1970-01-01 00:00:00. *)
Definition Timestamp := Z.

Definition SECOND : Z := 1000000.
Definition SECONDS_PER_DAY : Z := 86400.
Definition DAY : Z := SECONDS_PER_DAY * SECOND.

(** Proleptic Gregorian calendar: serial day number of a civil date and
    back (day 0 is 1970-01-01). *)
Definition days_from_civil (y m d : Z) : Z :=
  let y' := if m <=? 2 then y - 1 else y in
  let era := y' / 400 in
  let yoe := y' - era * 400 in
  let mp := if 2 <? m then m - 3 else m + 9 in
  let doy := (153 * mp + 2) / 5 + d - 1 in
  let doe := yoe * 365 + yoe / 4 - yoe / 100 + doy in
  era * 146097 + doe - 719468.

Definition civil_from_days (z : Z) : Z * Z * Z :=
  let z' := z + 719468 in
  let era := z' / 146097 in
  let doe := z' - era * 146097 in
  let yoe := (doe - doe / 1460 + doe / 36524 - doe / 146096) / 365 in
  let doy := doe - (365 * yoe + yoe / 4 - yoe / 100) in
  let mp := (5 * doy + 2) / 153 in
  let d := doy - (153 * mp + 2) / 5 + 1 in
  let m := if mp <? 10 then mp + 3 else mp - 9 in
  let y := yoe + era * 400 in
  (if m <=? 2 then y + 1 else y, m, d).

(** The [.dt.year], [.dt.month], [.dt.day] accessors. *)
Definition year (t : Timestamp) : Z :=
  let '(y, _, _) := civil_from_days (t / DAY) in y.
Definition month (t : Timestamp) : Z :=
  let '(_, m, _) := civil_from_days (t / DAY) in m.
Definition day (t : Timestamp) : Z :=
  let '(_, _, d) := civil_from_days (t / DAY) in d.

Definition is_leap (y : Z) : bool :=
  ((y mod 4 =? 0) && negb (y mod 100 =? 0)) || (y mod 400 =? 0).

Definition days_in_month (y m : Z) : Z :=
  if m =? 2 then (if is_leap y then 29 else 28)
  else if (m =? 4) || (m =? 6) || (m =? 9) || (m =? 11) then 30
  else 31.

(** [datetime(y, mo, d, h, mi, s, us)], [None] where Python raises. *)
Definition make (y mo d h mi s us : Z) : option Timestamp :=
  if (1 <=? y) && (y <=? 9999) && (1 <=? mo) && (mo <=? 12)
     && (1 <=? d) && (d <=? days_in_month y mo)
     && (0 <=? h) && (h <? 24) && (0 <=? mi) && (mi <? 60)
     && (0 <=? s) && (s <? 60) && (0 <=? us) && (us <? SECOND)
  then Some (days_from_civil y mo d * DAY
             + (h * 3600 + mi * 60 + s) * SECOND + us)
  else None.

(** [datetime.min] is 0001-01-01 00:00:00 and [datetime.max] is
    9999-12-31 23:59:59.999999. *)
Definition datetime_min : Timestamp := days_from_civil 1 1 1 * DAY.
Definition datetime_max : Timestamp := days_from_civil 10000 1 1 * DAY - 1.

(** [dt + timedelta(seconds=n)]; [None] where Python raises
    [OverflowError], the sum being no datetime of the years 1 to 9999. *)
Definition add_seconds (t : Timestamp) (n : Z) : option Timestamp :=
  let t' := t + n * SECOND in
  if (datetime_min <=? t') && (t' <=? datetime_max) then Some t' else None.

(** The datetime with the microseconds set to zero. *)
Definition floor_second (t : Timestamp) : Timestamp := t / SECOND * SECOND.

(** ** Text forms *)

Definition digit (c : ascii) : option Z :=
  let n := Z.of_nat (nat_of_ascii c) in
  if (48 <=? n) && (n <=? 57) then Some (n - 48) else None.

Fixpoint number_from (acc : Z) (cs : list ascii) : option Z :=
  match cs with
  | [] => Some acc
  | c :: cs' =>
      match digit c with
      | Some d => number_from (10 * acc + d) cs'
      | None => None
      end
  end.

Definition field (s : string) (start len : nat) : option Z :=
  let piece := list_ascii_of_string (substring start len s) in
  if Nat.eqb (List.length piece) len then number_from 0 piece else None.

Definition char_is (s : string) (i : nat) (c : ascii) : bool :=
  match get i s with
  | Some c' => Ascii.eqb c' c
  | None => false
  end.

Definition parse_date (s : string) : option (Z * Z * Z) :=
  match field s 0 4, field s 5 2, field s 8 2 with
  | Some y, Some m, Some d =>
      if char_is s 4 "-" && char_is s 7 "-" then Some (y, m, d) else None
  | _, _, _ => None
  end.

Definition parse_time (s : string) : option (Z * Z * Z) :=
  match field s 11 2, field s 14 2, field s 17 2 with
  | Some h, Some mi, Some sec =>
      if char_is s 13 ":" && char_is s 16 ":" then Some (h, mi, sec) else None
  | _, _, _ => None
  end.

Definition parse_microsecond (s : string) : option Z :=
  if char_is s 19 "." then field s 20 6 else None.

(** ISO text to datetime: [YYYY-MM-DD], optionally followed by a space or
    a [T] and [HH:MM:SS], optionally followed by [.ffffff].  This is the
    part of the grammar of [datetime.fromisoformat] and of
    [pd.to_datetime] that the pipeline's own files use; any other text is
    unparseable here. *)
Definition fromisoformat (s : string) : option Timestamp :=
  match parse_date s with
  | None => None
  | Some (y, m, d) =>
      if Nat.eqb (String.length s) 10 then make y m d 0 0 0 0
      else if (Nat.eqb (String.length s) 19 || Nat.eqb (String.length s) 26)
              && (char_is s 10 " " || char_is s 10 "T")
      then match parse_time s with
           | Some (h, mi, sec) =>
               if Nat.eqb (String.length s) 19 then make y m d h mi sec 0
               else match parse_microsecond s with
                    | Some us => make y m d h mi sec us
                    | None => None
                    end
           | None => None
           end
      else None
  end.

Definition digit_char (d : Z) : ascii := ascii_of_nat (48 + Z.to_nat d).

Definition pad2 (n : Z) : string :=
  String (digit_char (n / 10 mod 10)) (String (digit_char (n mod 10)) EmptyString).

Definition pad4 (n : Z) : string :=
  String (digit_char (n / 1000 mod 10))
    (String (digit_char (n / 100 mod 10)) (pad2 n)).

Definition pad6 (n : Z) : string :=
  String (digit_char (n / 100000 mod 10))
    (String (digit_char (n / 10000 mod 10)) (pad4 n)).

(** [dt.strftime('%Y-%m-%d %H:%M:%S')]: the microseconds are left out.
    The year is written with four digits, as [str] writes it (for the
    years before 1000 the C library behind [strftime] may leave the
    leading zeros out). *)
Definition strftime (t : Timestamp) : string :=
  let sod := t / SECOND mod SECONDS_PER_DAY in
  (pad4 (year t) ++ "-" ++ pad2 (month t) ++ "-" ++ pad2 (day t) ++ " "
   ++ pad2 (sod / 3600) ++ ":" ++ pad2 (sod / 60 mod 60) ++ ":"
   ++ pad2 (sod mod 60))%string.

(** [str(timestamp)], also the text of a datetime cell in a CSV file: the
    microseconds follow when they are not zero. *)
Definition isoformat (t : Timestamp) : string :=
  if t mod SECOND =? 0 then strftime t
  else (strftime t ++ "." ++ pad6 (t mod SECOND))%string.

End Time.

(* ================================================================== *)
(** * Exceptions and results *)

Inductive Exn : Type :=
| ValueError (what : string)      (* [pd.to_datetime] on unparseable text *)
| AttributeError (what : string)  (* [.dt] on a column that is not datetime *)
| ClientError (code : string)     (* botocore / awswrangler failure *)
| FileNotFoundError (path : string)
| TypeError (what : string)
| OverflowError (what : string)   (* datetime arithmetic leaving the years 1..9999 *)
| IndexError (what : string).     (* [index[0]] of an empty index *)

Inductive result (A : Type) : Type :=
| Done (a : A)
| Raised (e : Exn).
Arguments Done {A} a.
Arguments Raised {A} e.

(* ================================================================== *)
(** * DataFrame rows of the transaction table *)

Module Frame.
Import Time.

(** A cell of the [at] column: missing (NaT), text as read from a CSV
    file, or a datetime. *)
Inductive AtCell : Type :=
| AtNull
| AtText (s : string)
| AtTime (t : Timestamp).

(** A cell of the [has_card_reader] column: missing, the database's 0/1
    integer, or a boolean after [astype(bool)]. *)
Inductive FlagCell : Type :=
| FlagNull
| FlagInt (n : Z)
| FlagBool (b : bool).

(** The ten columns selected by the extraction query, in its order.  The
    amount is a float64 cell, NaN when missing. *)
Record Row : Type := mkRow {
  transaction_id : option Z;
  at_ : AtCell;
  total : float;
  truck_id : option Z;
  payment_method_id : option Z;
  truck_name : option string;
  truck_description : option string;
  has_card_reader : FlagCell;
  fsa_rating : option Z;
  payment_method : option string
}.

(** Column assignment [df[col] = f(df[col])], row by row. *)
Definition set_total (r : Row) (v : float) : Row :=
  mkRow (transaction_id r) (at_ r) v (truck_id r) (payment_method_id r)
        (truck_name r) (truck_description r) (has_card_reader r)
        (fsa_rating r) (payment_method r).

Definition set_at (r : Row) (v : AtCell) : Row :=
  mkRow (transaction_id r) v (total r) (truck_id r) (payment_method_id r)
        (truck_name r) (truck_description r) (has_card_reader r)
        (fsa_rating r) (payment_method r).

Definition set_has_card_reader (r : Row) (v : FlagCell) : Row :=
  mkRow (transaction_id r) (at_ r) (total r) (truck_id r)
        (payment_method_id r) (truck_name r) (truck_description r) v
        (fsa_rating r) (payment_method r).

Definition notna {A : Type} (c : option A) : bool :=
  match c with Some _ => true | None => false end.

Definition at_notna (c : AtCell) : bool :=
  match c with AtNull => false | _ => true end.

Definition float_notna (x : float) : bool := negb (is_nan x).

(** The float64 nearest to an integer (ties to even): what
    [astype(float)] makes of an integer cell. *)
Definition float_of_int (z : Z) : float :=
  SF2Prim (binary_normalize prec emax z 0 false).

(** Same value for [duplicated] and [drop_duplicates]: the cells compare
    equal, or both are missing. *)
Definition float_same (x y : float) : bool :=
  (x =? y)%float || (is_nan x && is_nan y).

Definition optZ_same (a b : option Z) : bool :=
  match a, b with
  | Some x, Some y => x =? y
  | None, None => true
  | _, _ => false
  end.

Definition AtCell_same (a b : AtCell) : bool :=
  match a, b with
  | AtNull, AtNull => true
  | AtText s, AtText s' => String.eqb s s'
  | AtTime t, AtTime t' => t =? t'
  | _, _ => false
  end.

End Frame.

(* ================================================================== *)
(** * The persistent stores and the effects of a run *)

Module Store.
Import Time Frame.

(** A date partition [(year, month, day)]. *)
Definition PartKey : Type := Z * Z * Z.

Definition PartKey_eq_dec (a b : PartKey) : {a = b} + {a <> b}.
Proof. repeat decide equality. Defined.

Definition PartKey_leb (a b : PartKey) : bool :=
  let '(y1, m1, d1) := a in
  let '(y2, m2, d2) := b in
  (y1 <? y2) || ((y1 =? y2) && ((m1 <? m2) || ((m1 =? m2) && (d1 <=? d2)))).

(** The dimension tables as [extract_dimension_tables] projects them. *)
Definition TruckDim : Type :=
  option Z * option string * option string * FlagCell * option Z.
Definition PaymentDim : Type := option Z * option string.

(** I/O performed by the pipeline, in the order it happens. *)
Inductive Effect : Type :=
| S3GetState                          (* get_object pipeline-state/last_run.txt *)
| S3PutState (t : Timestamp)          (* put_object pipeline-state/last_run.txt *)
| ReadSql (since : option Timestamp)  (* the extraction query *)
| WriteTransactionsCsv                (* data/transactions.csv *)
| ReadTransactionsCsv
| WriteCleanedCsv                     (* data/transactions_cleaned.csv *)
| ReadCleanedCsv
| WriteDimensions                     (* data/dimensions/*.parquet *)
| WritePartition (k : PartKey)        (* data/transactions/year=/month=/day= *)
| S3WritePartition (k : PartKey)      (* s3://bucket/transactions/year=/month=/day= *)
| S3ListObjects.

(** Everything that outlives a statement.  The state file holds the text
    [save_last_processed_timestamp] writes, [str(timestamp)], and
    [get_last_processed_timestamp] reads it back with [fromisoformat];
    the world keeps the datetime that text denotes. *)
Record World : Type := mkWorld {
  s3_last_run : option Timestamp;
  s3_transactions : list (PartKey * list Row);
  csv_transactions : option (list Row);
  csv_cleaned : option (list Row);
  parquet_dimensions : option (list TruckDim * list PaymentDim);
  parquet_partitions : list (PartKey * list Row);
  effects : list Effect
}.

(** Service errors of the object store.  [NoSuchKey] is not among them:
    the store answers it exactly when the key is absent. *)
Inductive S3Error : Type :=
| AccessDenied
| InternalError
| ServiceUnavailable
| SlowDown.

Definition error_code (e : S3Error) : string :=
  match e with
  | AccessDenied => "AccessDenied"
  | InternalError => "InternalError"
  | ServiceUnavailable => "ServiceUnavailable"
  | SlowDown => "SlowDown"
  end.

(** Failures of the object store during one run: the error [get_object]
    and [put_object] on the state file answer with (if any), and the error
    for each partition of the dataset that cannot be written. *)
Record Faults : Type := mkFaults {
  get_state_error : option S3Error;
  put_state_error : option S3Error;
  write_partition_error : PartKey -> option S3Error
}.

Definition no_faults : Faults := mkFaults None None (fun _ => None).

(** Statements: a state transformer that may raise; the world reached
    when the exception is raised is kept. *)
Definition M (A : Type) : Type := World -> World * result A.

Definition ret {A : Type} (a : A) : M A := fun w => (w, Done a).

Definition raise {A : Type} (e : Exn) : M A := fun w => (w, Raised e).

Definition bind {A B : Type} (m : M A) (k : A -> M B) : M B :=
  fun w =>
    match m w with
    | (w', Done a) => k a w'
    | (w', Raised e) => (w', Raised e)
    end.

Definition lift {A : Type} (r : result A) : M A := fun w => (w, r).

Definition gets {A : Type} (f : World -> A) : M A := fun w => (w, Done (f w)).

Definition modify (f : World -> World) : M unit := fun w => (f w, Done tt).

Definition perform (e : Effect) : M unit :=
  modify (fun w =>
    mkWorld (s3_last_run w) (s3_transactions w) (csv_transactions w)
            (csv_cleaned w) (parquet_dimensions w) (parquet_partitions w)
            (effects w ++ [e])).

Definition set_s3_last_run (t : Timestamp) (w : World) : World :=
  mkWorld (Some t) (s3_transactions w) (csv_transactions w) (csv_cleaned w)
          (parquet_dimensions w) (parquet_partitions w) (effects w).

Definition add_s3_transactions (k : PartKey) (rows : list Row) (w : World) : World :=
  mkWorld (s3_last_run w) (s3_transactions w ++ [(k, rows)])
          (csv_transactions w) (csv_cleaned w) (parquet_dimensions w)
          (parquet_partitions w) (effects w).

Definition set_csv_transactions (rows : list Row) (w : World) : World :=
  mkWorld (s3_last_run w) (s3_transactions w) (Some rows) (csv_cleaned w)
          (parquet_dimensions w) (parquet_partitions w) (effects w).

Definition set_csv_cleaned (rows : list Row) (w : World) : World :=
  mkWorld (s3_last_run w) (s3_transactions w) (csv_transactions w) (Some rows)
          (parquet_dimensions w) (parquet_partitions w) (effects w).

Definition set_parquet_dimensions (d : list TruckDim * list PaymentDim)
           (w : World) : World :=
  mkWorld (s3_last_run w) (s3_transactions w) (csv_transactions w)
          (csv_cleaned w) (Some d) (parquet_partitions w) (effects w).

(** Writing a local partition file replaces the file at that path. *)
Definition set_parquet_partition (k : PartKey) (rows : list Row)
           (w : World) : World :=
  mkWorld (s3_last_run w) (s3_transactions w) (csv_transactions w)
          (csv_cleaned w) (parquet_dimensions w)
          ((k, rows) :: filter (fun p => if PartKey_eq_dec (fst p) k
                                         then false else true)
                               (parquet_partitions w))
          (effects w).

(** Text that [pd.read_csv] reads as a missing value. *)
Definition NA_VALUES : list string :=
  [""; "#N/A"; "#N/A N/A"; "#NA"; "-1.#IND"; "-1.#QNAN"; "-NaN"; "-nan";
   "1.#IND"; "1.#QNAN"; "<NA>"; "N/A"; "NA"; "NULL"; "NaN"; "None"; "n/a";
   "nan"; "null"]%string.

Definition csv_text (c : option string) : option string :=
  match c with
  | Some s => if existsb (String.eqb s) NA_VALUES then None else Some s
  | None => None
  end.

Definition csv_at (c : AtCell) : AtCell :=
  match c with
  | AtTime t => AtText (isoformat t)
  | _ => c
  end.

(** [to_csv] followed by [read_csv]: a datetime comes back as its text, a
    text cell that spells a missing value comes back missing, every other
    cell as it was. *)
Definition csv_row (r : Row) : Row :=
  mkRow (transaction_id r) (csv_at (at_ r)) (total r) (truck_id r)
        (payment_method_id r) (csv_text (truck_name r))
        (csv_text (truck_description r)) (has_card_reader r) (fsa_rating r)
        (csv_text (payment_method r)).

Definition to_csv (df : list Row) : list Row := map csv_row df.

End Store.

Declare Scope stmt_scope.
Delimit Scope stmt_scope with stmt.
Notation "x <- m ;; k" := (Store.bind m (fun x => k))
  (at level 61, m at next level, right associativity) : stmt_scope.
Notation "m ;; k" := (Store.bind m (fun _ => k))
  (at level 61, right associativity) : stmt_scope.

(* ================================================================== *)
(** * transform.py *)

Module Transform.
Import Time Frame.

(** [df['total'] != 0]; NaN compares unequal to everything. *)
Definition total_ne_zero (x : float) : bool := negb (x =? 0)%float.

(** [df['total'].astype(float) / 100], in float64. *)
Definition to_major_units (x : float) : float := (x / 100)%float.

(** [pd.to_datetime] on one cell: NaN becomes NaT, a datetime is kept,
    text is parsed and raises when unparseable. *)
Definition to_datetime_cell (c : AtCell) : result AtCell :=
  match c with
  | AtNull => Done AtNull
  | AtTime t => Done (AtTime t)
  | AtText s =>
      match fromisoformat s with
      | Some t => Done (AtTime t)
      | None => Raised (ValueError s)
      end
  end.

(** [df['at'] = pd.to_datetime(df['at'])]: the first unparseable cell
    aborts the conversion of the whole column. *)
Fixpoint to_datetime (df : list Row) : result (list Row) :=
  match df with
  | [] => Done []
  | r :: df' =>
      match to_datetime_cell (at_ r) with
      | Raised e => Raised e
      | Done c =>
          match to_datetime df' with
          | Raised e => Raised e
          | Done out => Done (set_at r c :: out)
          end
      end
  end.

(** [astype(bool)]: zero is False, every other number and NaN is True. *)
Definition astype_bool (c : FlagCell) : FlagCell :=
  match c with
  | FlagNull => FlagBool true
  | FlagInt n => FlagBool (negb (n =? 0))
  | FlagBool b => FlagBool b
  end.

(** [duplicate_check_cols = ['at', 'truck_id', 'payment_method_id', 'total']] *)
Definition DupKey : Type := AtCell * option Z * option Z * float.

Definition duplicate_check_cols (r : Row) : DupKey :=
  (at_ r, truck_id r, payment_method_id r, total r).

(** Two rows are duplicates of each other when the four cells hold the
    same values. *)
Definition DupKey_same (a b : DupKey) : bool :=
  let '(at1, truck1, method1, total1) := a in
  let '(at2, truck2, method2, total2) := b in
  AtCell_same at1 at2 && optZ_same truck1 truck2
  && optZ_same method1 method2 && float_same total1 total2.

Definition count_same (k : DupKey) (keys : list DupKey) : nat :=
  List.length (filter (DupKey_same k) keys).

(** [df.duplicated(subset=cols, keep=False)]: the row's key occurs more
    than once in the frame. *)
Definition duplicated_keep_false (df : list Row) (r : Row) : bool :=
  (1 <? count_same (duplicate_check_cols r) (map duplicate_check_cols df))%nat.

(** [df.drop_duplicates(subset=cols, keep='first')]. *)
Fixpoint drop_duplicates_seen (seen : list DupKey) (df : list Row) : list Row :=
  match df with
  | [] => []
  | r :: df' =>
      if existsb (DupKey_same (duplicate_check_cols r)) seen
      then drop_duplicates_seen seen df'
      else r :: drop_duplicates_seen (duplicate_check_cols r :: seen) df'
  end.

Definition drop_duplicates (df : list Row) : list Row :=
  drop_duplicates_seen [] df.

(** [critical_columns = ['transaction_id', 'at', 'total', 'truck_id',
    'payment_method_id']]; [df.dropna(subset=critical_columns)]. *)
Definition critical_notna (r : Row) : bool :=
  notna (transaction_id r) && at_notna (at_ r) && float_notna (total r)
  && notna (truck_id r) && notna (payment_method_id r).

Definition dropna (df : list Row) : list Row := filter critical_notna df.

Definition clean_data (df : list Row) : result (list Row) :=
  let df := filter (fun r => float_notna (total r)) df in
  let df := filter (fun r => total_ne_zero (total r)) df in
  let df := map (fun r => set_total r (to_major_units (total r))) df in
  match to_datetime df with
  | Raised e => Raised e
  | Done df =>
      let df := map (fun r => set_has_card_reader r
                                (astype_bool (has_card_reader r))) df in
      let duplicates := filter (duplicated_keep_false df) df in
      let df := if (0 <? List.length duplicates)%nat
                then drop_duplicates df else df in
      Done (dropna df)
  end.

(** What [clean_data] establishes for every row it returns: the critical
    columns are present, the event time is a datetime and the card-reader
    flag a boolean. *)
Definition tidy (r : Row) : Prop :=
  (exists id, transaction_id r = Some id)
  /\ (exists t, at_ r = AtTime t)
  /\ is_nan (total r) = false
  /\ (exists truck, truck_id r = Some truck)
  /\ (exists pm, payment_method_id r = Some pm)
  /\ (exists b, has_card_reader r = FlagBool b).

(** Converting the amount of a row once more. *)
Definition rescale (r : Row) : Row := set_total r (to_major_units (total r)).

(** The rows of a frame whose amount is not zero. *)
Definition nonzero (df : list Row) : list Row :=
  filter (fun r => total_ne_zero (total r)) df.

(** ** The transform stage *)

Import Store.
Local Open Scope stmt_scope.

Definition load_data : M (list Row) :=
  perform ReadTransactionsCsv ;;
  file <- gets csv_transactions ;;
  match file with
  | None => raise (FileNotFoundError "data/transactions.csv")
  | Some df => ret df
  end.

Definition save_cleaned_data (df : list Row) : M unit :=
  perform WriteCleanedCsv ;;
  modify (set_csv_cleaned (to_csv df)).

Definition main_transform : M nat :=
  df <- load_data ;;
  df_cleaned <- lift (clean_data df) ;;
  save_cleaned_data df_cleaned ;;
  ret (List.length df_cleaned).

End Transform.

(* ================================================================== *)
(** * Ordering and grouping of rows (SQL [ORDER BY], pandas [groupby]) *)

Section Sorting.
Context {A : Type} (leb : A -> A -> bool).

Fixpoint insert_sorted (x : A) (l : list A) : list A :=
  match l with
  | [] => [x]
  | y :: l' => if leb x y then x :: l else y :: insert_sorted x l'
  end.

(** Stable sort: rows that compare equal keep their relative order. *)
Definition sort_by (l : list A) : list A := fold_right insert_sorted [] l.

Definition leb_rel (a b : A) : Prop := leb a b = true.
End Sorting.

Section GroupBy.
Context {A K : Type}.
Variable K_eq_dec : forall a b : K, {a = b} + {a <> b}.
Variable K_leb : K -> K -> bool.
Variable key : A -> option K.

Definition has_key (k : K) (r : A) : bool :=
  match key r with
  | Some k' => if K_eq_dec k' k then true else false
  | None => false
  end.

(** Keys of the rows that have one (rows with a missing key take part in
    no group: [dropna=True]). *)
Fixpoint present_keys (df : list A) : list K :=
  match df with
  | [] => []
  | r :: df' =>
      match key r with
      | Some k => k :: present_keys df'
      | None => present_keys df'
      end
  end.

(** Distinct keys in ascending order ([sort=True]). *)
Definition group_keys (df : list A) : list K :=
  sort_by K_leb (nodup K_eq_dec (present_keys df)).

(** [for k, group in df.groupby(key)]: one group per distinct key, each
    holding the frame's rows with that key in frame order. *)
Definition groupby (df : list A) : list (K * list A) :=
  map (fun k => (k, filter (has_key k) df)) (group_keys df).
End GroupBy.

(* ================================================================== *)
(** * extract.py: the source database and the extraction query *)

Module Extract.
Import Time.

(** Rows of the three tables the query reads.  [ft.total] is nullable;
    the join columns and the event time [ft.at] are not. *)
Record FactTransaction : Type := mkFact {
  ft_transaction_id : Z;
  ft_at : Timestamp;
  ft_total : option Z;
  ft_truck_id : Z;
  ft_payment_method_id : Z
}.

Record DimTruck : Type := mkTruck {
  dt_truck_id : Z;
  dt_truck_name : string;
  dt_truck_description : string;
  dt_has_card_reader : Z;
  dt_fsa_rating : Z
}.

Record DimPaymentMethod : Type := mkPaymentMethod {
  pm_payment_method_id : Z;
  pm_payment_method : string
}.

Record Database : Type := mkDatabase {
  FACT_Transaction : list FactTransaction;
  DIM_Truck : list DimTruck;
  DIM_Payment_Method : list DimPaymentMethod
}.

(** A row of the query's result set (the frame [pd.read_sql] returns),
    with the ten selected columns in the order of the SELECT list. *)
Record Transaction : Type := mkTransaction {
  transaction_id : Z;
  at_ : Timestamp;
  total : option Z;
  truck_id : Z;
  payment_method_id : Z;
  truck_name : string;
  truck_description : string;
  has_card_reader : Z;
  fsa_rating : Z;
  payment_method : string
}.

Definition select (ft : FactTransaction) (dt : DimTruck)
           (pm : DimPaymentMethod) : Transaction :=
  mkTransaction (ft_transaction_id ft) (ft_at ft) (ft_total ft)
                (ft_truck_id ft) (ft_payment_method_id ft)
                (dt_truck_name dt) (dt_truck_description dt)
                (dt_has_card_reader dt) (dt_fsa_rating dt)
                (pm_payment_method pm).

(** [FROM FACT_Transaction ft JOIN DIM_Truck dt ON ft.truck_id =
    dt.truck_id JOIN DIM_Payment_Method pm ON ft.payment_method_id =
    pm.payment_method_id] *)
Definition from_join (db : Database) : list Transaction :=
  flat_map (fun ft =>
    flat_map (fun dt =>
      map (fun pm => select ft dt pm)
          (filter (fun pm => ft_payment_method_id ft =? pm_payment_method_id pm)
                  (DIM_Payment_Method db)))
      (filter (fun dt => ft_truck_id ft =? dt_truck_id dt) (DIM_Truck db)))
    (FACT_Transaction db).

(** [if since_timestamp: query += " WHERE ft.at > '{since_timestamp}'"] *)
Definition where_at (since_timestamp : option Timestamp)
           (rows : list Transaction) : list Transaction :=
  match since_timestamp with
  | Some since => filter (fun r => since <? at_ r) rows
  | None => rows
  end.

(** [ORDER BY ft.at] *)
Definition order_by_at (rows : list Transaction) : list Transaction :=
  sort_by (fun a b => at_ a <=? at_ b) rows.

Definition extract_data (db_connection : Database)
           (since_timestamp : option Timestamp) : list Transaction :=
  order_by_at (where_at since_timestamp (from_join db_connection)).

(** [transactions_df['at'].max()] of a frame with at least one row. *)
Definition at_max (first : Transaction) (rest : list Transaction) : Timestamp :=
  fold_left Z.max (map at_ rest) (at_ first).

(** ** The watermark and the extraction stage *)

Import Store.
Local Open Scope stmt_scope.

(** [s3_client.get_object(Bucket=S3_BUCKET, Key=STATE_FILE_KEY)]: a
    missing key is the [NoSuchKey] client error. *)
Definition s3_get_state (faults : Faults) : M Timestamp :=
  perform S3GetState ;;
  match get_state_error faults with
  | Some err => raise (ClientError (error_code err))
  | None =>
      stored <- gets s3_last_run ;;
      match stored with
      | Some t => ret t
      | None => raise (ClientError "NoSuchKey")
      end
  end.

(** The [try ... except ClientError] of [get_last_processed_timestamp].
    The stored datetime plus one second is formatted with
    [%Y-%m-%d %H:%M:%S], which leaves the microseconds out; the value
    returned here is the datetime that text denotes in the query.  The
    [OverflowError] of the addition is not a [ClientError] and
    propagates. *)
Definition get_last_processed_timestamp (faults : Faults)
  : M (option Timestamp) :=
  fun w =>
    match s3_get_state faults w with
    | (w', Done dt) =>
        match add_seconds dt 1 with
        | Some dt' => (w', Done (Some (floor_second dt')))
        | None => (w', Raised (OverflowError "date value out of range"))
        end
    | (w', Raised (ClientError code)) =>
        if String.eqb code "NoSuchKey" then (w', Done None)
        else (w', Raised (ClientError code))
    | (w', Raised e) => (w', Raised e)
    end.

Definition save_last_processed_timestamp (faults : Faults)
           (timestamp : Timestamp) : M unit :=
  perform (S3PutState timestamp) ;;
  match put_state_error faults with
  | Some err => raise (ClientError (error_code err))
  | None => modify (set_s3_last_run timestamp)
  end.

(** The result set as a frame of cells; a NULL amount is NaN. *)
Definition to_frame (r : Transaction) : Frame.Row :=
  Frame.mkRow (Some (transaction_id r)) (Frame.AtTime (at_ r))
              (match total r with
               | Some z => Frame.float_of_int z
               | None => nan
               end)
              (Some (truck_id r))
              (Some (payment_method_id r)) (Some (truck_name r))
              (Some (truck_description r))
              (Frame.FlagInt (has_card_reader r)) (Some (fsa_rating r))
              (Some (payment_method r)).

Definition save_data (dataframe : list Transaction) : M unit :=
  perform WriteTransactionsCsv ;;
  modify (set_csv_transactions (to_csv (map to_frame dataframe))).

Definition main_extract (db_connection : Database) (faults : Faults) : M nat :=
  last_timestamp <- get_last_processed_timestamp faults ;;
  perform (ReadSql last_timestamp) ;;
  let transactions_df := extract_data db_connection last_timestamp in
  match transactions_df with
  | first :: rest =>
      save_data transactions_df ;;
      let latest_timestamp := at_max first rest in
      save_last_processed_timestamp faults latest_timestamp ;;
      ret (List.length transactions_df)
  | [] => ret (List.length transactions_df)
  end.

End Extract.

(* ================================================================== *)
(** * partition_transactions.py *)

Module Partition.
Import Time Frame Store.
Local Open Scope stmt_scope.

(** [df['year'] = df['at'].dt.year] and the two like it: the date
    components of the cell; missing for NaT.  The [.dt] accessor exists
    only on a datetime column. *)
Definition date_parts (c : AtCell) : option PartKey :=
  match c with
  | AtTime t => Some (year t, month t, day t)
  | _ => None
  end.

Definition is_text (c : AtCell) : bool :=
  match c with AtText _ => true | _ => false end.

(** A frame with the three derived columns. *)
Definition Dated : Type := Row * option PartKey.

Definition add_date_columns (df : list Row) : result (list Dated) :=
  if existsb (fun r => is_text (at_ r)) df
  then Raised (AttributeError "Can only use .dt accessor with datetimelike values")
  else Done (map (fun r => (r, date_parts (at_ r))) df).

(** [group.drop(columns=['year', 'month', 'day'])] *)
Definition drop_date_columns (group : list Dated) : list Row := map fst group.

(** The partitions [partition_transactions] writes, in the order it
    writes them: [(year, month, day)] and the frame saved under it. *)
Definition partitions (df : list Row) : result (list (PartKey * list Row)) :=
  match add_date_columns df with
  | Raised e => Raised e
  | Done dated =>
      Done (map (fun g => (fst g, drop_date_columns (snd g)))
                (groupby PartKey_eq_dec PartKey_leb snd dated))
  end.

(** The rows of a frame that belong to the partition [k]. *)
Definition in_partition (k : PartKey) (r : Row) : bool :=
  has_key PartKey_eq_dec (fun r => date_parts (at_ r)) k r.

Fixpoint save_partitions (groups : list (PartKey * list Row)) : M nat :=
  match groups with
  | [] => ret 0%nat
  | (k, partition_df) :: groups' =>
      perform (WritePartition k) ;;
      modify (set_parquet_partition k partition_df) ;;
      total_partitions <- save_partitions groups' ;;
      ret (S total_partitions)
  end.

Definition partition_transactions (df : list Row) : M nat :=
  groups <- lift (partitions df) ;;
  save_partitions groups.

Definition load_cleaned_data : M (list Row) :=
  perform ReadCleanedCsv ;;
  file <- gets csv_cleaned ;;
  match file with
  | None => raise (FileNotFoundError "data/transactions_cleaned.csv")
  | Some df => lift (Transform.to_datetime df)
  end.

Definition TruckDim_eq_dec (a b : TruckDim) : {a = b} + {a <> b}.
Proof.
  repeat decide equality.
Defined.

Definition PaymentDim_eq_dec (a b : PaymentDim) : {a = b} + {a <> b}.
Proof. repeat decide equality. Defined.

(** [drop_duplicates()] of a projected frame keeps first occurrences. *)
Fixpoint distinct {A : Type} (eq_dec : forall a b : A, {a = b} + {a <> b})
         (seen l : list A) : list A :=
  match l with
  | [] => []
  | x :: l' =>
      if in_dec eq_dec x seen then distinct eq_dec seen l'
      else x :: distinct eq_dec (x :: seen) l'
  end.

Definition extract_dimension_tables (df : list Row)
  : list TruckDim * list PaymentDim :=
  (distinct TruckDim_eq_dec []
     (map (fun r => (truck_id r, truck_name r, truck_description r,
                     has_card_reader r, fsa_rating r)) df),
   distinct PaymentDim_eq_dec []
     (map (fun r => (payment_method_id r, payment_method r)) df)).

Definition save_dimensions (d : list TruckDim * list PaymentDim) : M unit :=
  perform WriteDimensions ;;
  modify (set_parquet_dimensions d).

Definition main_partition_transactions : M nat :=
  df <- load_cleaned_data ;;
  save_dimensions (extract_dimension_tables df) ;;
  partition_transactions df.

End Partition.

(* ================================================================== *)
(** * load.py *)

Module Load.
Import Time Frame Store.
Local Open Scope stmt_scope.

(** [wr.s3.to_parquet(df, path, dataset=True, partition_cols=['year',
    'month', 'day'], mode='append')]: one new object per partition, next
    to the objects earlier runs wrote; the partition columns live in the
    object's path.  Partitions are written in key order and a failure
    leaves the ones already written in the bucket. *)
Fixpoint s3_to_parquet (faults : Faults) (groups : list (PartKey * list Row))
  : M unit :=
  match groups with
  | [] => ret tt
  | (k, rows) :: groups' =>
      perform (S3WritePartition k) ;;
      match write_partition_error faults k with
      | Some err => raise (ClientError (error_code err))
      | None =>
          modify (add_s3_transactions k rows) ;;
          s3_to_parquet faults groups'
      end
  end.

Definition upload_partitioned_transactions (faults : Faults) : M unit :=
  perform ReadCleanedCsv ;;
  file <- gets csv_cleaned ;;
  match file with
  | None => raise (FileNotFoundError "data/transactions_cleaned.csv")
  | Some csv =>
      df <- lift (Transform.to_datetime csv) ;;
      groups <- lift (Partition.partitions df) ;;
      s3_to_parquet faults groups
  end.

Definition verify_upload : M unit := perform S3ListObjects.

(** The parameter [upload_dimensions] hides the function of that name, so
    the call in the [True] branch applies a boolean.  No statement of the
    [try] block raises [NotImplementedError], the only exception it
    handles. *)
Definition upload_transaction_data (faults : Faults) (upload_dimensions : bool)
  : M unit :=
  (if upload_dimensions
   then raise (TypeError "'bool' object is not callable")
   else ret tt) ;;
  upload_partitioned_transactions faults ;;
  verify_upload.

End Load.

(* ================================================================== *)
(** * pipeline.py *)

Module Pipeline.
Import Store.
Local Open Scope stmt_scope.

(** The body of [if __name__ == "__main__"]. *)
Definition main (db : Extract.Database) (faults : Faults) : M unit :=
  rows_extracted <- Extract.main_extract db faults ;;
  if Nat.eqb rows_extracted 0 then ret tt
  else
    Transform.main_transform ;;
    Partition.main_partition_transactions ;;
    Load.upload_transaction_data faults false.

(** Consecutive runs, each against the database as it is at that time. *)
Fixpoint runs (schedule : list (Extract.Database * Faults)) (w : World) : World :=
  match schedule with
  | [] => w
  | (db, faults) :: schedule' => runs schedule' (fst (main db faults w))
  end.

(** The watermark in the state file after each of the runs. *)
Fixpoint watermarks (schedule : list (Extract.Database * Faults)) (w : World)
  : list (option Time.Timestamp) :=
  match schedule with
  | [] => []
  | (db, faults) :: schedule' =>
      s3_last_run (fst (main db faults w))
      :: watermarks schedule' (fst (main db faults w))
  end.

(** Order on the content of the state file: no watermark yet comes first. *)
Definition watermark_le (a b : option Time.Timestamp) : Prop :=
  match a, b with
  | None, _ => True
  | Some x, Some y => x <= y
  | Some _, None => False
  end.

(** The lower bound a run that starts in [w] queries with: none when
    there is no watermark yet, else the watermark plus one second without
    its microseconds; [OverflowError] when that sum is no datetime. *)
Definition lower_bound (w : World) : result (option Time.Timestamp) :=
  match s3_last_run w with
  | None => Done None
  | Some W =>
      match Time.add_seconds W 1 with
      | Some t => Done (Some (Time.floor_second t))
      | None => Raised (OverflowError "date value out of range")
      end
  end.

(** The run starting in [w] gets as far as its query, and the source
    holds no row that query selects. *)
Definition no_new_data (db : Extract.Database) (w : World) : bool :=
  match lower_bound w with
  | Done (Some since) =>
      forallb (fun r => Extract.at_ r <=? since) (Extract.from_join db)
  | Done None => match Extract.from_join db with [] => true | _ :: _ => false end
  | Raised _ => false
  end.

(** Puts on the state file among the effects. *)
Definition is_put (e : Effect) : bool :=
  match e with S3PutState _ => true | _ => false end.

Definition count_puts (es : list Effect) : nat :=
  List.length (filter is_put es).

(** [w'] is reached from [w] without touching the state file: the
    watermark is the same and the effects added hold no put. *)
Definition quiet_step (w w' : World) : Prop :=
  s3_last_run w' = s3_last_run w
  /\ exists es, effects w' = effects w ++ es /\ count_puts es = 0%nat.

Definition quiet {A : Type} (m : M A) : Prop :=
  forall w, quiet_step w (fst (m w)).

End Pipeline.

(* ================================================================== *)
(** * generate_report.py: the report metrics *)

Module Report.
Local Open Scope Q_scope.

(** The columns of a day's partition that [calculate_metrics] reads.  The
    amount is present in every row (the cleaner's [dropna]).  The two
    names can be missing: the cleaner does not require them, and a name
    that is NULL in its dimension table, or that the CSV files of the ETL
    stages read back as missing, is missing in the partition. *)
Record Sale : Type := mkSale {
  total : Q;
  truck_name : option string;
  payment_method : option string
}.

Definition sum (xs : list Q) : Q := fold_right Qplus 0 xs.

Definition len {A : Type} (l : list A) : Z := Z.of_nat (List.length l).

(** [Series.mean()] of a non-empty column. *)
Definition mean (xs : list Q) : Q := sum xs / inject_Z (len xs).

(** [round(2)]: to the nearest hundredth, ties to the even one. *)
Definition round_half_even (q : Q) : Z :=
  let f := Qfloor q in
  match ((q - inject_Z f) ?= (1 # 2))%Q with
  | Lt => f
  | Gt => (f + 1)%Z
  | Eq => if Z.even f then f else (f + 1)%Z
  end.

Definition round2 (q : Q) : Q := Qred (inject_Z (round_half_even (q * 100)) / 100).

Module Truck.
Record Stats : Type := mkStats {
  name : string;
  revenue : Q;
  transactions : Z;
  avg_transaction : Q
}.
End Truck.

Module Payment.
Record Stats : Type := mkStats {
  count : Z;
  revenue : Q;
  percentage : Q;
  processing_cost : Q
}.
End Payment.

(** The dictionary [calculate_metrics] returns.  The two last keys are
    present only in the dictionary of a non-empty frame. *)
Record Metrics : Type := mkMetrics {
  date : string;
  total_revenue : Q;
  total_transactions : Z;
  best_truck : string;
  best_truck_revenue : Q;
  worst_truck : string;
  worst_truck_revenue : Q;
  payment_methods : list (string * Payment.Stats);
  average_transaction : Q;
  all_trucks : list Truck.Stats;
  total_card_costs : option Q;
  net_revenue : option Q
}.

(** [df.groupby('truck_name').agg({'total': ['sum', 'count', 'mean']})
    .round(2)], then [sort_values('revenue', ascending=False)] (rows of
    equal revenue stay in index order).  A row without a truck name is in
    no group. *)
Definition truck_stats (df : list Sale) : list Truck.Stats :=
  sort_by (fun a b => Qle_bool (Truck.revenue b) (Truck.revenue a))
    (map (fun g =>
            let totals := map total (snd g) in
            Truck.mkStats (fst g) (round2 (sum totals)) (len totals)
                          (round2 (mean totals)))
         (groupby string_dec String.leb truck_name df)).

(** [df.groupby('payment_method').agg({'total': ['count', 'sum']})].  A
    row without a payment method is in no group. *)
Definition payment_breakdown (df : list Sale) : list (string * (Z * Q)) :=
  map (fun g => (fst g, (len (snd g), sum (map total (snd g)))))
      (groupby string_dec String.leb payment_method df).

Definition CARD_FEE_RATE : Q := 2 # 100.

Definition lower_char (c : ascii) : ascii :=
  let n := nat_of_ascii c in
  if (Nat.leb 65 n && Nat.leb n 90)%bool then ascii_of_nat (n + 32) else c.

Fixpoint lower (s : string) : string :=
  match s with
  | EmptyString => EmptyString
  | String c s' => String (lower_char c) (lower s')
  end.

(** [needle in s] *)
Fixpoint contains (needle s : string) : bool :=
  (prefix needle s ||
   match s with
   | EmptyString => false
   | String _ s' => contains needle s'
   end)%bool.

(** The body of the loop over [payment_breakdown.index]. *)
Definition payment_stats (total_revenue : Q) (method : string)
           (count : Z) (revenue : Q) : Payment.Stats :=
  let percentage :=
    if Qlt_le_dec 0 total_revenue then revenue / total_revenue * 100 else 0 in
  let processing_cost :=
    if contains "card" (lower method) then revenue * CARD_FEE_RATE else 0 in
  Payment.mkStats count revenue percentage processing_cost.

(** [yesterday] is the text [get_yesterday_date()] returns when the
    metrics are computed.  [truck_stats.index[0]] raises when no row of a
    non-empty frame has a truck name. *)
Definition calculate_metrics (yesterday : string) (df : list Sale)
  : result Metrics :=
  match df with
  | [] =>
      Done (mkMetrics yesterday 0 0 "N/A" 0 "N/A" 0 [] 0 [] None None)
  | _ :: _ =>
      let total_revenue := sum (map total df) in
      let total_transactions := len df in
      let average_transaction := mean (map total df) in
      match truck_stats df with
      | [] =>
          Raised (IndexError "index 0 is out of bounds for axis 0 with size 0")
      | best :: others =>
          let stats := best :: others in
          let worst := last stats best in
          let payment_methods :=
            map (fun p => (fst p, payment_stats total_revenue (fst p)
                                    (fst (snd p)) (snd (snd p))))
                (payment_breakdown df) in
          let total_card_costs :=
            sum (map (fun pm => Payment.processing_cost (snd pm))
                     payment_methods) in
          Done (mkMetrics yesterday total_revenue total_transactions
                          (Truck.name best) (Truck.revenue best)
                          (Truck.name worst) (Truck.revenue worst)
                          payment_methods average_transaction stats
                          (Some total_card_costs)
                          (Some (total_revenue - total_card_costs)))
      end
  end.

(** The rows that have a payment method. *)
Definition with_payment_method (df : list Sale) : list Sale :=
  filter (fun r => Frame.notna (payment_method r)) df.

(** The sum of the percentages of a breakdown. *)
Definition percentages (m : Metrics) : Q :=
  sum (map (fun pm => Payment.percentage (snd pm)) (payment_methods m)).

End Report.

(* ================================================================== *)
(** * Sample data for the examples *)

Module Sample.
Import Frame Store Extract.

(** 2024-01-01 10:00:00, one second later, and 2024-01-02 10:00:00. *)
Definition db : Database :=
  mkDatabase
    [mkFact 1 1704103200000000 (Some 500) 7 1;
     mkFact 2 1704189600000000 (Some 250) 7 2;
     mkFact 3 1704103201000000 None 7 2]
    [mkTruck 7 "Burrito Bus" "Mexican street food" 1 5]
    [mkPaymentMethod 1 "card"; mkPaymentMethod 2 "cash"].

Definition first_run : World := mkWorld None [] None None None [] [].

(** The bucket refuses every write under [transactions/]. *)
Definition upload_fails : Faults :=
  mkFaults None None (fun _ => Some AccessDenied).

(** A world whose watermark is the latest event time of [db]. *)
Definition up_to_date : World :=
  mkWorld (Some 1704189600000000) [] None None None [] [].

(** A world whose watermark is 2024-01-02 10:00:00.500000. *)
Definition half_second : World :=
  mkWorld (Some 1704189600500000) [] None None None [] [].

(** A source with a row at 2024-01-02 10:00:01.200000. *)
Definition db_fraction : Database :=
  mkDatabase
    [mkFact 4 1704189601200000 (Some 100) 7 1]
    [mkTruck 7 "Burrito Bus" "Mexican street food" 1 5]
    [mkPaymentMethod 1 "card"; mkPaymentMethod 2 "cash"].

(** A world whose watermark is 9999-12-31 23:59:59. *)
Definition last_second : World :=
  mkWorld (Some 253402300799000000) [] None None None [] [].

(** A source whose second payment method is named NA. *)
Definition db_unnamed_method : Database :=
  mkDatabase
    [mkFact 1 1704103200000000 (Some 7500) 7 1;
     mkFact 2 1704103260000000 (Some 2500) 7 2]
    [mkTruck 7 "Burrito Bus" "Mexican street food" 1 5]
    [mkPaymentMethod 1 "cash"; mkPaymentMethod 2 "NA"].

Definition raw : list Row :=
  [mkRow (Some 1) (AtText "2024-01-01T10:00:00") 500%float (Some 7)
         (Some 1) (Some "Burrito Bus"%string) None (FlagInt 1) (Some 5)
         (Some "card"%string);
   mkRow (Some 2) (AtText "2024-01-02T10:00:00") 250%float (Some 7)
         (Some 2) (Some "Burrito Bus"%string) None (FlagInt 1) (Some 5)
         (Some "cash"%string)].

Definition cleaned : list Row :=
  [mkRow (Some 1) (AtTime 1704103200000000) 5%float (Some 7)
         (Some 1) (Some "Burrito Bus"%string) None (FlagBool true) (Some 5)
         (Some "card"%string);
   mkRow (Some 2) (AtTime 1704189600000000) 2.5%float (Some 7)
         (Some 2) (Some "Burrito Bus"%string) None (FlagBool true) (Some 5)
         (Some "cash"%string)].

(** One valid row of 500 minor units. *)
Definition one_row : list Row :=
  [mkRow (Some 2) (AtText "2024-01-01T10:00:00") 500%float (Some 7) (Some 1)
         (Some "Taco"%string) None (FlagInt 1) (Some 5) (Some "card"%string)].

(** Two sales of the same truck, payment method and instant, of
    100000000000000048 and 100000000000000064 minor units. *)
Definition close_amounts : list Row :=
  [mkRow (Some 1) (AtText "2024-01-01T10:00:00")
         (float_of_int 100000000000000048) (Some 7) (Some 1)
         (Some "Taco"%string) None (FlagInt 1) (Some 5) (Some "card"%string);
   mkRow (Some 2) (AtText "2024-01-01T10:00:00")
         (float_of_int 100000000000000064) (Some 7) (Some 1)
         (Some "Taco"%string) None (FlagInt 1) (Some 5) (Some "card"%string)].

Definition sales : list Report.Sale :=
  [Report.mkSale 5 (Some "Burrito Bus") (Some "card");
   Report.mkSale (5 # 2) (Some "Burrito Bus") (Some "cash");
   Report.mkSale (1 # 3) (Some "Pasta Van") (Some "Credit Card");
   Report.mkSale 1 (Some "Pasta Van") (Some "cash")]%string.

(** A day with a sale whose payment method is missing. *)
Definition sales_missing_method : list Report.Sale :=
  [Report.mkSale 75 (Some "Burrito Bus") (Some "cash");
   Report.mkSale 25 (Some "Burrito Bus") None]%string.

End Sample.
(* ================================================================== *)
(** * The calendar over the years 1 to 9999 *)

Module Calendar.
Import Time.

(** The datetimes [datetime] can hold. *)
Definition in_range (t : Timestamp) : bool :=
  (datetime_min <=? t) && (t <=? datetime_max).

(** Day [doe] of the 400-year cycle that starts on 0000-03-01 converts to
    a valid civil date of the years 0 to 400 and back to the same day. *)
Definition era_day_ok (doe : Z) : bool :=
  let '(y, m, d) := civil_from_days (doe - 719468) in
  (0 <=? y) && (y <=? 400)
  && ((doe <? 306) || (1 <=? y))
  && ((146036 <? doe) || (y <=? 399))
  && (1 <=? m) && (m <=? 12) && (1 <=? d) && (d <=? days_in_month y m)
  && (days_from_civil y m d =? doe - 719468).

Fixpoint all_from (check : Z -> bool) (n : nat) (z : Z) : bool :=
  match n with
  | O => true
  | S n' => check z && all_from check n' (z + 1)
  end.

End Calendar.

(* ================================================================== *)
(** * Vocabulary of the further properties *)

Module Query.
Import Extract.

(** Both references of a fact row resolve in the dimension tables. *)
Definition resolves (db : Database) (ft : FactTransaction) : bool :=
  existsb (fun dt => ft_truck_id ft =? dt_truck_id dt) (DIM_Truck db)
  && existsb (fun pm => ft_payment_method_id ft =? pm_payment_method_id pm)
             (DIM_Payment_Method db).

(** Every event time of the fact table is a datetime of the years 1 to
    9999. *)
Definition db_in_range (db : Database) : bool :=
  forallb (fun ft => Calendar.in_range (ft_at ft)) (FACT_Transaction db).

End Query.

Module Provenance.
Import Frame Transform.

(** [Embeds R out df]: the elements of [out] are related by [R] to
    elements of [df] met in the same order (some elements of [df] may be
    skipped, none is used twice). *)
Inductive Embeds {A B : Type} (R : A -> B -> Prop) : list A -> list B -> Prop :=
| Embeds_nil : forall l, Embeds R [] l
| Embeds_keep : forall a b la lb, R a b -> Embeds R la lb -> Embeds R (a :: la) (b :: lb)
| Embeds_skip : forall b la lb, Embeds R la lb -> Embeds R la (b :: lb).

(** [o] is the row [clean_data] makes of the input row [r]: the amount
    converted, the event time parsed, the flag made a boolean, the other
    columns as they were. *)
Definition cleaned_from (o r : Row) : Prop :=
  exists c,
    to_datetime_cell (at_ r) = Done c
    /\ o = set_has_card_reader (set_at (rescale r) c)
                               (astype_bool (has_card_reader r)).

(** A row as it is after the file between two stages and the parsing of
    the event times: the text cells that spell a missing value are
    missing, the rest is as it was. *)
Definition read_back (r : Row) : Row :=
  mkRow (transaction_id r) (at_ r) (total r) (truck_id r)
        (payment_method_id r) (Store.csv_text (truck_name r))
        (Store.csv_text (truck_description r)) (has_card_reader r)
        (fsa_rating r) (Store.csv_text (payment_method r)).

End Provenance.

Module Footprint.
Import Store.

(** The statement [m] leaves the part [field] of the world as it found
    it, whether it returns or raises. *)
Definition preserves {X A : Type} (field : World -> X) (m : M A) : Prop :=
  forall w, field (fst (m w)) = field w.

(** The groups [s3_to_parquet] gets into the bucket: those before the
    first one whose write fails. *)
Fixpoint written (faults : Faults) (groups : list (PartKey * list Frame.Row))
  : list (PartKey * list Frame.Row) :=
  match groups with
  | [] => []
  | (k, rows) :: groups' =>
      match write_partition_error faults k with
      | Some _ => []
      | None => (k, rows) :: written faults groups'
      end
  end.

(** The error of the first group whose write fails, if any. *)
Fixpoint first_write_error (faults : Faults)
         (groups : list (PartKey * list Frame.Row)) : option S3Error :=
  match groups with
  | [] => None
  | (k, _) :: groups' =>
      match write_partition_error faults k with
      | Some err => Some err
      | None => first_write_error faults groups'
      end
  end.

End Footprint.

(** Data for the examples of the further properties. *)
Module Fixture.
Import Frame Store Extract.

(** The state file cannot be read; the state file cannot be written. *)
Definition state_unreadable : Faults :=
  mkFaults (Some AccessDenied) None (fun _ => None).
Definition put_fails : Faults :=
  mkFaults None (Some SlowDown) (fun _ => None).

(** The rows of the first query on [Sample.db], in its order. *)
Definition batch_first : Transaction :=
  mkTransaction 1 1704103200000000 (Some 500) 7 1 "Burrito Bus"
                "Mexican street food" 1 5 "card".
Definition batch_rest : list Transaction :=
  [mkTransaction 3 1704103201000000 None 7 2 "Burrito Bus"
                 "Mexican street food" 1 5 "cash";
   mkTransaction 2 1704189600000000 (Some 250) 7 2 "Burrito Bus"
                 "Mexican street food" 1 5 "cash"].

(** A world whose cleaned file holds [Sample.cleaned], and the groups of
    that frame. *)
Definition cleaned_file : World :=
  mkWorld None [] None (Some (to_csv Sample.cleaned)) None [] [].

Definition cleaned_groups : list (PartKey * list Row) :=
  [((2024, 1, 1),
    [mkRow (Some 1) (AtTime 1704103200000000) 5%float (Some 7)
           (Some 1) (Some "Burrito Bus"%string) None (FlagBool true) (Some 5)
           (Some "card"%string)]);
   ((2024, 1, 2),
    [mkRow (Some 2) (AtTime 1704189600000000) 2.5%float (Some 7)
           (Some 2) (Some "Burrito Bus"%string) None (FlagBool true) (Some 5)
           (Some "cash"%string)])].

End Fixture.

(* ================================================================== *)
(** * Facts about ordering and grouping *)

Section SortingFacts.
Context {A : Type} (leb : A -> A -> bool).

Lemma insert_sorted_perm (x : A) (l : list A) :
  Permutation (insert_sorted leb x l) (x :: l).
Proof.
  induction l as [|y l IH]; simpl.
  - apply Permutation_refl.
  - destruct (leb x y).
    + apply Permutation_refl.
    + eapply perm_trans; [apply perm_skip, IH | apply perm_swap].
Qed.

Lemma sort_by_perm (l : list A) : Permutation (sort_by leb l) l.
Proof.
  induction l as [|x l IH]; simpl.
  - constructor.
  - eapply perm_trans; [apply insert_sorted_perm | apply perm_skip, IH].
Qed.

Lemma sort_by_In (l : list A) (x : A) : In x (sort_by leb l) <-> In x l.
Proof.
  split; apply Permutation_in;
    [apply sort_by_perm | apply Permutation_sym, sort_by_perm].
Qed.

Hypothesis leb_total : forall a b, leb a b = true \/ leb b a = true.

Lemma insert_sorted_Sorted (x : A) (l : list A) :
  Sorted (leb_rel leb) l -> Sorted (leb_rel leb) (insert_sorted leb x l).
Proof.
  induction l as [|y l IH]; simpl; intros Hs.
  - repeat constructor.
  - destruct (leb x y) eqn:E.
    + constructor; [exact Hs | constructor; exact E].
    + inversion Hs as [|? ? Hs' Hd]; subst.
      constructor; [apply IH; exact Hs'|].
      assert (Hyx : leb_rel leb y x)
        by (destruct (leb_total x y) as [H|H]; [congruence | exact H]).
      destruct l as [|z l]; simpl.
      * constructor; exact Hyx.
      * destruct (leb x z); constructor;
          [exact Hyx | inversion Hd; assumption].
Qed.

Lemma sort_by_Sorted (l : list A) : Sorted (leb_rel leb) (sort_by leb l).
Proof.
  induction l as [|x l IH]; simpl.
  - constructor.
  - apply insert_sorted_Sorted, IH.
Qed.

End SortingFacts.

(* ================================================================== *)
(** * The extraction query *)

Section ExtractFacts.
Import Time Store Extract.

Lemma where_at_newer (since : Timestamp) (rows : list Transaction) :
  Forall (fun r => since < at_ r) (where_at (Some since) rows).
Proof.
  apply Forall_forall. intros r Hin. simpl in Hin.
  apply filter_In in Hin. destruct Hin as [_ Hlt].
  apply Z.ltb_lt. exact Hlt.
Qed.

Lemma order_by_at_In (rows : list Transaction) (r : Transaction) :
  In r (order_by_at rows) <-> In r rows.
Proof. apply sort_by_In. Qed.

Lemma order_by_at_ascending (rows : list Transaction) :
  StronglySorted (fun a b => at_ a <= at_ b) (order_by_at rows).
Proof.
  apply Sorted_StronglySorted.
  - intros a b c Hab Hbc. lia.
  - assert (Hs : Sorted (leb_rel (fun a b => at_ a <=? at_ b)) (order_by_at rows)).
    { apply sort_by_Sorted. intros a b.
      destruct (Z.le_ge_cases (at_ a) (at_ b)); [left | right];
        apply Z.leb_le; assumption. }
    induction Hs as [|a l Hs IH Hd]; constructor.
    + exact IH.
    + destruct Hd as [|b l Hab]; constructor.
      apply Z.leb_le. exact Hab.
Qed.

Lemma extract_data_newer (db : Database) (since : Timestamp) (r : Transaction) :
  In r (extract_data db (Some since)) -> since < at_ r.
Proof.
  unfold extract_data. intros Hin.
  apply (proj1 (order_by_at_In _ _)) in Hin.
  pose proof (where_at_newer since (from_join db)) as Hall.
  rewrite Forall_forall in Hall. apply Hall. exact Hin.
Qed.

(** C3.  For every timestamp [T], every row of [extract_data db (Some T)]
    has an event time strictly after [T], the rows come in ascending order
    of event time, and no row at or before [T] is among them. *)
Theorem extract_data_no_lookback (db : Database) (T : Timestamp) :
  Forall (fun r => T < at_ r) (extract_data db (Some T))
  /\ StronglySorted (fun a b => at_ a <= at_ b) (extract_data db (Some T))
  /\ (forall r, In r (extract_data db (Some T)) -> ~ at_ r <= T).
Proof.
  split; [|split].
  - apply Forall_forall. intros r. apply extract_data_newer.
  - apply order_by_at_ascending.
  - intros r Hin Hle. apply extract_data_newer in Hin. lia.
Qed.

End ExtractFacts.

(* ================================================================== *)
(** * Cleaning *)

Section ListFacts.
Context {A : Type}.

Lemma filter_all (p : A -> bool) (l : list A) :
  (forall x, In x l -> p x = true) -> filter p l = l.
Proof.
  induction l as [|x l IH]; simpl; intros H; [reflexivity|].
  rewrite (H x (or_introl eq_refl)). f_equal. apply IH.
  intros y Hy. apply H. right. exact Hy.
Qed.

Lemma filter_none (p : A -> bool) (l : list A) :
  (forall x, In x l -> p x = false) -> filter p l = [].
Proof.
  induction l as [|x l IH]; simpl; intros H; [reflexivity|].
  rewrite (H x (or_introl eq_refl)). apply IH.
  intros y Hy. apply H. right. exact Hy.
Qed.

Lemma map_fixed (f : A -> A) (l : list A) :
  (forall x, In x l -> f x = x) -> map f l = l.
Proof.
  induction l as [|x l IH]; simpl; intros H; [reflexivity|].
  rewrite (H x (or_introl eq_refl)). f_equal. apply IH.
  intros y Hy. apply H. right. exact Hy.
Qed.

End ListFacts.

(** ** float64 division keeps a number a number *)

Section FloatFacts.
Import Frame.

Lemma is_nan_Prim2SF (x : float) :
  is_nan x = true <-> Prim2SF x = S754_nan.
Proof.
  unfold Prim2SF. destruct (is_nan x); [tauto|].
  split; [discriminate|].
  destruct (is_zero x); [discriminate|].
  destruct (is_infinity x); [discriminate|].
  destruct (Z.frexp x) as [r e].
  destruct (shr_fexp _ _ _ _ _) as [s e'].
  destruct (shr_m s); discriminate.
Qed.

Lemma shr_1_nonneg (mrs : shr_record) :
  0 <= shr_m mrs -> 0 <= shr_m (shr_1 mrs).
Proof.
  destruct mrs as [m r s]. simpl.
  destruct m as [|p|p]; simpl; try lia.
  destruct p; simpl; lia.
Qed.

Lemma iter_pos_nonneg (p : positive) (mrs : shr_record) :
  0 <= shr_m mrs -> 0 <= shr_m (SpecFloat.iter_pos shr_1 p mrs).
Proof.
  revert mrs. induction p as [p IH|p IH|]; simpl; intros mrs H.
  - apply IH, IH, shr_1_nonneg, H.
  - apply IH, IH, H.
  - apply shr_1_nonneg, H.
Qed.

Lemma shr_fexp_nonneg (m e : Z) (l : location) :
  0 <= m -> 0 <= shr_m (fst (shr_fexp prec emax m e l)).
Proof.
  intros H. unfold shr_fexp, shr.
  assert (H0 : 0 <= shr_m (shr_record_of_loc m l))
    by (destruct l as [|[]]; exact H).
  destruct (_ - e); simpl; auto using iter_pos_nonneg.
Qed.

Lemma round_nearest_even_nonneg (m : Z) (l : location) :
  0 <= m -> 0 <= round_nearest_even m l.
Proof.
  intros H. destruct l as [|[]]; simpl; try lia.
  destruct (Z.even m); lia.
Qed.

Lemma binary_round_aux_not_nan (s : bool) (m e : Z) (l : location) :
  0 <= m -> binary_round_aux prec emax s m e l <> S754_nan.
Proof.
  intros H. unfold binary_round_aux.
  pose proof (shr_fexp_nonneg m e l H) as H1.
  destruct (shr_fexp prec emax m e l) as [mrs' e']. simpl in H1.
  pose proof (shr_fexp_nonneg _ e' loc_Exact
                (round_nearest_even_nonneg _ (loc_of_shr_record mrs') H1)) as H2.
  destruct (shr_fexp prec emax _ e' loc_Exact) as [mrs'' e'']. simpl in H2.
  destruct (shr_m mrs'') as [|p|p]; [discriminate | | lia].
  destruct (e'' <=? _); discriminate.
Qed.

Lemma SFdiv_core_binary_nonneg (m1 m2 : positive) (e1 e2 : Z) :
  0 <= fst (fst (SFdiv_core_binary prec emax (Zpos m1) e1 (Zpos m2) e2)).
Proof.
  unfold SFdiv_core_binary.
  set (s := _ - _ - _).
  set (m' := match s with Z0 => _ | Zpos _ => _ | Zneg _ => _ end).
  assert (Hm : 0 <= m').
  { unfold m'. destruct s; try lia. apply Z.shiftl_nonneg. lia. }
  pose proof (Z.div_pos m' (Zpos m2) Hm ltac:(lia)) as Hq.
  unfold Z.div in Hq. destruct (Z.div_eucl m' (Zpos m2)) as [q r]. exact Hq.
Qed.

(** Dividing a number by a finite non-zero float gives a number (zero and
    the infinities included), never NaN. *)
Lemma div_finite_notna (x y : float) (sy : bool) (my : positive) (ey : Z) :
  Prim2SF y = S754_finite sy my ey ->
  is_nan x = false -> is_nan (x / y) = false.
Proof.
  intros Hy Hx. apply not_true_is_false. intros H.
  apply is_nan_Prim2SF in H. rewrite div_spec, Hy in H.
  assert (Hx' : Prim2SF x <> S754_nan).
  { intros E. apply is_nan_Prim2SF in E. congruence. }
  destruct (Prim2SF x) as [sx|sx| |sx mx ex]; try discriminate; [congruence|].
  unfold SF64div, SFdiv in H.
  pose proof (SFdiv_core_binary_nonneg mx my ex ey) as Hq.
  destruct (SFdiv_core_binary prec emax (Zpos mx) ex (Zpos my) ey) as [[mz ez] lz].
  simpl in Hq. exact (binary_round_aux_not_nan _ mz ez lz Hq H).
Qed.

Lemma to_major_units_notna (x : float) :
  is_nan x = false -> is_nan (Transform.to_major_units x) = false.
Proof.
  apply (div_finite_notna x 100 false 7036874417766400 (-46)). reflexivity.
Qed.

Lemma float_same_refl (x : float) : float_same x x = true.
Proof.
  unfold float_same, is_nan. destruct (x =? x)%float; reflexivity.
Qed.

Lemma optZ_same_refl (a : option Z) : optZ_same a a = true.
Proof. destruct a; simpl; [apply Z.eqb_refl | reflexivity]. Qed.

Lemma AtCell_same_refl (c : AtCell) : AtCell_same c c = true.
Proof.
  destruct c; simpl; [reflexivity | apply String.eqb_refl | apply Z.eqb_refl].
Qed.

End FloatFacts.

Section TransformFacts.
Import Time Frame Transform.

Lemma to_datetime_In (df out : list Row) (o : Row) :
  to_datetime df = Done out -> In o out ->
  exists r c, In r df /\ to_datetime_cell (at_ r) = Done c /\ o = set_at r c.
Proof.
  revert out. induction df as [|r df IH]; simpl; intros out H Hin.
  - inversion H; subst. destruct Hin.
  - destruct (to_datetime_cell (at_ r)) as [c|e] eqn:Ec; [|discriminate].
    destruct (to_datetime df) as [out'|e]; [|discriminate].
    inversion H; subst. destruct Hin as [<-|Hin].
    + exists r, c. auto.
    + destruct (IH out' eq_refl Hin) as [r' [c' [H1 H2]]].
      exists r', c'. tauto.
Qed.

Lemma to_datetime_cell_converted (c c' : AtCell) :
  to_datetime_cell c = Done c' -> c' = AtNull \/ exists t, c' = AtTime t.
Proof.
  destruct c as [|s|t]; simpl.
  - intros H; inversion H; auto.
  - destruct (fromisoformat s); intros H; inversion H; eauto.
  - intros H; inversion H; eauto.
Qed.

Lemma to_datetime_converted (df : list Row) :
  (forall r, In r df -> exists t, at_ r = AtTime t) -> to_datetime df = Done df.
Proof.
  induction df as [|r df IH]; simpl; intros H; [reflexivity|].
  destruct (H r (or_introl eq_refl)) as [t Ht]. rewrite Ht. simpl.
  rewrite IH by (intros; apply H; right; assumption).
  destruct r; simpl in *; subst; reflexivity.
Qed.

Lemma DupKey_same_refl (k : DupKey) : DupKey_same k k = true.
Proof.
  destruct k as [[[c truck] method] x]. unfold DupKey_same.
  rewrite AtCell_same_refl, !optZ_same_refl, float_same_refl. reflexivity.
Qed.

Lemma drop_duplicates_seen_In (seen : list DupKey) (df : list Row) (r : Row) :
  In r (drop_duplicates_seen seen df) -> In r df.
Proof.
  revert seen. induction df as [|x df IH]; simpl; intros seen H; [exact H|].
  destruct (existsb (DupKey_same (duplicate_check_cols x)) seen).
  - right. eapply IH; eauto.
  - destruct H as [<-|H]; [left; reflexivity | right; eapply IH; eauto].
Qed.

(** A row of the frame counts itself among the rows with its key. *)
Lemma count_same_In (df : list Row) (r : Row) :
  In r df ->
  (1 <= count_same (duplicate_check_cols r) (map duplicate_check_cols df))%nat.
Proof.
  unfold count_same. induction df as [|x df IH]; intros Hin;
    [destruct Hin|].
  cbn [map filter]. destruct Hin as [->|Hin].
  - rewrite DupKey_same_refl. cbn [List.length]. lia.
  - specialize (IH Hin).
    destruct (DupKey_same (duplicate_check_cols r) (duplicate_check_cols x));
      cbn [List.length]; lia.
Qed.

(** Where no key occurs twice, [drop_duplicates] drops nothing. *)
Lemma drop_duplicates_seen_all (seen : list DupKey) (df : list Row) :
  (forall r, In r df ->
     existsb (DupKey_same (duplicate_check_cols r)) seen = false) ->
  (forall r, In r df ->
     (count_same (duplicate_check_cols r) (map duplicate_check_cols df) <= 1)%nat) ->
  drop_duplicates_seen seen df = df.
Proof.
  revert seen. induction df as [|x df IH]; intros seen Hseen Hone;
    [reflexivity|].
  cbn [drop_duplicates_seen].
  rewrite (Hseen x (or_introl eq_refl)). f_equal. apply IH.
  - intros r Hr. cbn [existsb].
    rewrite (Hseen r (or_intror Hr)), orb_false_r.
    pose proof (Hone r (or_intror Hr)) as H1.
    pose proof (count_same_In df r Hr) as H2.
    unfold count_same in *. cbn [map filter] in H1.
    destruct (DupKey_same (duplicate_check_cols r) (duplicate_check_cols x));
      [cbn [List.length] in H1; lia | reflexivity].
  - intros r Hr. pose proof (Hone r (or_intror Hr)) as H1.
    unfold count_same in *. cbn [map filter] in H1.
    destruct (DupKey_same (duplicate_check_cols r) (duplicate_check_cols x));
      cbn [List.length] in H1; lia.
Qed.

(** The test [len(duplicates) > 0] changes nothing: without duplicates
    [drop_duplicates] returns the frame. *)
Lemma drop_duplicates_if (df : list Row) :
  (if (0 <? List.length (filter (duplicated_keep_false df) df))%nat
   then drop_duplicates df else df)
  = drop_duplicates df.
Proof.
  destruct (0 <? _)%nat eqn:E; [reflexivity|].
  apply Nat.ltb_ge in E.
  assert (Hnone : filter (duplicated_keep_false df) df = [])
    by (apply length_zero_iff_nil; lia).
  symmetry. apply drop_duplicates_seen_all; [reflexivity|].
  intros r Hr. destruct (duplicated_keep_false df r) eqn:Ed.
  - assert (Hin : In r (filter (duplicated_keep_false df) df))
      by (apply filter_In; auto).
    rewrite Hnone in Hin. destruct Hin.
  - unfold duplicated_keep_false in Ed. apply Nat.ltb_ge in Ed. exact Ed.
Qed.

Lemma clean_data_rows (df out : list Row) (r : Row) :
  clean_data df = Done out -> In r out -> tidy r.
Proof.
  unfold clean_data. intros H Hin.
  destruct (to_datetime _) as [df2|e] eqn:Edt; [|discriminate].
  inversion H; subst out; clear H.
  rewrite drop_duplicates_if in Hin.
  apply filter_In in Hin. destruct Hin as [Hin Hcrit].
  apply drop_duplicates_seen_In in Hin.
  apply in_map_iff in Hin. destruct Hin as [r2 [<- Hin2]].
  destruct (to_datetime_In _ _ _ Edt Hin2) as [r1 [c [Hin1 [Hc ->]]]].
  apply to_datetime_cell_converted in Hc.
  unfold critical_notna, float_notna in Hcrit. simpl in Hcrit.
  repeat (apply andb_true_iff in Hcrit; destruct Hcrit as [Hcrit ?]).
  unfold tidy; simpl.
  destruct (transaction_id r1); [|discriminate].
  destruct (truck_id r1); [|discriminate].
  destruct (payment_method_id r1); [|discriminate].
  destruct Hc as [->|[t ->]]; [discriminate|].
  repeat split; eauto.
  - apply negb_true_iff. assumption.
  - destruct (has_card_reader r1); simpl; eauto.
Qed.

Lemma rescale_tidy (r : Row) : tidy r -> tidy (rescale r).
Proof.
  intros (Hid & Hat & Hx & Htr & Hpm & Hb).
  unfold tidy, rescale. simpl. repeat split; auto.
  apply to_major_units_notna, Hx.
Qed.

Lemma tidy_critical_notna (r : Row) : tidy r -> critical_notna r = true.
Proof.
  intros ((? & Hid) & (? & Hat) & Hx & (? & Htr) & (? & Hpm) & _).
  unfold critical_notna, float_notna. rewrite Hid, Hat, Hx, Htr, Hpm.
  reflexivity.
Qed.

(** Cleaning a frame of tidy rows: only the amounts and the duplicates
    they make are at stake. *)
Lemma clean_data_tidy_frame (df : list Row) :
  (forall r, In r df -> tidy r) ->
  clean_data df = Done (drop_duplicates (map rescale (nonzero df))).
Proof.
  intros Htidy. unfold clean_data.
  rewrite (filter_all (fun r => float_notna (total r)) df).
  2:{ intros r Hr. destruct (Htidy r Hr) as (_ & _ & Hx & _).
      unfold float_notna. rewrite Hx. reflexivity. }
  fold (nonzero df).
  change (map (fun r => set_total r (to_major_units (total r))) (nonzero df))
    with (map rescale (nonzero df)).
  assert (Hres : forall r, In r (map rescale (nonzero df)) -> tidy r).
  { intros r Hr. apply in_map_iff in Hr. destruct Hr as [r0 [<- Hr0]].
    apply filter_In in Hr0. apply rescale_tidy, Htidy, Hr0. }
  rewrite to_datetime_converted.
  2:{ intros r Hr. destruct (Hres r Hr) as (_ & Hat & _). exact Hat. }
  rewrite (map_fixed (fun r => set_has_card_reader r (astype_bool (has_card_reader r)))).
  2:{ intros r Hr. destruct (Hres r Hr) as (_ & _ & _ & _ & _ & (b & Hb)).
      destruct r; simpl in *; subst; reflexivity. }
  rewrite drop_duplicates_if. unfold dropna.
  rewrite filter_all; [reflexivity|].
  intros r Hr. apply tidy_critical_notna, Hres.
  apply drop_duplicates_seen_In in Hr. exact Hr.
Qed.

(** C2 (as the code has it).  Cleaning an already cleaned frame never
    raises.  It returns the rows of the cleaned frame whose amount is not
    zero, in the same order, with the amount divided by 100 once more (in
    float64) and every other column as it was; of rows that agree on the
    event time, the truck, the payment method and the amount after that
    second division, only the first is kept. *)
Theorem clean_data_twice (rows cleaned : list Row) :
  clean_data rows = Done cleaned ->
  clean_data cleaned = Done (drop_duplicates (map rescale (nonzero cleaned))).
Proof.
  intros H. apply clean_data_tidy_frame.
  intros r Hr. exact (clean_data_rows rows cleaned r H Hr).
Qed.

(** C2, witness: two sales of 100000000000000048 and 100000000000000064
    minor units at the same truck, payment method and instant.  Cleaning
    keeps both, as 1000000000000000.5 and 1000000000000000.625; cleaning
    again divides both to the same float, and keeps the first row only. *)
Lemma clean_data_twice_witness :
  clean_data Sample.close_amounts
  = Done [mkRow (Some 1) (AtTime 1704103200000000)
                (float_of_int 100000000000000048 / 100)%float (Some 7)
                (Some 1) (Some "Taco"%string) None (FlagBool true) (Some 5)
                (Some "card"%string);
          mkRow (Some 2) (AtTime 1704103200000000)
                (float_of_int 100000000000000064 / 100)%float (Some 7)
                (Some 1) (Some "Taco"%string) None (FlagBool true) (Some 5)
                (Some "card"%string)]
  /\ clean_data
       [mkRow (Some 1) (AtTime 1704103200000000)
              (float_of_int 100000000000000048 / 100)%float (Some 7)
              (Some 1) (Some "Taco"%string) None (FlagBool true) (Some 5)
              (Some "card"%string);
        mkRow (Some 2) (AtTime 1704103200000000)
              (float_of_int 100000000000000064 / 100)%float (Some 7)
              (Some 1) (Some "Taco"%string) None (FlagBool true) (Some 5)
              (Some "card"%string)]
     = Done [mkRow (Some 1) (AtTime 1704103200000000)
                   (float_of_int 100000000000000048 / 100 / 100)%float
                   (Some 7) (Some 1) (Some "Taco"%string) None
                   (FlagBool true) (Some 5) (Some "card"%string)].
Proof.
  split; [vm_compute; reflexivity|].
  rewrite (clean_data_twice Sample.close_amounts);
    vm_compute; reflexivity.
Defined.

(** C2, counterexample: one valid row of 500 minor units.  Cleaning gives
    the amount 5; cleaning that result gives the amount 5 / 100, a
    different frame. *)
Lemma clean_data_not_idempotent :
  clean_data Sample.one_row
  = Done [mkRow (Some 2) (AtTime 1704103200000000) 5%float (Some 7) (Some 1)
                (Some "Taco"%string) None (FlagBool true) (Some 5)
                (Some "card"%string)]
  /\ clean_data [mkRow (Some 2) (AtTime 1704103200000000) 5%float (Some 7)
                       (Some 1) (Some "Taco"%string) None (FlagBool true)
                       (Some 5) (Some "card"%string)]
     = Done [mkRow (Some 2) (AtTime 1704103200000000) (5 / 100)%float (Some 7)
                   (Some 1) (Some "Taco"%string) None (FlagBool true) (Some 5)
                   (Some "card"%string)]
  /\ (5 / 100 <? 5)%float = true
  /\ clean_data [mkRow (Some 2) (AtTime 1704103200000000) 5%float (Some 7)
                       (Some 1) (Some "Taco"%string) None (FlagBool true)
                       (Some 5) (Some "card"%string)]
     <> Done [mkRow (Some 2) (AtTime 1704103200000000) 5%float (Some 7)
                    (Some 1) (Some "Taco"%string) None (FlagBool true)
                    (Some 5) (Some "card"%string)].
Proof.
  split; [vm_compute; reflexivity|].
  split; [vm_compute; reflexivity|].
  split; [vm_compute; reflexivity|].
  intros H.
  apply (f_equal (fun res => match res with
                             | Done [r] => (total r <? 5)%float
                             | _ => false
                             end)) in H.
  vm_compute in H. discriminate H.
Qed.

(** C7.  The three-row scenario: row 1 has amount 0, rows 2 and 3 are the
    same transaction of 500 minor units (the scenario is [id3 = Some 2]).
    Whatever truck and payment method the rows refer to, cleaning returns
    exactly the first of the two equal rows, with the amount 5 (500 / 100,
    exact in float64) and the event time 2024-01-01 10:00:00; the
    zero-amount row and the later duplicate are dropped. *)
Theorem clean_data_scenario
        (truck pm : Z) (name description method : option string)
        (flag : FlagCell) (rating : option Z) (id3 : option Z) :
  clean_data
    [mkRow (Some 1) (AtText "2024-01-01T10:00:00") 0%float (Some truck)
           (Some pm) name description flag rating method;
     mkRow (Some 2) (AtText "2024-01-01T10:00:00") 500%float (Some truck)
           (Some pm) name description flag rating method;
     mkRow id3 (AtText "2024-01-01T10:00:00") 500%float (Some truck)
           (Some pm) name description flag rating method]
  = Done [mkRow (Some 2) (AtTime 1704103200000000) 5%float (Some truck)
                (Some pm) name description (astype_bool flag) rating method]
  /\ (500 / 100)%float = 5%float
  /\ float_of_int 500 = 500%float
  /\ fromisoformat "2024-01-01T10:00:00" = Some 1704103200000000
  /\ strftime 1704103200000000 = "2024-01-01 10:00:00"%string.
Proof.
  split; [|repeat split; reflexivity].
  cbv -[optZ_same astype_bool].
  rewrite !optZ_same_refl. reflexivity.
Qed.
End TransformFacts.

(* ================================================================== *)
(** * Grouping *)

Section GroupByFacts.
Context {A K : Type}.
Variable K_eq_dec : forall a b : K, {a = b} + {a <> b}.
Variable K_leb : K -> K -> bool.
Variable key : A -> option K.

Lemma has_key_spec (k : K) (r : A) :
  has_key K_eq_dec key k r = true <-> key r = Some k.
Proof.
  unfold has_key. destruct (key r) as [k'|].
  - destruct (K_eq_dec k' k); split; intros H; try congruence.
  - split; discriminate.
Qed.

Lemma present_keys_In (df : list A) (k : K) :
  In k (present_keys key df) <-> exists r, In r df /\ key r = Some k.
Proof.
  induction df as [|x df IH]; simpl.
  - split; [tauto | intros [r [[] _]]].
  - destruct (key x) as [kx|] eqn:E; simpl; rewrite ?IH; split.
    + intros [<-|[r [Hr Hk]]]; eauto.
    + intros [r [[<-|Hr] Hk]]; [left; congruence | right; eauto].
    + intros [r [Hr Hk]]; eauto.
    + intros [r [[<-|Hr] Hk]]; [congruence | eauto].
Qed.

Lemma group_keys_In (df : list A) (k : K) :
  In k (group_keys K_eq_dec K_leb key df) <-> exists r, In r df /\ key r = Some k.
Proof.
  unfold group_keys. rewrite sort_by_In, nodup_In. apply present_keys_In.
Qed.

Lemma group_keys_NoDup (df : list A) : NoDup (group_keys K_eq_dec K_leb key df).
Proof.
  unfold group_keys.
  apply (Permutation_NoDup (l := nodup K_eq_dec (present_keys key df))).
  - apply Permutation_sym, sort_by_perm.
  - apply NoDup_nodup.
Qed.

Lemma groupby_keys (df : list A) :
  map fst (groupby K_eq_dec K_leb key df) = group_keys K_eq_dec K_leb key df.
Proof.
  unfold groupby. rewrite map_map. simpl. apply map_id.
Qed.

Lemma groupby_In (df : list A) (k : K) (g : list A) :
  In (k, g) (groupby K_eq_dec K_leb key df) <->
  g = filter (has_key K_eq_dec key k) df /\ exists r, In r df /\ key r = Some k.
Proof.
  unfold groupby. rewrite in_map_iff. split.
  - intros [k' [E Hin]]. inversion E; subst.
    split; [reflexivity | apply group_keys_In; exact Hin].
  - intros [-> Hex]. exists k. split; [reflexivity | apply group_keys_In; exact Hex].
Qed.

Lemma filter_disjoint_app (p q : A -> bool) (df : list A) :
  (forall r, In r df -> p r = true -> q r = true -> False) ->
  Permutation (filter p df ++ filter q df) (filter (fun r => p r || q r) df).
Proof.
  induction df as [|x df IH]; simpl; intros Hd; [constructor|].
  assert (IH' := IH (fun r Hr => Hd r (or_intror Hr))).
  destruct (p x) eqn:Ep, (q x) eqn:Eq; simpl.
  - exfalso. apply (Hd x); auto.
  - apply perm_skip. exact IH'.
  - eapply perm_trans; [apply Permutation_sym, Permutation_middle|].
    apply perm_skip. exact IH'.
  - exact IH'.
Qed.

Lemma groups_concat (ks : list K) (df : list A) :
  NoDup ks ->
  Permutation
    (List.concat (map (fun k => filter (has_key K_eq_dec key k) df) ks))
    (filter (fun r => existsb (fun k => has_key K_eq_dec key k r) ks) df).
Proof.
  induction ks as [|k ks IH]; simpl; intros Hnd.
  - rewrite filter_false. constructor.
  - inversion Hnd as [|? ? Hnotin Hnd']; subst.
    eapply perm_trans; [apply Permutation_app_head, IH, Hnd'|].
    apply filter_disjoint_app. intros r _ Hk Hex.
    apply existsb_exists in Hex. destruct Hex as [k' [Hin Hk']].
    apply has_key_spec in Hk. apply has_key_spec in Hk'.
    apply Hnotin. congruence.
Qed.

(** The groups of a frame in which every row has a key hold the rows of
    the frame, each one once. *)
Lemma groupby_complete (df : list A) :
  (forall r, In r df -> exists k, key r = Some k) ->
  Permutation (List.concat (map snd (groupby K_eq_dec K_leb key df))) df.
Proof.
  intros Hkeys. unfold groupby. rewrite map_map. simpl.
  eapply perm_trans; [apply groups_concat, group_keys_NoDup|].
  rewrite filter_all; [apply Permutation_refl|].
  intros r Hr. destruct (Hkeys r Hr) as [k Hk].
  apply existsb_exists. exists k. split.
  - apply group_keys_In. eauto.
  - apply has_key_spec. exact Hk.
Qed.

(** The groups of a frame hold the rows that have a key, each one once;
    a row without a key is in no group. *)
Lemma groupby_covers (df : list A) :
  Permutation (List.concat (map snd (groupby K_eq_dec K_leb key df)))
              (filter (fun r => Frame.notna (key r)) df).
Proof.
  unfold groupby. rewrite map_map. simpl.
  eapply perm_trans; [apply groups_concat, group_keys_NoDup|].
  erewrite filter_ext_in; [apply Permutation_refl|].
  intros r Hr. simpl. destruct (key r) as [k|] eqn:Hk; simpl.
  - apply existsb_exists. exists k. split.
    + apply group_keys_In. eauto.
    + apply has_key_spec. exact Hk.
  - apply not_true_is_false. intros E. apply existsb_exists in E.
    destruct E as [k [_ E]]. apply has_key_spec in E. congruence.
Qed.
End GroupByFacts.

(* ================================================================== *)
(** * Partitioning *)

Section PartitionFacts.
Import Time Frame Store Transform Partition.

Lemma dated_group_rows (k : PartKey) (df : list Row) :
  drop_date_columns
    (filter (has_key PartKey_eq_dec snd k)
            (map (fun r => (r, date_parts (at_ r))) df))
  = filter (in_partition k) df.
Proof.
  unfold drop_date_columns, in_partition.
  induction df as [|r df IH]; simpl; [reflexivity|].
  change (has_key PartKey_eq_dec snd k (r, date_parts (at_ r)))
    with (has_key PartKey_eq_dec (fun r => date_parts (at_ r)) k r).
  destruct (has_key PartKey_eq_dec (fun r => date_parts (at_ r)) k r);
    simpl; rewrite IH; reflexivity.
Qed.

Lemma add_date_columns_datetime (df : list Row) :
  (forall r, In r df -> exists t, at_ r = AtTime t) ->
  add_date_columns df = Done (map (fun r => (r, date_parts (at_ r))) df).
Proof.
  intros H. unfold add_date_columns.
  replace (existsb (fun r => is_text (at_ r)) df) with false; [reflexivity|].
  symmetry. apply not_true_is_false. intros E.
  apply existsb_exists in E. destruct E as [r [Hr Ht]].
  destruct (H r Hr) as [t Hat]. rewrite Hat in Ht. discriminate.
Qed.

(** What [partitions] computes on a frame whose [at] column is datetime
    with no NaT. *)
Lemma partitions_datetime (df : list Row) :
  (forall r, In r df -> exists t, at_ r = AtTime t) ->
  exists groups,
    partitions df = Done groups
    /\ Permutation (List.concat (map snd groups)) df
    /\ NoDup (map fst groups)
    /\ (forall k g, In (k, g) groups <->
          g = filter (in_partition k) df
          /\ exists r, In r df /\ date_parts (at_ r) = Some k).
Proof.
  intros Hdt. unfold partitions. rewrite (add_date_columns_datetime df Hdt).
  set (dated := map (fun r => (r, date_parts (at_ r))) df).
  set (gs := groupby PartKey_eq_dec PartKey_leb snd dated).
  exists (map (fun g => (fst g, drop_date_columns (snd g))) gs).
  split; [reflexivity|]. split; [|split].
  - rewrite map_map. simpl.
    rewrite <- (map_map snd drop_date_columns).
    unfold drop_date_columns. rewrite <- concat_map.
    replace df with (map fst dated) at 1
      by (unfold dated; rewrite map_map; apply map_id).
    apply Permutation_map. apply groupby_complete.
    intros [r k] Hin. unfold dated in Hin. apply in_map_iff in Hin.
    destruct Hin as [r' [E Hr']]. inversion E; subst.
    destruct (Hdt r Hr') as [t Ht]. rewrite Ht. simpl. eauto.
  - rewrite map_map. simpl. rewrite (map_ext _ fst) by reflexivity.
    match goal with
    | |- NoDup ?l =>
        assert (E : l = group_keys PartKey_eq_dec PartKey_leb snd dated)
          by apply groupby_keys;
        rewrite E
    end.
    apply group_keys_NoDup.
  - intros k g. rewrite in_map_iff. split.
    + intros [[k' g'] [E Hin]]. simpl in E. inversion E; subst. clear E.
      apply groupby_In in Hin. destruct Hin as [-> [[r kr] [Hr Hk]]].
      split; [apply dated_group_rows|].
      unfold dated in Hr. apply in_map_iff in Hr.
      destruct Hr as [r' [E Hr']]. inversion E; subst. simpl in Hk. eauto.
    + intros [-> [r [Hr Hk]]].
      exists (k, filter (has_key PartKey_eq_dec snd k) dated). split.
      * simpl. f_equal. apply dated_group_rows.
      * apply groupby_In. split; [reflexivity|].
        exists (r, date_parts (at_ r)). split; [|exact Hk].
        unfold dated.
        apply (in_map (fun r => (r, date_parts (at_ r)))). exact Hr.
Qed.

Lemma save_partitions_unfold (k : PartKey) (g : list Row)
      (groups : list (PartKey * list Row)) (w : World) :
  save_partitions ((k, g) :: groups) w
  = let w' := set_parquet_partition k g (fst (perform (WritePartition k) w)) in
    match save_partitions groups w' with
    | (w'', Done n) => (w'', Done (S n))
    | (w'', Raised e) => (w'', Raised e)
    end.
Proof. reflexivity. Qed.

Lemma save_partitions_count (groups : list (PartKey * list Row)) (w : World) :
  snd (save_partitions groups w) = Done (List.length groups).
Proof.
  revert w. induction groups as [|[k g] groups IH]; intros w; [reflexivity|].
  rewrite save_partitions_unfold. cbv zeta.
  specialize (IH (set_parquet_partition k g (fst (perform (WritePartition k) w)))).
  destruct (save_partitions groups _) as [w'' [n|e]]; simpl in *; congruence.
Qed.

Lemma save_partitions_keeps (groups : list (PartKey * list Row)) (w : World)
      (k : PartKey) (g : list Row) :
  In (k, g) (parquet_partitions w) -> ~ In k (map fst groups) ->
  In (k, g) (parquet_partitions (fst (save_partitions groups w))).
Proof.
  revert w. induction groups as [|[k' g'] groups IH]; intros w Hin Hk;
    [exact Hin|].
  rewrite save_partitions_unfold. cbv zeta.
  set (w' := set_parquet_partition k' g' (fst (perform (WritePartition k') w))).
  assert (Hin' : In (k, g) (parquet_partitions w')).
  { unfold w'. simpl. right. apply filter_In. split; [exact Hin|]. simpl.
    destruct (PartKey_eq_dec k k') as [->|]; [|reflexivity].
    exfalso. apply Hk. left. reflexivity. }
  specialize (IH w' Hin' (fun H => Hk (or_intror H))).
  destruct (save_partitions groups w') as [w'' [n|e]]; exact IH.
Qed.

Lemma save_partitions_files (groups : list (PartKey * list Row)) (w : World)
      (k : PartKey) (g : list Row) :
  NoDup (map fst groups) -> In (k, g) groups ->
  In (k, g) (parquet_partitions (fst (save_partitions groups w))).
Proof.
  revert w. induction groups as [|[k' g'] groups IH]; intros w Hnd Hin;
    [destruct Hin|].
  inversion Hnd as [|? ? Hnotin Hnd']; subst.
  rewrite save_partitions_unfold. cbv zeta.
  set (w' := set_parquet_partition k' g' (fst (perform (WritePartition k') w))).
  destruct Hin as [E|Hin].
  - inversion E; subst.
    assert (H := save_partitions_keeps groups w' k g (or_introl eq_refl) Hnotin).
    destruct (save_partitions groups w') as [w'' [n|e]]; exact H.
  - specialize (IH w' Hnd' Hin).
    destruct (save_partitions groups w') as [w'' [n|e]]; exact IH.
Qed.

(** C4.  For a cleaned frame, [partition_transactions] finds groups such
    that: it returns their number and leaves each group's frame in the
    file of its date; the groups' rows together, without the date columns,
    are the rows of the cleaned frame, none lost and none twice; no date
    has two groups; and a group's frame is exactly the rows of that date,
    in the order of the cleaned frame (there is a group for every date
    that occurs). *)
Theorem partition_transactions_complete (raw cleaned : list Row) (w : World) :
  clean_data raw = Done cleaned ->
  exists groups,
    partitions cleaned = Done groups
    /\ snd (partition_transactions cleaned w) = Done (List.length groups)
    /\ (forall k g, In (k, g) groups ->
          In (k, g) (parquet_partitions (fst (partition_transactions cleaned w))))
    /\ Permutation (List.concat (map snd groups)) cleaned
    /\ NoDup (map fst groups)
    /\ (forall k g, In (k, g) groups <->
          g = filter (in_partition k) cleaned
          /\ exists r, In r cleaned /\ date_parts (at_ r) = Some k).
Proof.
  intros Hclean.
  destruct (partitions_datetime cleaned) as [groups (Hp & Hperm & Hnd & Hgroups)].
  { intros r Hr. destruct (clean_data_rows raw cleaned r Hclean Hr) as (_ & Hat & _).
    exact Hat. }
  exists groups.
  split; [exact Hp|]. split; [|split; [|split; [exact Hperm|split; [exact Hnd|exact Hgroups]]]].
  - unfold partition_transactions, bind, lift. rewrite Hp.
    apply save_partitions_count.
  - intros k g Hin. unfold partition_transactions, bind, lift. rewrite Hp.
    apply save_partitions_files; assumption.
Qed.

End PartitionFacts.

(* ================================================================== *)
(** * The stages after extraction leave the state file alone *)

Section QuietFacts.
Import Store Pipeline.

Lemma quiet_step_refl (w : World) : quiet_step w w.
Proof.
  split; [reflexivity|]. exists []. rewrite app_nil_r. split; reflexivity.
Qed.

Lemma count_puts_app (es es' : list Effect) :
  count_puts (es ++ es') = (count_puts es + count_puts es')%nat.
Proof. unfold count_puts. rewrite filter_app, length_app. reflexivity. Qed.

Lemma quiet_step_trans (w1 w2 w3 : World) :
  quiet_step w1 w2 -> quiet_step w2 w3 -> quiet_step w1 w3.
Proof.
  intros [H1 [es1 [E1 C1]]] [H2 [es2 [E2 C2]]]. split; [congruence|].
  exists (es1 ++ es2). split.
  - rewrite E2, E1, app_assoc. reflexivity.
  - rewrite count_puts_app, C1, C2. reflexivity.
Qed.

Lemma quiet_ret {A : Type} (a : A) : quiet (ret a).
Proof. intros w. apply quiet_step_refl. Qed.

Lemma quiet_raise {A : Type} (e : Exn) : quiet (@raise A e).
Proof. intros w. apply quiet_step_refl. Qed.

Lemma quiet_lift {A : Type} (r : result A) : quiet (lift r).
Proof. intros w. apply quiet_step_refl. Qed.

Lemma quiet_gets {A : Type} (f : World -> A) : quiet (gets f).
Proof. intros w. apply quiet_step_refl. Qed.

Lemma quiet_perform (e : Effect) : is_put e = false -> quiet (perform e).
Proof.
  intros He w. split; [reflexivity|]. exists [e]. split; [reflexivity|].
  unfold count_puts. simpl. rewrite He. reflexivity.
Qed.

Lemma quiet_modify (f : World -> World) :
  (forall w, s3_last_run (f w) = s3_last_run w /\ effects (f w) = effects w) ->
  quiet (modify f).
Proof.
  intros Hf w. destruct (Hf w) as [H1 H2]. split; [exact H1|].
  exists []. simpl. rewrite app_nil_r. split; [exact H2 | reflexivity].
Qed.

Lemma quiet_bind {A B : Type} (m : M A) (k : A -> M B) :
  quiet m -> (forall a, quiet (k a)) -> quiet (bind m k).
Proof.
  intros Hm Hk w. unfold bind. specialize (Hm w).
  destruct (m w) as [w' [a|e]]; simpl in *.
  - eapply quiet_step_trans; [exact Hm | apply Hk].
  - exact Hm.
Qed.

End QuietFacts.

Ltac quiet_stmt :=
  repeat first
    [ apply quiet_bind; [|intros ?]
    | apply quiet_ret | apply quiet_raise | apply quiet_lift | apply quiet_gets
    | apply quiet_perform; reflexivity
    | apply quiet_modify; intros ?; split; reflexivity
    | match goal with
      | |- Pipeline.quiet (match ?x with _ => _ end) => destruct x
      end ].

Section StageFacts.
Import Store Pipeline.

Lemma quiet_main_transform : quiet Transform.main_transform.
Proof.
  unfold Transform.main_transform, Transform.load_data,
    Transform.save_cleaned_data.
  quiet_stmt.
Qed.

Lemma quiet_save_partitions (groups : list (PartKey * list Frame.Row)) :
  quiet (Partition.save_partitions groups).
Proof.
  induction groups as [|[k g] groups IH]; simpl; quiet_stmt. exact IH.
Qed.

Lemma quiet_main_partition_transactions :
  quiet Partition.main_partition_transactions.
Proof.
  unfold Partition.main_partition_transactions, Partition.load_cleaned_data,
    Partition.save_dimensions, Partition.partition_transactions.
  quiet_stmt. apply quiet_save_partitions.
Qed.

Lemma quiet_s3_to_parquet (faults : Faults)
      (groups : list (PartKey * list Frame.Row)) :
  quiet (Load.s3_to_parquet faults groups).
Proof.
  induction groups as [|[k g] groups IH]; simpl; quiet_stmt. exact IH.
Qed.

Lemma quiet_upload_transaction_data (faults : Faults) (upload_dimensions : bool) :
  quiet (Load.upload_transaction_data faults upload_dimensions).
Proof.
  unfold Load.upload_transaction_data, Load.upload_partitioned_transactions,
    Load.verify_upload.
  quiet_stmt. apply quiet_s3_to_parquet.
Qed.

(** From the end of the extraction stage to the end of the run nothing
    touches the state file, whether the later stages return or raise. *)
Lemma main_after_extract (db : Extract.Database) (faults : Faults) (w : World) :
  quiet_step (fst (Extract.main_extract db faults w)) (fst (main db faults w)).
Proof.
  unfold main, bind.
  destruct (Extract.main_extract db faults w) as [w1 [n|e]]; simpl;
    [|apply quiet_step_refl].
  destruct (Nat.eqb n 0); [apply quiet_step_refl|].
  assert (H : quiet (bind Transform.main_transform (fun _ =>
                     bind Partition.main_partition_transactions (fun _ =>
                       Load.upload_transaction_data faults false)))).
  { apply quiet_bind; [apply quiet_main_transform | intros _].
    apply quiet_bind; [apply quiet_main_partition_transactions | intros _].
    apply quiet_upload_transaction_data. }
  apply H.
Qed.

End StageFacts.

(* ================================================================== *)
(** * The extraction stage and the watermark *)

Section WatermarkFacts.
Import Time Store Extract Pipeline.

Lemma error_code_not_NoSuchKey (err : S3Error) :
  String.eqb (error_code err) "NoSuchKey" = false.
Proof. destruct err; reflexivity. Qed.

Lemma get_last_processed_timestamp_ok (faults : Faults) (w : World) :
  get_state_error faults = None ->
  get_last_processed_timestamp faults w
  = (fst (perform S3GetState w), lower_bound w).
Proof.
  intros Hf.
  unfold get_last_processed_timestamp, s3_get_state, bind, perform,
    modify, gets, ret, raise, lower_bound.
  rewrite Hf. simpl. destruct (s3_last_run w) as [W|]; [|reflexivity].
  destruct (add_seconds W 1); reflexivity.
Qed.

Lemma get_last_processed_timestamp_error (faults : Faults) (w : World)
      (err : S3Error) :
  get_state_error faults = Some err ->
  get_last_processed_timestamp faults w
  = (fst (perform S3GetState w), Raised (ClientError (error_code err))).
Proof.
  intros Hf.
  unfold get_last_processed_timestamp, s3_get_state, bind, perform,
    modify, raise.
  rewrite Hf. simpl. rewrite error_code_not_NoSuchKey. reflexivity.
Qed.

Lemma floor_second_bounds (t : Timestamp) :
  t - SECOND < floor_second t <= t.
Proof.
  unfold floor_second, SECOND.
  pose proof (Z.div_mod t 1000000 ltac:(lia)).
  pose proof (Z.mod_pos_bound t 1000000 ltac:(lia)). lia.
Qed.

Lemma floor_second_whole (t : Timestamp) :
  t mod SECOND = 0 -> floor_second t = t.
Proof.
  unfold floor_second, SECOND. intros H.
  pose proof (Z.div_mod t 1000000 ltac:(lia)). lia.
Qed.

Lemma strftime_floor_second (t : Timestamp) :
  strftime (floor_second t) = strftime t.
Proof.
  assert (E1 : floor_second t / SECOND = t / SECOND)
    by (unfold floor_second, SECOND; apply Z.div_mul; lia).
  assert (E2 : floor_second t / DAY = t / DAY).
  { unfold DAY, SECONDS_PER_DAY. rewrite (Z.mul_comm 86400 SECOND).
    rewrite <- !Z.div_div by (unfold SECOND; lia). rewrite E1. reflexivity. }
  unfold strftime, year, month, day. rewrite E1, E2. reflexivity.
Qed.

Lemma add_seconds_Some (t n t' : Timestamp) :
  add_seconds t n = Some t' ->
  t' = t + n * SECOND /\ datetime_min <= t' <= datetime_max.
Proof.
  unfold add_seconds. cbv zeta.
  destruct (_ && _) eqn:E; [|discriminate].
  intros H. inversion H; subst. apply andb_true_iff in E. lia.
Qed.

Lemma add_seconds_None (t n : Timestamp) :
  add_seconds t n = None ->
  t + n * SECOND < datetime_min \/ datetime_max < t + n * SECOND.
Proof.
  unfold add_seconds. cbv zeta.
  destruct (_ && _) eqn:E; [discriminate|].
  intros _. apply andb_false_iff in E. lia.
Qed.

(** After a watermark [W] the query has a lower bound, later than [W] and
    at most one second later. *)
Lemma lower_bound_after (w : World) (W : Timestamp)
      (since : option Timestamp) :
  s3_last_run w = Some W -> lower_bound w = Done since ->
  exists b, since = Some b /\ W < b <= W + SECOND.
Proof.
  unfold lower_bound. intros -> H.
  destruct (add_seconds W 1) as [t|] eqn:E; [|discriminate].
  inversion H; subst. apply add_seconds_Some in E. destruct E as [-> _].
  exists (floor_second (W + 1 * SECOND)). split; [reflexivity|].
  pose proof (floor_second_bounds (W + 1 * SECOND)). lia.
Qed.

Lemma fold_max_ge (l : list Z) (a : Z) : a <= fold_left Z.max l a.
Proof.
  revert a. induction l as [|x l IH]; simpl; intros a; [lia|].
  specialize (IH (Z.max a x)). lia.
Qed.

Lemma fold_max_upper (l : list Z) (a x : Z) :
  In x l -> x <= fold_left Z.max l a.
Proof.
  revert a. induction l as [|y l IH]; simpl; intros a Hin; [destruct Hin|].
  destruct Hin as [->|Hin]; [|apply IH; exact Hin].
  pose proof (fold_max_ge l (Z.max a x)). lia.
Qed.

Lemma at_max_upper (first : Transaction) (rest : list Transaction)
      (r : Transaction) :
  In r (first :: rest) -> at_ r <= at_max first rest.
Proof.
  unfold at_max. intros [<-|Hin]; [apply fold_max_ge|].
  apply fold_max_upper. apply in_map. exact Hin.
Qed.

(** The five ways the extraction stage can end. *)
Lemma main_extract_get_error (db : Database) (faults : Faults) (w : World)
      (err : S3Error) :
  get_state_error faults = Some err ->
  main_extract db faults w
  = (fst (perform S3GetState w), Raised (ClientError (error_code err))).
Proof.
  intros Hf. unfold main_extract, bind at 1.
  rewrite (get_last_processed_timestamp_error faults w err Hf). reflexivity.
Qed.

Lemma main_extract_overflow (db : Database) (faults : Faults) (w : World)
      (e : Exn) :
  get_state_error faults = None ->
  lower_bound w = Raised e ->
  main_extract db faults w = (fst (perform S3GetState w), Raised e).
Proof.
  intros Hf Hlb. unfold main_extract, bind at 1.
  rewrite (get_last_processed_timestamp_ok faults w Hf), Hlb. reflexivity.
Qed.

Lemma main_extract_nothing (db : Database) (faults : Faults) (w : World)
      (since : option Timestamp) :
  get_state_error faults = None ->
  lower_bound w = Done since ->
  extract_data db since = [] ->
  main_extract db faults w
  = (mkWorld (s3_last_run w) (s3_transactions w) (csv_transactions w)
             (csv_cleaned w) (parquet_dimensions w) (parquet_partitions w)
             (effects w ++ [S3GetState; ReadSql since]),
     Done 0%nat).
Proof.
  intros Hf Hlb He. unfold main_extract, bind at 1.
  rewrite (get_last_processed_timestamp_ok faults w Hf), Hlb.
  unfold bind, perform, modify, ret. simpl. rewrite He. simpl.
  rewrite <- app_assoc. reflexivity.
Qed.

Lemma main_extract_put_error (db : Database) (faults : Faults) (w : World)
      (since : option Timestamp)
      (first : Transaction) (rest : list Transaction) (err : S3Error) :
  get_state_error faults = None ->
  lower_bound w = Done since ->
  extract_data db since = first :: rest ->
  put_state_error faults = Some err ->
  main_extract db faults w
  = (mkWorld (s3_last_run w) (s3_transactions w)
             (Some (to_csv (map to_frame (first :: rest))))
             (csv_cleaned w) (parquet_dimensions w) (parquet_partitions w)
             (effects w ++ [S3GetState; ReadSql since;
                            WriteTransactionsCsv;
                            S3PutState (at_max first rest)]),
     Raised (ClientError (error_code err))).
Proof.
  intros Hf Hlb He Hp. unfold main_extract, bind at 1.
  rewrite (get_last_processed_timestamp_ok faults w Hf), Hlb.
  unfold bind at 1. simpl. rewrite He.
  unfold save_data, save_last_processed_timestamp, bind, perform, modify,
    raise. rewrite Hp. simpl.
  rewrite <- !app_assoc. reflexivity.
Qed.

Lemma main_extract_advances (db : Database) (faults : Faults) (w : World)
      (since : option Timestamp)
      (first : Transaction) (rest : list Transaction) :
  get_state_error faults = None ->
  lower_bound w = Done since ->
  extract_data db since = first :: rest ->
  put_state_error faults = None ->
  main_extract db faults w
  = (mkWorld (Some (at_max first rest)) (s3_transactions w)
             (Some (to_csv (map to_frame (first :: rest))))
             (csv_cleaned w) (parquet_dimensions w) (parquet_partitions w)
             (effects w ++ [S3GetState; ReadSql since;
                            WriteTransactionsCsv;
                            S3PutState (at_max first rest)]),
     Done (S (List.length rest))).
Proof.
  intros Hf Hlb He Hp. unfold main_extract, bind at 1.
  rewrite (get_last_processed_timestamp_ok faults w Hf), Hlb.
  unfold bind at 1. simpl. rewrite He.
  unfold save_data, save_last_processed_timestamp, bind, perform, modify,
    ret. rewrite Hp. simpl.
  rewrite <- !app_assoc. reflexivity.
Qed.

End WatermarkFacts.

Section RunFacts.
Import Time Store Extract Pipeline.

Lemma watermark_le_refl (a : option Timestamp) : watermark_le a a.
Proof. destruct a; simpl; [lia | exact I]. Qed.

Lemma watermark_le_trans (a b c : option Timestamp) :
  watermark_le a b -> watermark_le b c -> watermark_le a c.
Proof. destruct a, b, c; simpl; try tauto; lia. Qed.

(** What one run does to the watermark: nothing, or it stores the latest
    event time of a non-empty batch all of whose rows are later than the
    watermark the run started from. *)
Lemma main_extract_watermark (db : Database) (faults : Faults) (w : World) :
  s3_last_run (fst (main_extract db faults w)) = s3_last_run w
  \/ exists first rest since,
       lower_bound w = Done since
       /\ extract_data db since = first :: rest
       /\ s3_last_run (fst (main_extract db faults w)) = Some (at_max first rest)
       /\ Forall (fun r => at_ r <= at_max first rest
                           /\ forall W, s3_last_run w = Some W -> W < at_ r)
                 (first :: rest).
Proof.
  destruct (get_state_error faults) as [err|] eqn:Hf.
  { left. rewrite (main_extract_get_error db faults w err Hf). reflexivity. }
  destruct (lower_bound w) as [since|e] eqn:Hlb.
  2:{ left. rewrite (main_extract_overflow db faults w e Hf Hlb). reflexivity. }
  destruct (extract_data db since) as [|first rest] eqn:He.
  { left. rewrite (main_extract_nothing db faults w since Hf Hlb He).
    reflexivity. }
  destruct (put_state_error faults) as [err|] eqn:Hp.
  { left.
    rewrite (main_extract_put_error db faults w since first rest err Hf Hlb He Hp).
    reflexivity. }
  right. exists first, rest, since. split; [reflexivity|].
  split; [exact He|]. split.
  { rewrite (main_extract_advances db faults w since first rest Hf Hlb He Hp).
    reflexivity. }
  apply Forall_forall. intros r Hr. split; [apply at_max_upper; exact Hr|].
  intros W HW. rewrite <- He in Hr.
  destruct (lower_bound_after w W since HW Hlb) as [b [-> Hb]].
  apply extract_data_newer in Hr. lia.
Qed.

Lemma main_watermark (db : Database) (faults : Faults) (w : World) :
  s3_last_run (fst (main db faults w))
  = s3_last_run (fst (main_extract db faults w)).
Proof. apply (main_after_extract db faults w). Qed.

Lemma main_watermark_le (db : Database) (faults : Faults) (w : World) :
  watermark_le (s3_last_run w) (s3_last_run (fst (main db faults w))).
Proof.
  rewrite main_watermark.
  destruct (main_extract_watermark db faults w)
    as [->|(first & rest & since & _ & _ & -> & Hall)].
  - apply watermark_le_refl.
  - destruct (s3_last_run w) as [W|] eqn:HW; simpl; [|exact I].
    inversion Hall as [|? ? [Hle Hlt] _]; subst.
    specialize (Hlt W eq_refl). lia.
Qed.

Lemma runs_watermark_le (schedule : list (Database * Faults)) (w : World) :
  watermark_le (s3_last_run w) (s3_last_run (runs schedule w)).
Proof.
  revert w. induction schedule as [|[db faults] schedule IH]; intros w; simpl.
  - apply watermark_le_refl.
  - eapply watermark_le_trans; [apply main_watermark_le | apply IH].
Qed.

(** An overflowing lower bound ends the whole run after the read of the
    state file. *)
Lemma main_overflow (db : Database) (faults : Faults) (w : World) (e : Exn) :
  get_state_error faults = None ->
  lower_bound w = Raised e ->
  main db faults w
  = (mkWorld (s3_last_run w) (s3_transactions w) (csv_transactions w)
             (csv_cleaned w) (parquet_dimensions w) (parquet_partitions w)
             (effects w ++ [S3GetState]),
     Raised e).
Proof.
  intros Hf Hlb. unfold main, bind.
  rewrite (main_extract_overflow db faults w e Hf Hlb). reflexivity.
Qed.

Lemma main_extract_queries (db : Database) (faults : Faults) (w : World)
      (since : option Timestamp) :
  get_state_error faults = None ->
  lower_bound w = Done since ->
  In (ReadSql since) (effects (fst (main_extract db faults w))).
Proof.
  intros Hf Hlb.
  destruct (extract_data db since) as [|first rest] eqn:He.
  - rewrite (main_extract_nothing db faults w since Hf Hlb He). simpl.
    rewrite in_app_iff. simpl. tauto.
  - destruct (put_state_error faults) as [err|] eqn:Hp.
    + rewrite (main_extract_put_error db faults w since first rest err Hf Hlb He Hp).
      simpl. rewrite in_app_iff. simpl. tauto.
    + rewrite (main_extract_advances db faults w since first rest Hf Hlb He Hp).
      simpl. rewrite in_app_iff. simpl. tauto.
Qed.

(** C5 (as the code has it).  With the watermark [W] in the state file
    and the store answering, one of two things happens.

    When [W] plus one second is a datetime [t]: the lower bound of the
    run's query is [t] without its microseconds, the datetime of the text
    [strftime] makes of [t]; it is what [get_last_processed_timestamp]
    returns and what [main_extract] queries with.  The bound is later
    than [W] and not later than [t], and it is [W] plus one second
    exactly when [W] has no microseconds.  The rows of the query are all
    later than the bound, so a row whose event time is [W] is not among
    them.

    When [W] plus one second is past the last datetime, the addition
    raises [OverflowError]: the run ends there, having read the state
    file and nothing else, and the watermark stays.

    In both cases a row whose event time is [W] is not among the rows of
    the query of any later run either, whatever runs came in between. *)
Theorem lower_bound_of_watermark
        (db : Database) (faults : Faults) (w : World) (W : Timestamp) :
  s3_last_run w = Some W -> get_state_error faults = None ->
  match add_seconds W 1 with
  | Some t =>
      t = W + SECOND
      /\ snd (get_last_processed_timestamp faults w)
         = Done (Some (floor_second t))
      /\ In (ReadSql (Some (floor_second t)))
            (effects (fst (main_extract db faults w)))
      /\ strftime (floor_second t) = strftime t
      /\ W < floor_second t <= t
      /\ (W mod SECOND = 0 -> floor_second t = W + SECOND)
      /\ Forall (fun r => at_ r <> W /\ floor_second t < at_ r)
                (extract_data db (Some (floor_second t)))
  | None =>
      (W + SECOND < datetime_min \/ datetime_max < W + SECOND)
      /\ snd (get_last_processed_timestamp faults w)
         = Raised (OverflowError "date value out of range")
      /\ snd (main db faults w)
         = Raised (OverflowError "date value out of range")
      /\ effects (fst (main db faults w)) = effects w ++ [S3GetState]
      /\ s3_last_run (fst (main db faults w)) = Some W
  end
  /\ (forall schedule db' since,
        lower_bound (runs schedule w) = Done since ->
        Forall (fun r => at_ r <> W /\ W < at_ r) (extract_data db' since)).
Proof.
  intros Hw Hf. split.
  - destruct (add_seconds W 1) as [t|] eqn:Ea.
    + assert (Hlb : lower_bound w = Done (Some (floor_second t)))
        by (unfold lower_bound; rewrite Hw, Ea; reflexivity).
      destruct (add_seconds_Some W 1 t Ea) as [Et _].
      assert (Et' : t = W + SECOND) by lia.
      pose proof (floor_second_bounds t) as Hb.
      split; [exact Et'|]. split.
      { rewrite (get_last_processed_timestamp_ok faults w Hf), Hlb.
        reflexivity. }
      split; [apply main_extract_queries; assumption|].
      split; [apply strftime_floor_second|].
      split; [lia|]. split.
      { intros Hmod. rewrite <- Et'. apply floor_second_whole.
        rewrite Et'. unfold SECOND in *.
        rewrite <- Z.add_mod_idemp_l, Hmod by lia. reflexivity. }
      apply Forall_forall. intros r Hin. apply extract_data_newer in Hin. lia.
    + assert (Hlb : lower_bound w
                    = Raised (OverflowError "date value out of range"))
        by (unfold lower_bound; rewrite Hw, Ea; reflexivity).
      split; [apply add_seconds_None in Ea; lia|]. split.
      { rewrite (get_last_processed_timestamp_ok faults w Hf), Hlb.
        reflexivity. }
      rewrite (main_overflow db faults w _ Hf Hlb). simpl. auto.
  - intros schedule db' since Hlb.
    pose proof (runs_watermark_le schedule w) as Hle.
    rewrite Hw in Hle.
    destruct (s3_last_run (runs schedule w)) as [W'|] eqn:HW';
      simpl in Hle; [|contradiction].
    destruct (lower_bound_after _ W' since HW' Hlb) as [b [-> Hb]].
    apply Forall_forall. intros r Hin. apply extract_data_newer in Hin. lia.
Qed.

(** C6.  Over any sequence of runs, each against its own state of the
    database and of the object store, the watermarks in the state file
    form a non-decreasing sequence (no watermark yet counting as the
    least), so the last is at least the first; and a run either leaves
    the watermark as it was or stores the latest event time of its batch,
    every row of which is later than the watermark the run found. *)
Theorem watermark_monotone (schedule : list (Database * Faults)) (w : World) :
  StronglySorted watermark_le (s3_last_run w :: watermarks schedule w)
  /\ watermark_le (s3_last_run w) (s3_last_run (runs schedule w))
  /\ (forall db faults,
        s3_last_run (fst (main db faults w)) = s3_last_run w
        \/ exists first rest since,
             lower_bound w = Done since
             /\ extract_data db since = first :: rest
             /\ s3_last_run (fst (main db faults w)) = Some (at_max first rest)
             /\ Forall (fun r => at_ r <= at_max first rest
                                 /\ forall W, s3_last_run w = Some W -> W < at_ r)
                       (first :: rest)).
Proof.
  split; [|split].
  - apply Sorted_StronglySorted.
    + intros a b c. apply watermark_le_trans.
    + revert w. induction schedule as [|[db faults] schedule IH]; intros w; simpl.
      * repeat constructor.
      * constructor; [apply IH|]. constructor. apply main_watermark_le.
  - apply runs_watermark_le.
  - intros db faults. rewrite main_watermark. apply main_extract_watermark.
Qed.

Lemma main_extract_effects (db : Database) (faults : Faults) (w : World) :
  exists es, effects (fst (main_extract db faults w)) = effects w ++ es
             /\ (count_puts es <= 1)%nat.
Proof.
  destruct (get_state_error faults) as [err|] eqn:Hf.
  { rewrite (main_extract_get_error db faults w err Hf).
    exists [S3GetState]. split; [reflexivity | unfold count_puts; simpl; lia]. }
  destruct (lower_bound w) as [since|e] eqn:Hlb.
  2:{ rewrite (main_extract_overflow db faults w e Hf Hlb).
      exists [S3GetState]. split; [reflexivity | unfold count_puts; simpl; lia]. }
  destruct (extract_data db since) as [|first rest] eqn:He.
  { rewrite (main_extract_nothing db faults w since Hf Hlb He). eexists.
    split; [reflexivity | unfold count_puts; simpl; lia]. }
  destruct (put_state_error faults) as [err|] eqn:Hp.
  { rewrite (main_extract_put_error db faults w since first rest err Hf Hlb He Hp).
    eexists. split; [reflexivity | unfold count_puts; simpl; lia]. }
  rewrite (main_extract_advances db faults w since first rest Hf Hlb He Hp).
  eexists. split; [reflexivity | unfold count_puts; simpl; lia].
Qed.

(** C1 (as the code has it).  From the end of the extraction stage to the
    end of the run the state file is left alone: the watermark is the one
    the extraction stage left and no put is made, whether cleaning,
    partitioning and publishing return or raise.  A run puts the state
    file at most once; and when the store answers and the query returns
    at least one row, the watermark at the end of the run is the latest
    event time of the batch, whatever becomes of the later stages. *)
Theorem watermark_written_by_extraction
        (db : Database) (faults : Faults) (w : World) :
  quiet_step (fst (main_extract db faults w)) (fst (main db faults w))
  /\ (exists es, effects (fst (main db faults w)) = effects w ++ es
                 /\ (count_puts es <= 1)%nat)
  /\ (forall since first rest,
        get_state_error faults = None -> put_state_error faults = None ->
        lower_bound w = Done since ->
        extract_data db since = first :: rest ->
        s3_last_run (fst (main db faults w)) = Some (at_max first rest)).
Proof.
  split; [apply main_after_extract|]. split.
  - destruct (main_extract_effects db faults w) as [es1 [E1 C1]].
    destruct (main_after_extract db faults w) as [_ [es2 [E2 C2]]].
    exists (es1 ++ es2). split.
    + rewrite E2, E1, app_assoc. reflexivity.
    + rewrite count_puts_app. lia.
  - intros since first rest Hf Hp Hlb He. rewrite main_watermark.
    rewrite (main_extract_advances db faults w since first rest Hf Hlb He Hp).
    reflexivity.
Qed.

Lemma extract_data_no_new_data (db : Database) (w : World) :
  no_new_data db w = true ->
  exists since, lower_bound w = Done since /\ extract_data db since = [].
Proof.
  unfold no_new_data, extract_data. intros H.
  destruct (lower_bound w) as [[since|]|e]; [| |discriminate].
  - exists (Some since). split; [reflexivity|]. simpl.
    rewrite filter_none; [reflexivity|].
    intros r Hr. apply Z.ltb_ge. apply Z.leb_le.
    rewrite forallb_forall in H. apply H. exact Hr.
  - exists None. split; [reflexivity|].
    destruct (from_join db) as [|r l]; [reflexivity | discriminate].
Qed.

(** C8.  When the source holds no row the run's query selects, the query
    returns the empty frame, and the run ends normally in the world it
    started from but for the two reads it made (the state file, the
    query): no put on the state file, no file written, nothing uploaded,
    no later stage entered. *)
Theorem no_new_data_halts (db : Database) (faults : Faults) (w : World) :
  get_state_error faults = None -> no_new_data db w = true ->
  exists since,
    lower_bound w = Done since
    /\ extract_data db since = []
    /\ snd (main_extract db faults w) = Done 0%nat
    /\ main db faults w
       = (mkWorld (s3_last_run w) (s3_transactions w) (csv_transactions w)
                  (csv_cleaned w) (parquet_dimensions w) (parquet_partitions w)
                  (effects w ++ [S3GetState; ReadSql since]),
          Done tt).
Proof.
  intros Hf Hno.
  destruct (extract_data_no_new_data db w Hno) as [since [Hlb He]].
  exists since. split; [exact Hlb|]. split; [exact He|]. unfold main, bind.
  rewrite (main_extract_nothing db faults w since Hf Hlb He). simpl. auto.
Qed.

End RunFacts.

(* ================================================================== *)
(** * Runs on the sample data *)

Section RunExamples.
Import Time Frame Store Extract Pipeline.

(** C1, counterexample: the first run on the sample database, with the
    bucket refusing the dataset.  Publishing raises and no partition is
    in the bucket, yet the state file, empty before the run, holds the
    latest event time; the next run's query then finds nothing. *)
Lemma watermark_advanced_though_upload_failed :
  snd (main Sample.db Sample.upload_fails Sample.first_run)
  = Raised (ClientError "AccessDenied")
  /\ s3_transactions (fst (main Sample.db Sample.upload_fails Sample.first_run)) = []
  /\ s3_last_run Sample.first_run = None
  /\ s3_last_run (fst (main Sample.db Sample.upload_fails Sample.first_run))
     = Some 1704189600000000
  /\ lower_bound (fst (main Sample.db Sample.upload_fails Sample.first_run))
     = Done (Some 1704189601000000)
  /\ extract_data Sample.db (Some 1704189601000000) = [].
Proof. vm_compute. repeat split; reflexivity. Qed.

(** C1, witness: the same failing run, through the theorem. *)
Lemma watermark_written_by_extraction_witness :
  snd (main Sample.db Sample.upload_fails Sample.first_run)
  = Raised (ClientError "AccessDenied")
  /\ s3_last_run (fst (main Sample.db Sample.upload_fails Sample.first_run))
     = Some 1704189600000000.
Proof.
  split; [vm_compute; reflexivity|].
  destruct (watermark_written_by_extraction
              Sample.db Sample.upload_fails Sample.first_run) as [_ [_ H]].
  apply (H None
           (mkTransaction 1 1704103200000000 (Some 500) 7 1 "Burrito Bus"
                          "Mexican street food" 1 5 "card")
           [mkTransaction 3 1704103201000000 None 7 2 "Burrito Bus"
                          "Mexican street food" 1 5 "cash";
            mkTransaction 2 1704189600000000 (Some 250) 7 2 "Burrito Bus"
                          "Mexican street food" 1 5 "cash"]);
    vm_compute; reflexivity.
Defined.

(** C5, counterexample.  With the watermark 9999-12-31 23:59:59 the run
    has no lower bound at all: the addition raises and the run ends
    before its query.  With the watermark 2024-01-02 10:00:00.500000 the
    lower bound is 2024-01-02 10:00:01, half a second short of the
    watermark plus one second, and the query returns a row of
    10:00:01.200000, which is not later than the watermark plus one
    second. *)
Lemma lower_bound_not_watermark_plus_one_second :
  s3_last_run Sample.last_second = Some 253402300799000000
  /\ strftime 253402300799000000 = "9999-12-31 23:59:59"%string
  /\ snd (get_last_processed_timestamp no_faults Sample.last_second)
     = Raised (OverflowError "date value out of range")
  /\ main Sample.db no_faults Sample.last_second
     = (mkWorld (Some 253402300799000000) [] None None None [] [S3GetState],
        Raised (OverflowError "date value out of range"))
  /\ s3_last_run Sample.half_second = Some 1704189600500000
  /\ isoformat 1704189600500000 = "2024-01-02 10:00:00.500000"%string
  /\ snd (get_last_processed_timestamp no_faults Sample.half_second)
     = Done (Some 1704189601000000)
  /\ 1704189601000000 <> 1704189600500000 + SECOND
  /\ map at_ (extract_data Sample.db_fraction (Some 1704189601000000))
     = [1704189601200000]
  /\ 1704189601200000 < 1704189600500000 + SECOND.
Proof. vm_compute. repeat split; try reflexivity. discriminate. Qed.

(** C5, witness: the watermark 2024-01-02 10:00:00 on the sample data. *)
Lemma lower_bound_of_watermark_witness :
  s3_last_run Sample.up_to_date = Some 1704189600000000
  /\ add_seconds 1704189600000000 1 = Some 1704189601000000
  /\ In (ReadSql (Some 1704189601000000))
        (effects (fst (main_extract Sample.db no_faults Sample.up_to_date))).
Proof.
  split; [reflexivity|]. split; [reflexivity|].
  pose proof (lower_bound_of_watermark
                Sample.db no_faults Sample.up_to_date 1704189600000000
                eq_refl eq_refl) as H.
  change (add_seconds 1704189600000000 1) with (Some 1704189601000000) in H.
  destruct H as [(_ & _ & H & _) _]. exact H.
Defined.

(** C8, witness: the sample database holds nothing later than the
    watermark of [Sample.up_to_date]. *)
Lemma no_new_data_halts_witness :
  no_new_data Sample.db Sample.up_to_date = true
  /\ snd (main Sample.db no_faults Sample.up_to_date) = Done tt
  /\ effects (fst (main Sample.db no_faults Sample.up_to_date))
     = [S3GetState; ReadSql (Some 1704189601000000)].
Proof.
  split; [reflexivity|].
  destruct (no_new_data_halts Sample.db no_faults Sample.up_to_date)
    as [since (Hlb & _ & _ & H)]; [reflexivity | reflexivity |].
  rewrite H. split; [reflexivity|]. simpl.
  assert (E : Done since = Done (Some 1704189601000000))
    by (rewrite <- Hlb; reflexivity).
  inversion E. reflexivity.
Defined.

(** C4, witness: the two sample rows fall on two dates. *)
Lemma partition_transactions_complete_witness :
  Transform.clean_data Sample.raw = Done Sample.cleaned
  /\ exists groups,
       Partition.partitions Sample.cleaned = Done groups
       /\ Permutation (List.concat (map snd groups)) Sample.cleaned
       /\ NoDup (map fst groups).
Proof.
  split; [vm_compute; reflexivity|].
  destruct (partition_transactions_complete Sample.raw Sample.cleaned
              Sample.first_run) as [groups (Hp & _ & _ & Hperm & Hnd & _)];
    [vm_compute; reflexivity|].
  exists groups. auto.
Defined.

End RunExamples.


(* ================================================================== *)
(** * The report metrics *)

Section ReportFacts.
Import Report.
Local Open Scope Q_scope.

Lemma sum_app (xs ys : list Q) : sum (xs ++ ys) == sum xs + sum ys.
Proof.
  induction xs as [|x xs IH]; simpl.
  - ring.
  - rewrite IH. ring.
Qed.

Lemma sum_perm (xs ys : list Q) : Permutation xs ys -> sum xs == sum ys.
Proof.
  induction 1 as [|x xs ys _ IH|x y xs|xs ys zs _ IH1 _ IH2]; simpl.
  - reflexivity.
  - rewrite IH. reflexivity.
  - ring.
  - rewrite IH1. exact IH2.
Qed.

Lemma sum_scale (c : Q) (xs : list Q) :
  sum (map (fun x => x * c) xs) == sum xs * c.
Proof.
  induction xs as [|x xs IH]; simpl.
  - ring.
  - rewrite IH. ring.
Qed.

Lemma sum_groups (gs : list (list Sale)) :
  sum (map (fun g => sum (map total g)) gs) == sum (map total (List.concat gs)).
Proof.
  induction gs as [|g gs IH]; simpl.
  - reflexivity.
  - rewrite map_app, sum_app, IH. reflexivity.
Qed.

Lemma sum_ext (A : Type) (h k : A -> Q) (l : list A) :
  (forall a, In a l -> h a == k a) -> sum (map h l) == sum (map k l).
Proof.
  induction l as [|a l IH]; simpl; intros H.
  - reflexivity.
  - rewrite (H a (or_introl eq_refl)), IH; [reflexivity|].
    intros b Hb. apply H. right. exact Hb.
Qed.

(** The revenues of the payment methods add up to the revenue of the rows
    that have a payment method. *)
Lemma payment_breakdown_total (df : list Sale) :
  sum (map (fun p => snd (snd p)) (payment_breakdown df))
  == sum (map total (with_payment_method df)).
Proof.
  unfold payment_breakdown, with_payment_method. rewrite map_map. simpl.
  rewrite <- (map_map snd (fun g => sum (map total g))).
  rewrite sum_groups. apply sum_perm. apply Permutation_map.
  apply groupby_covers.
Qed.

(** The payment methods of the metrics of a non-empty frame. *)
Lemma calculate_metrics_Done (yesterday : string) (df : list Sale)
      (m : Metrics) :
  df <> [] -> calculate_metrics yesterday df = Done m ->
  total_revenue m = sum (map total df)
  /\ payment_methods m
     = map (fun p => (fst p, payment_stats (sum (map total df)) (fst p)
                               (fst (snd p)) (snd (snd p))))
           (payment_breakdown df).
Proof.
  intros Hne H. destruct df as [|first rest]; [contradiction|].
  unfold calculate_metrics in H.
  destruct (truck_stats (first :: rest)) as [|best stats]; [discriminate|].
  inversion H; subst m. split; reflexivity.
Qed.

Lemma percentages_sum (total_revenue : Q) (breakdown : list (string * (Z * Q))) :
  0 < total_revenue ->
  sum (map (fun pm => Payment.percentage (snd pm))
           (map (fun p => (fst p, payment_stats total_revenue (fst p)
                                    (fst (snd p)) (snd (snd p))))
                breakdown))
  == sum (map (fun p => snd (snd p)) breakdown) / total_revenue * 100.
Proof.
  intros Hpos. rewrite map_map. cbn [snd].
  rewrite (sum_ext _ _ (fun p => snd (snd p) * (/ total_revenue * 100))).
  - rewrite <- (map_map (fun p => snd (snd p))
                        (fun x => x * (/ total_revenue * 100))).
    rewrite sum_scale. unfold Qdiv. ring.
  - intros p _. unfold payment_stats. cbn [Payment.percentage].
    destruct (Qlt_le_dec 0 total_revenue) as [_|Hle].
    + unfold Qdiv. ring.
    + exfalso. apply (Qlt_not_le _ _ Hpos Hle).
Qed.

(** C9.  For the empty frame [calculate_metrics] raises nothing and
    returns the dictionary of placeholders: revenue 0, no transactions,
    best and worst truck ["N/A"] with revenue 0, no payment method,
    average 0, no truck. *)
Theorem calculate_metrics_empty (yesterday : string) :
  calculate_metrics yesterday []
  = Done (mkMetrics yesterday 0 0 "N/A" 0 "N/A" 0 [] 0 [] None None)
  /\ exists m,
       calculate_metrics yesterday [] = Done m
       /\ total_revenue m = 0
       /\ total_transactions m = 0%Z
       /\ best_truck m = "N/A"%string
       /\ best_truck_revenue m = 0
       /\ worst_truck m = "N/A"%string
       /\ worst_truck_revenue m = 0
       /\ payment_methods m = []
       /\ average_transaction m = 0
       /\ all_trucks m = [].
Proof.
  split; [reflexivity|]. eexists. split; [reflexivity|].
  repeat split; reflexivity.
Qed.

(** C10 (as the code has it).  For a non-empty frame whose metrics are
    returned with a positive total revenue, the percentages of the
    payment methods add up to 100 times the share that the rows with a
    payment method have in the total revenue (in exact arithmetic): a row
    without a payment method counts in the total and in no method.  The
    percentages add up to 100 when every row has a payment method. *)
Theorem payment_percentages_sum (yesterday : string) (df : list Sale)
        (m : Metrics) :
  df <> [] ->
  calculate_metrics yesterday df = Done m ->
  0 < total_revenue m ->
  percentages m
  == sum (map total (with_payment_method df)) / sum (map total df) * 100
  /\ ((forall r, In r df -> payment_method r <> None) -> percentages m == 100).
Proof.
  intros Hne Hm Hpos.
  destruct (calculate_metrics_Done yesterday df m Hne Hm) as [Hrev Hpm].
  rewrite Hrev in Hpos.
  assert (Hsum : percentages m
                 == sum (map total (with_payment_method df))
                    / sum (map total df) * 100).
  { unfold percentages. rewrite Hpm.
    rewrite (percentages_sum _ _ Hpos), payment_breakdown_total.
    reflexivity. }
  split; [exact Hsum|]. intros Hall. rewrite Hsum.
  unfold with_payment_method. rewrite filter_all.
  - field. intros E. rewrite E in Hpos. discriminate.
  - intros r Hr. specialize (Hall r Hr).
    destruct (payment_method r); [reflexivity | contradiction].
Qed.

End ReportFacts.

Section ReportExamples.
Import Report.
Local Open Scope Q_scope.

(** C10, counterexample: a day with two sales, 75 in cash and 25 without
    a payment method.  The frame is not empty and the total revenue is
    100, yet the percentages add up to 75. *)
Lemma payment_percentages_sum_to_75 :
  exists m,
    calculate_metrics "2024-01-01" Sample.sales_missing_method = Done m
    /\ total_revenue m = 100
    /\ 0 < total_revenue m
    /\ map fst (payment_methods m) = ["cash"%string]
    /\ percentages m == 75
    /\ ~ percentages m == 100.
Proof.
  eexists. split; [reflexivity|]. vm_compute.
  repeat split; try reflexivity; discriminate.
Qed.

(** C10, witness: four sales over three payment methods. *)
Lemma payment_percentages_sum_witness :
  exists m,
    calculate_metrics "2024-01-01" Sample.sales = Done m
    /\ 0 < total_revenue m
    /\ percentages m == 100.
Proof.
  eexists. split; [reflexivity|]. split; [reflexivity|].
  eapply (payment_percentages_sum "2024-01-01" Sample.sales);
    [discriminate | reflexivity | reflexivity |].
  intros r Hr. simpl in Hr.
  repeat (destruct Hr as [<-|Hr]; [discriminate|]). destruct Hr.
Defined.

End ReportExamples.

(* ================================================================== *)
(** * The pipeline on the sample data *)

Section SampleRuns.
Import Time Frame Store Extract Pipeline.

(** The first and the last datetime, and the text of the sample times. *)
Example datetime_range :
  make 1 1 1 0 0 0 0 = Some datetime_min
  /\ make 9999 12 31 23 59 59 999999 = Some datetime_max
  /\ isoformat 1704103200000000 = "2024-01-01 10:00:00"%string
  /\ fromisoformat "2024-01-02 10:00:00.500000" = Some 1704189600500000
  /\ strftime 1704189600500000 = "2024-01-02 10:00:00"%string.
Proof. vm_compute. repeat split; reflexivity. Qed.

(** The query after 2024-01-01 10:00:00 returns the two later rows, the
    earlier one first. *)
Example extract_data_sample :
  map transaction_id (extract_data Sample.db (Some 1704103200000000)) = [3; 2]
  /\ map at_ (extract_data Sample.db (Some 1704103200000000))
     = [1704103201000000; 1704189600000000].
Proof. split; reflexivity. Qed.

(** The first query returns every joined row in order of event time. *)
Example extract_data_first_run :
  map transaction_id (extract_data Sample.db None) = [1; 3; 2].
Proof. reflexivity. Qed.

(** Rows of 2024-01-01 and of 2024-01-02 make two partitions of one row. *)
Example partitions_sample :
  match Partition.partitions Sample.cleaned with
  | Done groups =>
      map (fun g => (fst g, map Frame.transaction_id (snd g))) groups
      = [((2024, 1, 1), [Some 1]); ((2024, 1, 2), [Some 2])]
  | Raised _ => False
  end.
Proof. vm_compute. reflexivity. Qed.

(** A first run without failures: the row without an amount is dropped,
    two partitions reach the bucket, and the state file holds the latest
    event time. *)
Example first_run_succeeds :
  snd (main Sample.db no_faults Sample.first_run) = Done tt
  /\ map fst (s3_transactions (fst (main Sample.db no_faults Sample.first_run)))
     = [(2024, 1, 1); (2024, 1, 2)]
  /\ s3_last_run (fst (main Sample.db no_faults Sample.first_run))
     = Some 1704189600000000
  /\ effects (fst (main Sample.db no_faults Sample.first_run))
     = [S3GetState; ReadSql None; WriteTransactionsCsv;
        S3PutState 1704189600000000; ReadTransactionsCsv; WriteCleanedCsv;
        ReadCleanedCsv; WriteDimensions; WritePartition (2024, 1, 1);
        WritePartition (2024, 1, 2); ReadCleanedCsv;
        S3WritePartition (2024, 1, 1); S3WritePartition (2024, 1, 2);
        S3ListObjects].
Proof. vm_compute. repeat split; reflexivity. Qed.

(** Amounts that differ after one division by 100 and agree after two,
    and an amount that the division takes to zero. *)
Example to_major_units_rounds :
  float_same (Transform.to_major_units (float_of_int 100000000000000048))
             (Transform.to_major_units (float_of_int 100000000000000064))
  = false
  /\ float_same
       (Transform.to_major_units
          (Transform.to_major_units (float_of_int 100000000000000048)))
       (Transform.to_major_units
          (Transform.to_major_units (float_of_int 100000000000000064)))
     = true
  /\ Transform.total_ne_zero (next_up 0) = true
  /\ Transform.total_ne_zero (Transform.to_major_units (next_up 0)) = false.
Proof. vm_compute. repeat split; reflexivity. Qed.

(** The metrics of the sample sales. *)
Example calculate_metrics_sample :
  match Report.calculate_metrics "2024-01-01" Sample.sales with
  | Done m =>
      (Report.total_revenue m == 53 # 6)%Q
      /\ Report.total_transactions m = 4
      /\ (Report.average_transaction m == 53 # 24)%Q
      /\ Report.best_truck m = "Burrito Bus"%string
      /\ Report.best_truck_revenue m = (15 # 2)%Q
      /\ Report.worst_truck m = "Pasta Van"%string
      /\ Report.worst_truck_revenue m = (133 # 100)%Q
      /\ Report.all_trucks m
         = [Report.Truck.mkStats "Burrito Bus" (15 # 2) 2 (15 # 4);
            Report.Truck.mkStats "Pasta Van" (133 # 100) 2 (67 # 100)]
      /\ map (fun pm => (fst pm, Report.Payment.count (snd pm)))
             (Report.payment_methods m)
         = [("Credit Card", 1); ("card", 1); ("cash", 2)]%string
      /\ Forall2 Qeq
            (map (fun pm => Report.Payment.processing_cost (snd pm))
                 (Report.payment_methods m))
            [1 # 150; 1 # 10; 0]%Q
      /\ match Report.total_card_costs m, Report.net_revenue m with
         | Some costs, Some net => (costs == 8 # 75 /\ net == 1309 # 150)%Q
         | _, _ => False
         end
  | Raised _ => False
  end.
Proof.
  vm_compute. repeat split; try reflexivity.
  repeat constructor.
Qed.

(** A payment method named NA in the source is missing in the published
    partition: the files between the stages read it back as a missing
    value, and the cleaner keeps the row. *)
Example missing_name_is_published :
  snd (main Sample.db_unnamed_method no_faults Sample.first_run) = Done tt
  /\ map (fun g => (fst g, map (fun r => (Frame.total r, Frame.payment_method r))
                               (snd g)))
         (s3_transactions
            (fst (main Sample.db_unnamed_method no_faults Sample.first_run)))
     = [((2024, 1, 1), [(75%float, Some "cash"%string); (25%float, None)])].
Proof. vm_compute. split; reflexivity. Qed.

(** A non-empty frame in which no row has a truck name: the best truck is
    looked up in an empty index. *)
Example calculate_metrics_no_truck :
  Report.calculate_metrics "2024-01-01" [Report.mkSale 5 None (Some "cash"%string)]
  = Raised (IndexError "index 0 is out of bounds for axis 0 with size 0").
Proof. reflexivity. Qed.

End SampleRuns.
(* ================================================================== *)
(** * Datetimes and their text *)

Section CalendarFacts.
Import Time Calendar.

Lemma all_from_spec (check : Z -> bool) (n : nat) (z k : Z) :
  all_from check n z = true -> z <= k < z + Z.of_nat n -> check k = true.
Proof.
  revert z. induction n as [|n IH]; intros z Hall Hk.
  - simpl in Hk. lia.
  - simpl in Hall. apply andb_true_iff in Hall. destruct Hall as [Hz Hrest].
    destruct (Z.eq_dec k z) as [->|Hne]; [exact Hz|].
    apply (IH (z + 1) Hrest). lia.
Qed.

Lemma era_days_checked : all_from era_day_ok (Z.to_nat 146097) 0 = true.
Proof. vm_compute. reflexivity. Qed.

Lemma era_day_ok_all (doe : Z) : 0 <= doe < 146097 -> era_day_ok doe = true.
Proof.
  intros H. apply (all_from_spec era_day_ok (Z.to_nat 146097) 0 doe era_days_checked).
  rewrite Z2Nat.id; lia.
Qed.

Lemma civil_from_days_shift (z e : Z) :
  civil_from_days (z + 146097 * e)
  = let '(y, m, d) := civil_from_days z in (y + 400 * e, m, d).
Proof.
  unfold civil_from_days.
  replace (z + 146097 * e + 719468) with (z + 719468 + e * 146097) by ring.
  rewrite Z.div_add by lia.
  set (z' := z + 719468). set (era := z' / 146097).
  replace (z' + e * 146097 - (era + e) * 146097) with (z' - era * 146097) by ring.
  cbv beta iota zeta.
  set (doe := z' - era * 146097).
  set (yoe := (doe - doe / 1460 + doe / 36524 - doe / 146096) / 365).
  set (doy := doe - (365 * yoe + yoe / 4 - yoe / 100)).
  set (mp := (5 * doy + 2) / 153).
  set (m := if mp <? 10 then mp + 3 else mp - 9).
  destruct (m <=? 2);
    (apply f_equal2; [apply f_equal2; [ring | reflexivity] | reflexivity]).
Qed.

Lemma days_from_civil_shift (y m d e : Z) :
  days_from_civil (y + 400 * e) m d = days_from_civil y m d + 146097 * e.
Proof.
  unfold days_from_civil.
  destruct (m <=? 2).
  - replace (y + 400 * e - 1) with (y - 1 + e * 400) by ring.
    rewrite Z.div_add by lia. cbv zeta.
    replace (y - 1 + e * 400 - ((y - 1) / 400 + e) * 400)
      with (y - 1 - (y - 1) / 400 * 400) by ring.
    ring.
  - replace (y + 400 * e) with (y + e * 400) by ring.
    rewrite Z.div_add by lia. cbv zeta.
    replace (y + e * 400 - (y / 400 + e) * 400) with (y - y / 400 * 400) by ring.
    ring.
Qed.

Lemma is_leap_shift (y e : Z) : is_leap (y + 400 * e) = is_leap y.
Proof.
  unfold is_leap.
  replace (y + 400 * e) with (y + (100 * e) * 4) at 1 by ring.
  replace (y + 400 * e) with (y + (4 * e) * 100) at 1 by ring.
  replace (y + 400 * e) with (y + e * 400) by ring.
  rewrite !Z.mod_add by lia. reflexivity.
Qed.

Lemma days_in_month_shift (y m e : Z) :
  days_in_month (y + 400 * e) m = days_in_month y m.
Proof. unfold days_in_month. rewrite is_leap_shift. reflexivity. Qed.

(** Every day from 0001-01-01 to 9999-12-31 is a valid civil date of the
    years 1 to 9999, and the date converts back to the day. *)
Lemma civil_from_days_valid (z : Z) :
  -719162 <= z <= 2932896 ->
  let '(y, m, d) := civil_from_days z in
  1 <= y <= 9999 /\ 1 <= m <= 12 /\ 1 <= d <= days_in_month y m
  /\ days_from_civil y m d = z.
Proof.
  intros Hz.
  set (e := (z + 719468) / 146097).
  set (doe := (z + 719468) mod 146097).
  assert (Hsplit : z + 719468 = 146097 * e + doe)
    by (unfold e, doe; apply Z.div_mod; lia).
  assert (Hdoe : 0 <= doe < 146097) by (unfold doe; apply Z.mod_pos_bound; lia).
  assert (He : 0 <= e <= 24).
  { unfold e. split.
    - apply Z.div_pos; lia.
    - apply Z.lt_succ_r. apply Z.div_lt_upper_bound; lia. }
  replace z with (doe - 719468 + 146097 * e) by lia.
  rewrite civil_from_days_shift.
  pose proof (era_day_ok_all doe Hdoe) as Hok. unfold era_day_ok in Hok.
  destruct (civil_from_days (doe - 719468)) as [[y m] d].
  rewrite !andb_true_iff, !orb_true_iff in Hok.
  rewrite !Z.leb_le, !Z.ltb_lt, Z.eqb_eq in Hok.
  destruct Hok as [[[[[[[[Hy0 Hy400] Hlow] Hhigh] Hm1] Hm12] Hd1] Hdm] Hback].
  rewrite days_in_month_shift, days_from_civil_shift.
  repeat split; try lia.
Qed.

End CalendarFacts.

Section TextFacts.
Import Time Calendar.

Lemma digit_digit_char (d : Z) : 0 <= d <= 9 -> digit (digit_char d) = Some d.
Proof.
  intros H.
  assert (E : d = 0 \/ d = 1 \/ d = 2 \/ d = 3 \/ d = 4 \/ d = 5 \/ d = 6
              \/ d = 7 \/ d = 8 \/ d = 9) by lia.
  repeat (destruct E as [->|E]; [reflexivity|]). subst. reflexivity.
Qed.

Lemma decimal_digit (n k : Z) : 0 <= (n / k) mod 10 <= 9.
Proof. pose proof (Z.mod_pos_bound (n / k) 10). lia. Qed.

Lemma number_two_digits (n : Z) :
  0 <= n <= 99 ->
  number_from 0 [digit_char (n / 10 mod 10); digit_char (n mod 10)] = Some n.
Proof.
  intros H. cbn [number_from].
  rewrite (digit_digit_char (n / 10 mod 10)) by apply decimal_digit.
  rewrite (digit_digit_char (n mod 10))
    by (pose proof (Z.mod_pos_bound n 10); lia).
  f_equal. Z.div_mod_to_equations. lia.
Qed.

Lemma number_four_digits (n : Z) :
  0 <= n <= 9999 ->
  number_from 0 [digit_char (n / 1000 mod 10); digit_char (n / 100 mod 10);
                 digit_char (n / 10 mod 10); digit_char (n mod 10)] = Some n.
Proof.
  intros H. cbn [number_from].
  rewrite (digit_digit_char (n / 1000 mod 10)) by apply decimal_digit.
  rewrite (digit_digit_char (n / 100 mod 10)) by apply decimal_digit.
  rewrite (digit_digit_char (n / 10 mod 10)) by apply decimal_digit.
  rewrite (digit_digit_char (n mod 10))
    by (pose proof (Z.mod_pos_bound n 10); lia).
  f_equal. Z.div_mod_to_equations. lia.
Qed.

Lemma number_six_digits (n : Z) :
  0 <= n <= 999999 ->
  number_from 0 [digit_char (n / 100000 mod 10); digit_char (n / 10000 mod 10);
                 digit_char (n / 1000 mod 10); digit_char (n / 100 mod 10);
                 digit_char (n / 10 mod 10); digit_char (n mod 10)] = Some n.
Proof.
  intros H. cbn [number_from].
  rewrite (digit_digit_char (n / 100000 mod 10)) by apply decimal_digit.
  rewrite (digit_digit_char (n / 10000 mod 10)) by apply decimal_digit.
  rewrite (digit_digit_char (n / 1000 mod 10)) by apply decimal_digit.
  rewrite (digit_digit_char (n / 100 mod 10)) by apply decimal_digit.
  rewrite (digit_digit_char (n / 10 mod 10)) by apply decimal_digit.
  rewrite (digit_digit_char (n mod 10))
    by (pose proof (Z.mod_pos_bound n 10); lia).
  f_equal. Z.div_mod_to_equations. lia.
Qed.

(** Parsing the text of six numbers in the layout [strftime] writes gives
    the datetime of those numbers. *)
Lemma fromisoformat_layout (y m d h mi s : Z) :
  0 <= y <= 9999 -> 0 <= m <= 99 -> 0 <= d <= 99 ->
  0 <= h <= 99 -> 0 <= mi <= 99 -> 0 <= s <= 99 ->
  fromisoformat (pad4 y ++ "-" ++ pad2 m ++ "-" ++ pad2 d ++ " "
                 ++ pad2 h ++ ":" ++ pad2 mi ++ ":" ++ pad2 s)%string
  = make y m d h mi s 0.
Proof.
  intros Hy Hm Hd Hh Hmi Hs.
  unfold fromisoformat, parse_date, parse_time, field, char_is, pad4, pad2.
  cbn -[number_from make digit_char Z.div Z.modulo].
  rewrite (number_four_digits y Hy).
  rewrite (number_two_digits m Hm), (number_two_digits d Hd).
  rewrite (number_two_digits h Hh), (number_two_digits mi Hmi),
    (number_two_digits s Hs).
  reflexivity.
Qed.

(** The same with the microseconds after a point. *)
Lemma fromisoformat_layout_microsecond (y m d h mi s us : Z) :
  0 <= y <= 9999 -> 0 <= m <= 99 -> 0 <= d <= 99 ->
  0 <= h <= 99 -> 0 <= mi <= 99 -> 0 <= s <= 99 -> 0 <= us <= 999999 ->
  fromisoformat ((pad4 y ++ "-" ++ pad2 m ++ "-" ++ pad2 d ++ " "
                  ++ pad2 h ++ ":" ++ pad2 mi ++ ":" ++ pad2 s)
                 ++ "." ++ pad6 us)%string
  = make y m d h mi s us.
Proof.
  intros Hy Hm Hd Hh Hmi Hs Hus.
  unfold fromisoformat, parse_date, parse_time, parse_microsecond, field,
    char_is, pad6, pad4, pad2.
  cbn -[number_from make digit_char Z.div Z.modulo].
  rewrite (number_four_digits y Hy).
  rewrite (number_two_digits m Hm), (number_two_digits d Hd).
  rewrite (number_two_digits h Hh), (number_two_digits mi Hmi),
    (number_two_digits s Hs), (number_six_digits us Hus).
  reflexivity.
Qed.

End TextFacts.

Section RoundTrip.
Import Time Calendar.

Lemma in_range_days (t : Timestamp) :
  in_range t = true -> -719162 <= t / DAY <= 2932896.
Proof.
  unfold in_range.
  change datetime_min with (-62135596800000000).
  change datetime_max with 253402300799999999.
  change DAY with 86400000000.
  rewrite andb_true_iff, !Z.leb_le. intros [Hlo Hhi].
  Z.div_mod_to_equations. lia.
Qed.

(** The parts that the text forms print, and how they make up [t]. *)
Lemma datetime_parts (t : Timestamp) :
  in_range t = true ->
  let sod := t / SECOND mod SECONDS_PER_DAY in
  make (year t) (month t) (day t) (sod / 3600) (sod / 60 mod 60) (sod mod 60)
       (t mod SECOND) = Some t
  /\ make (year t) (month t) (day t) (sod / 3600) (sod / 60 mod 60)
          (sod mod 60) 0 = Some (floor_second t)
  /\ 0 <= year t <= 9999 /\ 0 <= month t <= 99 /\ 0 <= day t <= 99
  /\ 0 <= sod / 3600 <= 99 /\ 0 <= sod / 60 mod 60 <= 99
  /\ 0 <= sod mod 60 <= 99 /\ 0 <= t mod SECOND <= 999999.
Proof.
  intros Hr. pose proof (in_range_days t Hr) as Hz.
  pose proof (civil_from_days_valid (t / DAY) Hz) as Hv.
  unfold year, month, day.
  destruct (civil_from_days (t / DAY)) as [[y m] d].
  destruct Hv as (Hy & Hm & Hd & Hback).
  cbv zeta.
  assert (Hdim : days_in_month y m <= 31).
  { unfold days_in_month.
    destruct (m =? 2); [destruct (is_leap y); lia|].
    destruct ((m =? 4) || (m =? 6) || (m =? 9) || (m =? 11)); lia. }
  unfold floor_second.
  change DAY with 86400000000 in *. change SECOND with 1000000.
  change SECONDS_PER_DAY with 86400.
  pose proof (Z.mod_pos_bound (t / 1000000) 86400 ltac:(lia)) as Hsod.
  pose proof (Z.mod_pos_bound t 1000000 ltac:(lia)) as Hus.
  set (sod := t / 1000000 mod 86400) in *.
  set (us := t mod 1000000) in *.
  assert (Hsplit : t = t / 86400000000 * 86400000000 + sod * 1000000 + us).
  { unfold sod, us. Z.div_mod_to_equations. lia. }
  assert (Hfloor : t / 1000000 * 1000000 = t - us).
  { unfold us. Z.div_mod_to_equations. lia. }
  assert (Htime : (sod / 3600 * 3600 + sod / 60 mod 60 * 60 + sod mod 60) = sod).
  { Z.div_mod_to_equations. lia. }
  assert (Hvalid : forall u, 0 <= u < 1000000 ->
    (1 <=? y) && (y <=? 9999) && (1 <=? m) && (m <=? 12) && (1 <=? d)
    && (d <=? days_in_month y m) && (0 <=? sod / 3600) && (sod / 3600 <? 24)
    && (0 <=? sod / 60 mod 60) && (sod / 60 mod 60 <? 60)
    && (0 <=? sod mod 60) && (sod mod 60 <? 60)
    && (0 <=? u) && (u <? 1000000) = true).
  { intros u Hu. rewrite !andb_true_iff, !Z.leb_le, !Z.ltb_lt.
    repeat split; try lia; Z.div_mod_to_equations; lia. }
  unfold make. change SECOND with 1000000. change DAY with 86400000000.
  rewrite (Hvalid us Hus), (Hvalid 0 ltac:(lia)), Hback.
  split; [f_equal; lia|]. split; [f_equal; lia|].
  repeat split; try lia; Z.div_mod_to_equations; lia.
Qed.

(** The text [strftime] writes for a datetime of the years 1 to 9999
    reads back as that datetime without its microseconds. *)
Lemma fromisoformat_strftime (t : Timestamp) :
  in_range t = true -> fromisoformat (strftime t) = Some (floor_second t).
Proof.
  intros Hr.
  destruct (datetime_parts t Hr)
    as (_ & Hmake & Hy & Hm & Hd & Hh & Hmi & Hs & _).
  unfold strftime. cbv zeta. rewrite fromisoformat_layout by assumption.
  exact Hmake.
Qed.

(** The text [str] writes reads back as the datetime. *)
Lemma fromisoformat_isoformat (t : Timestamp) :
  in_range t = true -> fromisoformat (isoformat t) = Some t.
Proof.
  intros Hr.
  destruct (datetime_parts t Hr)
    as (Hmake & Hmake0 & Hy & Hm & Hd & Hh & Hmi & Hs & Hus).
  unfold isoformat. destruct (t mod SECOND =? 0) eqn:E.
  - rewrite (fromisoformat_strftime t Hr). f_equal.
    apply Z.eqb_eq in E. unfold floor_second.
    pose proof (Z.div_mod t SECOND ltac:(unfold SECOND; lia)). lia.
  - unfold strftime. cbv zeta.
    rewrite fromisoformat_layout_microsecond by assumption.
    exact Hmake.
Qed.

End RoundTrip.

(* ================================================================== *)
(** * The query in terms of the tables *)

Section QueryFacts.
Import Time Store Extract Query.

Lemma from_join_In (db : Database) (r : Transaction) :
  In r (from_join db) <->
  exists ft dt pm,
    In ft (FACT_Transaction db) /\ In dt (DIM_Truck db)
    /\ In pm (DIM_Payment_Method db)
    /\ ft_truck_id ft = dt_truck_id dt
    /\ ft_payment_method_id ft = pm_payment_method_id pm
    /\ r = select ft dt pm.
Proof.
  unfold from_join. rewrite in_flat_map. split.
  - intros [ft [Hft Hin]]. apply in_flat_map in Hin.
    destruct Hin as [dt [Hdt Hin]]. apply in_map_iff in Hin.
    destruct Hin as [pm [<- Hpm]].
    apply filter_In in Hdt. apply filter_In in Hpm.
    destruct Hdt as [Hdt Et], Hpm as [Hpm Ep].
    apply Z.eqb_eq in Et. apply Z.eqb_eq in Ep.
    exists ft, dt, pm. auto 10.
  - intros (ft & dt & pm & Hft & Hdt & Hpm & Et & Ep & ->).
    exists ft. split; [exact Hft|]. apply in_flat_map.
    exists dt. split; [apply filter_In; split; [exact Hdt | apply Z.eqb_eq, Et]|].
    apply in_map. apply filter_In. split; [exact Hpm | apply Z.eqb_eq, Ep].
Qed.

Lemma filter_key_length {A : Type} (key : A -> Z) (k : Z) (l : list A) :
  NoDup (map key l) ->
  List.length (filter (fun x => k =? key x) l)
  = if existsb (fun x => k =? key x) l then 1%nat else 0%nat.
Proof.
  induction l as [|x l IH]; simpl; intros Hnd; [reflexivity|].
  inversion Hnd as [|? ? Hfresh Hnd']; subst.
  destruct (k =? key x) eqn:E; simpl.
  - apply Z.eqb_eq in E. subst k.
    rewrite filter_none; [reflexivity|].
    intros y Hy. apply Z.eqb_neq. intros Heq. apply Hfresh.
    rewrite Heq. apply in_map. exact Hy.
  - apply IH. exact Hnd'.
Qed.

(** The result rows one fact row contributes. *)
Lemma joined_ids (db : Database) (ft : FactTransaction) :
  NoDup (map dt_truck_id (DIM_Truck db)) ->
  NoDup (map pm_payment_method_id (DIM_Payment_Method db)) ->
  map transaction_id
      (flat_map (fun dt =>
         map (fun pm => select ft dt pm)
             (filter (fun pm => ft_payment_method_id ft =? pm_payment_method_id pm)
                     (DIM_Payment_Method db)))
         (filter (fun dt => ft_truck_id ft =? dt_truck_id dt) (DIM_Truck db)))
  = if resolves db ft then [ft_transaction_id ft] else [].
Proof.
  intros Ht Hp. unfold resolves.
  pose proof (filter_key_length dt_truck_id (ft_truck_id ft) (DIM_Truck db) Ht) as Lt.
  pose proof (filter_key_length pm_payment_method_id (ft_payment_method_id ft)
                (DIM_Payment_Method db) Hp) as Lp.
  destruct (existsb _ (DIM_Truck db)).
  - destruct (filter _ (DIM_Truck db)) as [|dt [|dt' ts]]; try discriminate.
    simpl. rewrite app_nil_r.
    destruct (existsb _ (DIM_Payment_Method db)).
    + destruct (filter _ (DIM_Payment_Method db)) as [|pm [|pm' ps]];
        try discriminate. reflexivity.
    + destruct (filter _ (DIM_Payment_Method db)); [reflexivity | discriminate].
  - destruct (filter _ (DIM_Truck db)); [reflexivity | discriminate].
Qed.

Lemma from_join_ids (db : Database) :
  NoDup (map dt_truck_id (DIM_Truck db)) ->
  NoDup (map pm_payment_method_id (DIM_Payment_Method db)) ->
  map transaction_id (from_join db)
  = map ft_transaction_id (filter (resolves db) (FACT_Transaction db)).
Proof.
  intros Ht Hp. unfold from_join.
  induction (FACT_Transaction db) as [|ft facts IH]; [reflexivity|].
  cbn [flat_map filter]. rewrite map_app, IH, (joined_ids db ft Ht Hp).
  destruct (resolves db ft); reflexivity.
Qed.

(** X1.  The rows of the query are exactly the combinations of a fact row
    with its truck and its payment method, restricted to event times
    after the lower bound when there is one; sorting loses and repeats
    none of them. *)
Theorem extract_data_exactly (db : Database) (since : option Timestamp) :
  Permutation (extract_data db since) (where_at since (from_join db))
  /\ forall r,
       In r (extract_data db since) <->
       exists ft dt pm,
         In ft (FACT_Transaction db) /\ In dt (DIM_Truck db)
         /\ In pm (DIM_Payment_Method db)
         /\ ft_truck_id ft = dt_truck_id dt
         /\ ft_payment_method_id ft = pm_payment_method_id pm
         /\ r = select ft dt pm
         /\ match since with Some T => T < ft_at ft | None => True end.
Proof.
  split; [apply sort_by_perm|].
  intros r. unfold extract_data. rewrite order_by_at_In.
  destruct since as [T|]; simpl.
  - rewrite filter_In, from_join_In, Z.ltb_lt. split.
    + intros [(ft & dt & pm & H1 & H2 & H3 & H4 & H5 & ->) Hlt].
      exists ft, dt, pm. simpl in Hlt. auto 10.
    + intros (ft & dt & pm & H1 & H2 & H3 & H4 & H5 & -> & Hlt).
      split; [|exact Hlt]. exists ft, dt, pm. auto 10.
  - rewrite from_join_In. split.
    + intros (ft & dt & pm & H). exists ft, dt, pm. tauto.
    + intros (ft & dt & pm & H). exists ft, dt, pm. tauto.
Qed.

(** X2.  When no key occurs twice in a dimension table, the first
    extraction returns one row for each fact row whose truck and payment
    method both exist, and none for the others. *)
Theorem first_extraction_once_per_resolved_fact (db : Database) :
  NoDup (map dt_truck_id (DIM_Truck db)) ->
  NoDup (map pm_payment_method_id (DIM_Payment_Method db)) ->
  Permutation (map transaction_id (extract_data db None))
              (map ft_transaction_id (filter (resolves db) (FACT_Transaction db))).
Proof.
  intros Ht Hp. rewrite <- (from_join_ids db Ht Hp).
  apply Permutation_map. apply sort_by_perm.
Qed.

Lemma last_nonempty {A : Type} (x : A) (l : list A) (d d' : A) :
  last (x :: l) d = last (x :: l) d' /\ In (last (x :: l) d) (x :: l).
Proof.
  revert x. induction l as [|y l IH]; intros x.
  - split; [reflexivity | left; reflexivity].
  - destruct (IH y) as [E Hin]. split; [exact E | right; exact Hin].
Qed.

Lemma last_of_map {A B : Type} (f : A -> B) (l : list A) (d : A) :
  last (map f l) (f d) = f (last l d).
Proof.
  induction l as [|x [|y l] IH]; try reflexivity. exact IH.
Qed.

Lemma fold_max_sorted (l : list Z) (a : Z) :
  StronglySorted Z.le (a :: l) -> fold_left Z.max l a = last (a :: l) a.
Proof.
  revert a. induction l as [|x l IH]; intros a Hs; [reflexivity|].
  inversion Hs as [|? ? Hs' Hall]; subst. inversion Hall as [|? ? Hax _]; subst.
  cbn [fold_left]. rewrite Z.max_r by exact Hax. rewrite (IH x Hs').
  change (last (a :: x :: l) a) with (last (x :: l) a).
  apply (proj1 (last_nonempty x l x a)).
Qed.

Lemma StronglySorted_map_at (rows : list Transaction) :
  StronglySorted (fun a b => at_ a <= at_ b) rows ->
  StronglySorted Z.le (map at_ rows).
Proof.
  induction 1 as [|r rows _ IH Hall]; simpl; constructor; [exact IH|].
  apply Forall_map. exact Hall.
Qed.

(** X3.  The watermark a run stores is the event time of the last row of
    its batch: the query's ordering puts the latest row last. *)
Theorem watermark_is_last_row (db : Database) (since : option Timestamp)
        (first : Transaction) (rest : list Transaction) :
  extract_data db since = first :: rest ->
  at_max first rest = at_ (last (first :: rest) first)
  /\ In (last (first :: rest) first) (extract_data db since).
Proof.
  intros He. split.
  - unfold at_max.
    pose proof (order_by_at_ascending (where_at since (from_join db))) as Hs.
    fold (extract_data db since) in Hs. rewrite He in Hs.
    apply StronglySorted_map_at in Hs.
    change (map at_ (first :: rest)) with (at_ first :: map at_ rest) in Hs.
    rewrite (fold_max_sorted _ _ Hs).
    change (at_ first :: map at_ rest) with (map at_ (first :: rest)).
    apply last_of_map.
  - rewrite He. apply (proj2 (last_nonempty first rest first first)).
Qed.

End QueryFacts.

(* ================================================================== *)
(** * The ways a run can go *)

Section RunCases.
Import Time Store Extract Pipeline.

(** X4.  When reading the state file fails with an error other than a
    missing key, the run stops there with that error: no query is made
    and nothing is written anywhere. *)
Theorem state_read_error_aborts (db : Database) (faults : Faults) (w : World)
        (err : S3Error) :
  get_state_error faults = Some err ->
  main db faults w
  = (mkWorld (s3_last_run w) (s3_transactions w) (csv_transactions w)
             (csv_cleaned w) (parquet_dimensions w) (parquet_partitions w)
             (effects w ++ [S3GetState]),
     Raised (ClientError (error_code err))).
Proof.
  intros Hf. unfold main, bind.
  rewrite (main_extract_get_error db faults w err Hf). reflexivity.
Qed.

(** X5.  With no state file the run is a first run: the missing key is
    not an error, the query has no lower bound, and when the table has
    rows and the put succeeds the watermark becomes the latest event time
    of the whole result set. *)
Theorem first_run_extracts_everything (db : Database) (faults : Faults)
        (w : World) :
  s3_last_run w = None ->
  get_state_error faults = None -> put_state_error faults = None ->
  from_join db <> [] ->
  snd (get_last_processed_timestamp faults w) = Done None
  /\ exists first rest,
       extract_data db None = first :: rest
       /\ Permutation (first :: rest) (from_join db)
       /\ s3_last_run (fst (main db faults w)) = Some (at_max first rest)
       /\ forall r, In r (from_join db) -> at_ r <= at_max first rest.
Proof.
  intros Hw Hf Hp Hne.
  assert (Hlb : lower_bound w = Done None)
    by (unfold lower_bound; rewrite Hw; reflexivity).
  split.
  { rewrite (get_last_processed_timestamp_ok faults w Hf), Hlb. reflexivity. }
  assert (Hperm : Permutation (extract_data db None) (from_join db))
    by apply sort_by_perm.
  destruct (extract_data db None) as [|first rest] eqn:He.
  { apply Permutation_nil in Hperm. contradiction. }
  exists first, rest. split; [reflexivity|]. split; [exact Hperm|]. split.
  - rewrite main_watermark.
    rewrite (main_extract_advances db faults w None first rest Hf Hlb He Hp).
    reflexivity.
  - intros r Hr. apply at_max_upper.
    apply (Permutation_in r (Permutation_sym Hperm)). exact Hr.
Qed.

(** X6.  When the put on the state file fails, the run stops with that
    error after [data/transactions.csv] has been written: the watermark
    is unchanged, so the next run queries with the same lower bound, and
    no later stage runs. *)
Theorem put_failure_stops_after_csv (db : Database) (faults : Faults)
        (w : World) (since : option Timestamp)
        (first : Transaction) (rest : list Transaction) (err : S3Error) :
  get_state_error faults = None ->
  lower_bound w = Done since ->
  extract_data db since = first :: rest ->
  put_state_error faults = Some err ->
  main db faults w
  = (mkWorld (s3_last_run w) (s3_transactions w)
             (Some (to_csv (map to_frame (first :: rest))))
             (csv_cleaned w) (parquet_dimensions w) (parquet_partitions w)
             (effects w ++ [S3GetState; ReadSql since;
                            WriteTransactionsCsv;
                            S3PutState (at_max first rest)]),
     Raised (ClientError (error_code err)))
  /\ lower_bound (fst (main db faults w)) = Done since.
Proof.
  intros Hf Hlb He Hp.
  assert (E : main db faults w
              = (mkWorld (s3_last_run w) (s3_transactions w)
                   (Some (to_csv (map to_frame (first :: rest))))
                   (csv_cleaned w) (parquet_dimensions w) (parquet_partitions w)
                   (effects w ++ [S3GetState; ReadSql since;
                                  WriteTransactionsCsv;
                                  S3PutState (at_max first rest)]),
                 Raised (ClientError (error_code err)))).
  { unfold main, bind.
    rewrite (main_extract_put_error db faults w since first rest err Hf Hlb He Hp).
    reflexivity. }
  split; [exact E|]. rewrite E. exact Hlb.
Qed.

Lemma lower_bound_after_main (db : Database) (faults : Faults) (w : World) :
  lower_bound (fst (main db faults w))
  = lower_bound (fst (main_extract db faults w)).
Proof. unfold lower_bound. rewrite main_watermark. reflexivity. Qed.

(** X7.  After a run in which the state file could be read and written,
    a second run against the unchanged database finds nothing to extract,
    whether or not the first run's later stages succeeded: whatever lower
    bound the second run computes, its query is empty. *)
Theorem rerun_extracts_nothing (db : Database) (faults : Faults) (w : World)
        (again : option Timestamp) :
  get_state_error faults = None -> put_state_error faults = None ->
  lower_bound (fst (main db faults w)) = Done again ->
  extract_data db again = [].
Proof.
  intros Hf Hp. rewrite lower_bound_after_main.
  destruct (lower_bound w) as [since|e] eqn:Hlb.
  2:{ rewrite (main_extract_overflow db faults w e Hf Hlb).
      unfold lower_bound in *. simpl. rewrite Hlb. discriminate. }
  destruct (extract_data db since) as [|first rest] eqn:He.
  - rewrite (main_extract_nothing db faults w since Hf Hlb He).
    unfold lower_bound in *. simpl. rewrite Hlb. intros E.
    inversion E; subst. exact He.
  - rewrite (main_extract_advances db faults w since first rest Hf Hlb He Hp).
    intros Hagain.
    simpl in Hagain.
    match type of Hagain with
    | lower_bound ?w' = _ =>
        destruct (lower_bound_after w' (at_max first rest) again eq_refl Hagain)
          as [b [-> Hb]]
    end.
    unfold extract_data, where_at.
    rewrite filter_none; [reflexivity|].
    intros r Hr. apply Z.ltb_ge.
    assert (Hmax : forall x, In x (first :: rest) -> at_ x <= at_max first rest)
      by (intros x; apply at_max_upper).
    destruct since as [since|].
    + destruct (Z_lt_le_dec since (at_ r)) as [Hlt|Hle].
      * assert (Hin : In r (extract_data db (Some since))).
        { unfold extract_data. apply order_by_at_In. simpl.
          apply filter_In. split; [exact Hr | apply Z.ltb_lt; exact Hlt]. }
        rewrite He in Hin. specialize (Hmax r Hin). lia.
      * assert (Hfirst : In first (extract_data db (Some since)))
          by (rewrite He; left; reflexivity).
        apply extract_data_newer in Hfirst.
        specialize (Hmax first (or_introl eq_refl)). lia.
    + assert (Hin : In r (extract_data db None)).
      { unfold extract_data. apply order_by_at_In. exact Hr. }
      rewrite He in Hin. specialize (Hmax r Hin). lia.
Qed.

End RunCases.

(* ================================================================== *)
(** * More on cleaning *)

Section EmbedsFacts.
Import Provenance.
Context {A B C : Type}.

Lemma Embeds_refl (l : list A) : Embeds eq l l.
Proof. induction l; constructor; auto. Qed.

Lemma Embeds_filter (p : A -> bool) (l : list A) : Embeds eq (filter p l) l.
Proof.
  induction l as [|x l IH]; simpl; [constructor|].
  destruct (p x); constructor; auto.
Qed.

Lemma Embeds_map (f : A -> B) (l : list A) :
  Embeds (fun b a => b = f a) (map f l) l.
Proof. induction l; simpl; constructor; auto. Qed.

Lemma Embeds_trans (R : A -> B -> Prop) (S : B -> C -> Prop)
      (la : list A) (lb : list B) (lc : list C) :
  Embeds R la lb -> Embeds S lb lc ->
  Embeds (fun a c => exists b, R a b /\ S b c) la lc.
Proof.
  intros H1 H2. revert la H1.
  induction H2 as [lc|b c lb lc Hbc H2 IH|c lb lc H2 IH]; intros la H1.
  - inversion H1; subst. constructor.
  - inversion H1; subst.
    + constructor.
    + constructor; [eauto | apply IH; assumption].
    + constructor. apply IH. assumption.
  - constructor. apply IH. exact H1.
Qed.

Lemma Embeds_weaken (R R' : A -> B -> Prop) (la : list A) (lb : list B) :
  (forall a b, R a b -> R' a b) -> Embeds R la lb -> Embeds R' la lb.
Proof. intros H. induction 1; constructor; auto. Qed.

Lemma Embeds_In (R : A -> B -> Prop) (la : list A) (lb : list B) (a : A) :
  Embeds R la lb -> In a la -> exists b, In b lb /\ R a b.
Proof.
  induction 1 as [lb|x b la lb Hxb H IH|b la lb H IH]; intros Hin.
  - destruct Hin.
  - destruct Hin as [<-|Hin]; [exists b; split; [left; reflexivity | exact Hxb]|].
    destruct (IH Hin) as [b' [Hb' Hr]]. exists b'. split; [right|]; assumption.
  - destruct (IH Hin) as [b' [Hb' Hr]]. exists b'. split; [right|]; assumption.
Qed.

Lemma Embeds_length (R : A -> B -> Prop) (la : list A) (lb : list B) :
  Embeds R la lb -> (List.length la <= List.length lb)%nat.
Proof. induction 1; simpl; lia. Qed.

End EmbedsFacts.

Section SameValueFacts.
Import Frame Transform.

Lemma SFeqb_sym (a b : spec_float) : SFeqb a b = SFeqb b a.
Proof.
  unfold SFeqb.
  destruct a as [sa|sa| |sa ma ea], b as [sb|sb| |sb mb eb];
    try reflexivity;
    try (destruct sa; reflexivity); try (destruct sb; reflexivity);
    try (destruct sa, sb; reflexivity).
  simpl. destruct sa, sb; try reflexivity;
    rewrite (Z.compare_antisym ea eb), !Pos.compare_cont_spec;
    rewrite (Pos.compare_antisym ma mb);
    destruct (ea ?= eb); simpl; try reflexivity;
    destruct (ma ?= mb)%positive; reflexivity.
Qed.

Lemma float_same_sym (x y : float) : float_same x y = float_same y x.
Proof.
  unfold float_same. rewrite !FloatAxioms.eqb_spec, (SFeqb_sym (Prim2SF x)).
  rewrite (andb_comm (is_nan x)). reflexivity.
Qed.

Lemma optZ_same_sym (a b : option Z) : optZ_same a b = optZ_same b a.
Proof. destruct a, b; simpl; try reflexivity. apply Z.eqb_sym. Qed.

Lemma AtCell_same_sym (a b : AtCell) : AtCell_same a b = AtCell_same b a.
Proof.
  destruct a, b; simpl; try reflexivity;
    [apply String.eqb_sym | apply Z.eqb_sym].
Qed.

Lemma DupKey_same_sym (a b : DupKey) : DupKey_same a b = DupKey_same b a.
Proof.
  destruct a as [[[c1 t1] m1] x1], b as [[[c2 t2] m2] x2]. unfold DupKey_same.
  rewrite (AtCell_same_sym c1), (optZ_same_sym t1), (optZ_same_sym m1),
    (float_same_sym x1). reflexivity.
Qed.

Lemma count_same_filter (k : DupKey) (p : Row -> bool) (df : list Row) :
  (count_same k (map duplicate_check_cols (filter p df))
   <= count_same k (map duplicate_check_cols df))%nat.
Proof.
  unfold count_same. induction df as [|x df IH]; [reflexivity|].
  cbn [filter]. destruct (p x); cbn [map filter];
    destruct (DupKey_same k (duplicate_check_cols x));
    cbn [List.length]; lia.
Qed.

Lemma drop_duplicates_seen_fresh (seen : list DupKey) (df : list Row) (r : Row) :
  In r (drop_duplicates_seen seen df) ->
  existsb (DupKey_same (duplicate_check_cols r)) seen = false.
Proof.
  revert seen. induction df as [|x df IH]; intros seen H; [destruct H|].
  cbn [drop_duplicates_seen] in H.
  destruct (existsb (DupKey_same (duplicate_check_cols x)) seen) eqn:E.
  - apply IH. exact H.
  - destruct H as [<-|H]; [exact E|].
    specialize (IH _ H). cbn [existsb] in IH.
    apply orb_false_iff in IH. tauto.
Qed.

(** Among the rows [drop_duplicates] keeps, each key occurs once. *)
Lemma drop_duplicates_seen_once (seen : list DupKey) (df : list Row) (r : Row) :
  In r (drop_duplicates_seen seen df) ->
  (count_same (duplicate_check_cols r)
              (map duplicate_check_cols (drop_duplicates_seen seen df)) <= 1)%nat.
Proof.
  revert seen. induction df as [|x df IH]; intros seen H; [destruct H|].
  cbn [drop_duplicates_seen] in *.
  destruct (existsb (DupKey_same (duplicate_check_cols x)) seen) eqn:E;
    [apply IH; exact H|].
  unfold count_same. cbn [map filter].
  destruct H as [<-|H].
  - rewrite DupKey_same_refl. cbn [List.length].
    rewrite filter_none; [simpl; lia|].
    intros k Hk. apply in_map_iff in Hk. destruct Hk as [r' [<- Hr']].
    apply drop_duplicates_seen_fresh in Hr'. cbn [existsb] in Hr'.
    apply orb_false_iff in Hr'. rewrite DupKey_same_sym. tauto.
  - pose proof (drop_duplicates_seen_fresh _ _ _ H) as Hf.
    cbn [existsb] in Hf. apply orb_false_iff in Hf. destruct Hf as [Hf _].
    rewrite Hf. apply IH. exact H.
Qed.

End SameValueFacts.

Section CleaningFacts.
Import Time Frame Transform Provenance.

Lemma to_datetime_Embeds (df out : list Row) :
  to_datetime df = Done out ->
  Embeds (fun o r => exists c, to_datetime_cell (at_ r) = Done c /\ o = set_at r c)
         out df
  /\ List.length out = List.length df.
Proof.
  revert out. induction df as [|r df IH]; simpl; intros out H.
  - inversion H; subst. split; [constructor | reflexivity].
  - destruct (to_datetime_cell (at_ r)) as [c|e] eqn:Ec; [|discriminate].
    destruct (to_datetime df) as [out'|e]; [|discriminate].
    inversion H; subst. destruct (IH out' eq_refl) as [IH1 IH2].
    split; [constructor; eauto | simpl; congruence].
Qed.

Lemma drop_duplicates_seen_Embeds (seen : list DupKey) (df : list Row) :
  Embeds eq (drop_duplicates_seen seen df) df.
Proof.
  revert seen. induction df as [|x df IH]; simpl; intros seen; [constructor|].
  destruct (existsb (DupKey_same (duplicate_check_cols x)) seen);
    constructor; auto.
Qed.

(** Whether [to_datetime] returns. *)
Lemma to_datetime_returns (df : list Row) :
  (forall r, In r df -> exists c, to_datetime_cell (at_ r) = Done c) ->
  exists out, to_datetime df = Done out.
Proof.
  induction df as [|r df IH]; simpl; intros H; [eauto|].
  destruct (H r (or_introl eq_refl)) as [c ->].
  destruct IH as [out ->]; [intros; apply H; right; assumption|]. eauto.
Qed.

Lemma to_datetime_raises (df : list Row) (e : Exn) :
  to_datetime df = Raised e ->
  exists r s, In r df /\ at_ r = AtText s /\ fromisoformat s = None
              /\ e = ValueError s.
Proof.
  induction df as [|r df IH]; simpl; [discriminate|].
  destruct (to_datetime_cell (at_ r)) as [c|e'] eqn:Ec.
  - destruct (to_datetime df) as [out|e'']; [discriminate|].
    intros H. inversion H; subst.
    destruct (IH eq_refl) as (r' & s & Hin & Hat & Hp & He).
    exists r', s. auto.
  - intros H. inversion H; subst. unfold to_datetime_cell in Ec.
    destruct (at_ r) as [|s|t] eqn:Hat; try discriminate.
    destruct (fromisoformat s) eqn:Hp; [discriminate|].
    inversion Ec; subst. exists r, s. auto.
Qed.

Lemma to_datetime_all_parse (df out : list Row) (r : Row) :
  to_datetime df = Done out -> In r df ->
  exists c, to_datetime_cell (at_ r) = Done c.
Proof.
  revert out. induction df as [|x df IH]; simpl; intros out H Hin; [destruct Hin|].
  destruct (to_datetime_cell (at_ x)) as [c|e] eqn:Ec; [|discriminate].
  destruct (to_datetime df) as [out'|e]; [|discriminate].
  destruct Hin as [<-|Hin]; [eauto | eapply IH; eauto].
Qed.

(** X8.  Every row [clean_data] returns has its five critical columns
    present (the amount is a number, possibly zero after rounding), a
    datetime as event time and a boolean flag; and no two returned rows
    hold the same values of event time, truck, payment method and
    amount: each row is the only one with its key. *)
Theorem clean_data_output_invariant (df out : list Row) :
  clean_data df = Done out ->
  forall o, In o out ->
    tidy o /\ critical_notna o = true
    /\ count_same (duplicate_check_cols o) (map duplicate_check_cols out)
       = 1%nat.
Proof.
  intros H o Ho. split; [exact (clean_data_rows df out o H Ho)|].
  pose proof (count_same_In out o Ho) as Hge.
  unfold clean_data in H.
  destruct (to_datetime _) as [df2|e]; [|discriminate].
  inversion H; subst out. clear H. rewrite drop_duplicates_if in *.
  unfold dropna in *. apply filter_In in Ho. destruct Ho as [Ho Hcrit].
  split; [exact Hcrit|].
  pose proof (count_same_filter (duplicate_check_cols o) critical_notna
                (drop_duplicates
                   (map (fun r => set_has_card_reader r
                                    (astype_bool (has_card_reader r))) df2)))
    as Hle.
  pose proof (drop_duplicates_seen_once [] _ o Ho) as Hone.
  unfold drop_duplicates in *. lia.
Qed.


Lemma clean_data_Embeds (df out : list Row) :
  clean_data df = Done out -> Embeds cleaned_from out df.
Proof.
  intros H. unfold clean_data in H.
  destruct (to_datetime _) as [df2|e] eqn:Edt; [|discriminate].
  inversion H; subst out; clear H.
  apply to_datetime_Embeds in Edt. destruct Edt as [E4 _].
  rewrite drop_duplicates_if.
  set (flagged := map (fun r => set_has_card_reader r (astype_bool (has_card_reader r))) df2) in *.
  pose proof (drop_duplicates_seen_Embeds [] flagged) as E2.
  fold (drop_duplicates flagged) in E2.
  pose proof (Embeds_filter critical_notna (drop_duplicates flagged)) as E1.
  pose proof (Embeds_map (fun r => set_has_card_reader r (astype_bool (has_card_reader r))) df2) as E3.
  fold flagged in E3.
  pose proof (Embeds_map (fun r => set_total r (to_major_units (total r)))
                (filter (fun r => total_ne_zero (total r))
                        (filter (fun r => float_notna (total r)) df))) as E5.
  pose proof (Embeds_filter (fun r => total_ne_zero (total r))
                (filter (fun r => float_notna (total r)) df)) as E6.
  pose proof (Embeds_filter (fun r => float_notna (total r)) df) as E7.
  pose proof (Embeds_trans _ _ _ _ _ E1
               (Embeds_trans _ _ _ _ _ E2
                 (Embeds_trans _ _ _ _ _ E3
                   (Embeds_trans _ _ _ _ _ E4
                     (Embeds_trans _ _ _ _ _ E5
                       (Embeds_trans _ _ _ _ _ E6 E7)))))) as E.
  unfold dropna. eapply Embeds_weaken; [|exact E].
  intros o r (x1 & -> & x2 & -> & x3 & -> & x4 & (c & Hc & ->) & x5 & -> & x6 & -> & ->).
  exists c. split; [exact Hc | reflexivity].
Qed.

Lemma clean_data_returns (df : list Row) :
  (forall r, In r df -> exists c, to_datetime_cell (at_ r) = Done c) ->
  exists out, clean_data df = Done out.
Proof.
  intros H. unfold clean_data.
  destruct (to_datetime_returns
              (map (fun r => set_total r (to_major_units (total r)))
                   (filter (fun r => total_ne_zero (total r))
                           (filter (fun r => float_notna (total r)) df)))) as [df2 ->];
    [|eauto].
  intros r1 Hin. apply in_map_iff in Hin. destruct Hin as [r [<- Hin]].
  apply filter_In in Hin. destruct Hin as [Hin _].
  apply filter_In in Hin. destruct Hin as [Hin _]. simpl. apply H. exact Hin.
Qed.

(** X10.  The rows [clean_data] returns are the cleaned forms of input
    rows, in input order: no row is invented, reordered or returned
    twice, and the result is never longer than the input. *)
Theorem clean_data_provenance (df out : list Row) :
  clean_data df = Done out ->
  Embeds cleaned_from out df
  /\ (List.length out <= List.length df)%nat.
Proof.
  intros H. pose proof (clean_data_Embeds df out H) as E.
  split; [exact E | apply (Embeds_length _ _ _ E)].
Qed.

End CleaningFacts.

(* ================================================================== *)
(** * What each stage leaves alone *)

Section FootprintFacts.
Import Store Footprint.
Context {X : Type} (field : World -> X).

Lemma preserves_ret {A : Type} (a : A) : preserves field (ret a).
Proof. intros w. reflexivity. Qed.

Lemma preserves_raise {A : Type} (e : Exn) : preserves field (@raise A e).
Proof. intros w. reflexivity. Qed.

Lemma preserves_lift {A : Type} (r : result A) : preserves field (lift r).
Proof. intros w. reflexivity. Qed.

Lemma preserves_gets {A : Type} (f : World -> A) : preserves field (gets f).
Proof. intros w. reflexivity. Qed.

Lemma preserves_bind {A B : Type} (m : M A) (k : A -> M B) :
  preserves field m -> (forall a, preserves field (k a)) ->
  preserves field (bind m k).
Proof.
  intros Hm Hk w. unfold bind. specialize (Hm w).
  destruct (m w) as [w' [a|e]]; simpl in *; [|exact Hm].
  rewrite (Hk a w'). exact Hm.
Qed.

End FootprintFacts.

Ltac preserves_stmt :=
  repeat first
    [ apply preserves_bind; [|intros ?]
    | apply preserves_ret | apply preserves_raise | apply preserves_lift
    | apply preserves_gets
    | match goal with
      | |- Footprint.preserves _ (Store.perform _) => intros ?; reflexivity
      | |- Footprint.preserves _ (Store.modify _) => intros ?; reflexivity
      | |- Footprint.preserves _ (match ?x with _ => _ end) => destruct x
      end ].

Section StageFootprints.
Import Frame Store Footprint.

Lemma save_partitions_local (groups : list (PartKey * list Row)) :
  preserves s3_last_run (Partition.save_partitions groups)
  /\ preserves s3_transactions (Partition.save_partitions groups)
  /\ preserves csv_transactions (Partition.save_partitions groups)
  /\ preserves csv_cleaned (Partition.save_partitions groups)
  /\ preserves parquet_dimensions (Partition.save_partitions groups).
Proof.
  induction groups as [|[k g] groups (I1 & I2 & I3 & I4 & I5)]; simpl;
    repeat split; preserves_stmt; assumption.
Qed.

Lemma s3_to_parquet_remote (faults : Faults) (groups : list (PartKey * list Row)) :
  preserves s3_last_run (Load.s3_to_parquet faults groups)
  /\ preserves csv_transactions (Load.s3_to_parquet faults groups)
  /\ preserves csv_cleaned (Load.s3_to_parquet faults groups)
  /\ preserves parquet_dimensions (Load.s3_to_parquet faults groups)
  /\ preserves parquet_partitions (Load.s3_to_parquet faults groups).
Proof.
  induction groups as [|[k g] groups (I1 & I2 & I3 & I4 & I5)]; simpl;
    repeat split; preserves_stmt; assumption.
Qed.

(** What [s3_to_parquet] does to the bucket and how it ends. *)
Lemma s3_to_parquet_written (faults : Faults) (groups : list (PartKey * list Row))
      (w : World) :
  s3_transactions (fst (Load.s3_to_parquet faults groups w))
  = s3_transactions w ++ written faults groups
  /\ snd (Load.s3_to_parquet faults groups w)
     = match first_write_error faults groups with
       | Some err => Raised (ClientError (error_code err))
       | None => Done tt
       end.
Proof.
  revert w. induction groups as [|[k g] groups IH]; intros w; simpl.
  - rewrite app_nil_r. split; reflexivity.
  - unfold bind, perform, modify, raise. simpl.
    destruct (write_partition_error faults k) as [err|]; simpl.
    + rewrite app_nil_r. split; reflexivity.
    + match goal with |- context [Load.s3_to_parquet faults groups ?w1] =>
        specialize (IH w1) end.
      destruct IH as [IH1 IH2]. simpl in IH1.
      split; [rewrite IH1, <- app_assoc; reflexivity | exact IH2].
Qed.

End StageFootprints.
(* ================================================================== *)
(** * Publishing *)

Section PublishFacts.
Import Frame Store Footprint Pipeline.

Lemma upload_partitioned_transactions_ready
      (faults : Faults) (w : World) (csv df : list Row)
      (groups : list (PartKey * list Row)) :
  csv_cleaned w = Some csv -> Transform.to_datetime csv = Done df ->
  Partition.partitions df = Done groups ->
  Load.upload_partitioned_transactions faults w
  = Load.s3_to_parquet faults groups (fst (perform ReadCleanedCsv w)).
Proof.
  intros Hcsv Hdt Hp.
  unfold Load.upload_partitioned_transactions, bind, gets, lift, perform, modify.
  simpl. rewrite Hcsv. simpl. rewrite Hdt, Hp. reflexivity.
Qed.

Lemma upload_transaction_data_false (faults : Faults) (w : World) :
  Load.upload_transaction_data faults false w
  = match Load.upload_partitioned_transactions faults w with
    | (w', Done _) => perform S3ListObjects w'
    | (w', Raised e) => (w', Raised e)
    end.
Proof. reflexivity. Qed.

(** X11.  Publishing appends: with the cleaned file readable and its
    groups [groups], [upload_transaction_data] leaves every object already
    in the bucket in place and adds, in key order, the groups up to the
    first one whose write fails; it returns when none fails and otherwise
    raises that write's error.  The watermark and the local files are not
    touched. *)
Theorem upload_appends_until_first_failure
        (faults : Faults) (w : World) (csv df : list Row)
        (groups : list (PartKey * list Row)) :
  csv_cleaned w = Some csv -> Transform.to_datetime csv = Done df ->
  Partition.partitions df = Done groups ->
  s3_transactions (fst (Load.upload_transaction_data faults false w))
  = s3_transactions w ++ written faults groups
  /\ snd (Load.upload_transaction_data faults false w)
     = match first_write_error faults groups with
       | Some err => Raised (ClientError (error_code err))
       | None => Done tt
       end
  /\ s3_last_run (fst (Load.upload_transaction_data faults false w)) = s3_last_run w
  /\ csv_cleaned (fst (Load.upload_transaction_data faults false w)) = csv_cleaned w
  /\ parquet_partitions (fst (Load.upload_transaction_data faults false w))
     = parquet_partitions w.
Proof.
  intros Hcsv Hdt Hp.
  pose proof (upload_partitioned_transactions_ready faults w csv df groups
                Hcsv Hdt Hp) as Hup.
  pose proof (s3_to_parquet_written faults groups (fst (perform ReadCleanedCsv w)))
    as [Hw Hr].
  destruct (s3_to_parquet_remote faults groups) as (P1 & _ & P3 & _ & P5).
  specialize (P1 (fst (perform ReadCleanedCsv w))).
  specialize (P3 (fst (perform ReadCleanedCsv w))).
  specialize (P5 (fst (perform ReadCleanedCsv w))).
  rewrite upload_transaction_data_false, Hup.
  destruct (Load.s3_to_parquet faults groups (fst (perform ReadCleanedCsv w)))
    as [w' [[]|e]]; simpl in *; auto.
Qed.

Lemma main_extract_bucket (db : Extract.Database) (faults : Faults) :
  preserves s3_transactions (Extract.main_extract db faults).
Proof.
  intros w.
  destruct (get_state_error faults) as [err|] eqn:Hf.
  { rewrite (main_extract_get_error db faults w err Hf). reflexivity. }
  destruct (lower_bound w) as [since|e] eqn:Hlb.
  2:{ rewrite (main_extract_overflow db faults w e Hf Hlb). reflexivity. }
  destruct (Extract.extract_data db since) as [|first rest] eqn:He.
  { rewrite (main_extract_nothing db faults w since Hf Hlb He). reflexivity. }
  destruct (put_state_error faults) as [err|] eqn:Hp.
  { rewrite (main_extract_put_error db faults w since first rest err Hf Hlb He Hp).
    reflexivity. }
  rewrite (main_extract_advances db faults w since first rest Hf Hlb He Hp).
  reflexivity.
Qed.

Lemma main_transform_bucket : preserves s3_transactions Transform.main_transform.
Proof.
  unfold Transform.main_transform, Transform.load_data,
    Transform.save_cleaned_data.
  preserves_stmt.
Qed.

Lemma main_partition_transactions_bucket :
  preserves s3_transactions Partition.main_partition_transactions.
Proof.
  unfold Partition.main_partition_transactions, Partition.load_cleaned_data,
    Partition.save_dimensions, Partition.partition_transactions.
  preserves_stmt. apply save_partitions_local.
Qed.

Lemma upload_transaction_data_extends (faults : Faults) (b : bool) (w : World) :
  exists added,
    s3_transactions (fst (Load.upload_transaction_data faults b w))
    = s3_transactions w ++ added.
Proof.
  destruct b; [exists []; rewrite app_nil_r; reflexivity|].
  rewrite upload_transaction_data_false.
  assert (H : exists added,
             s3_transactions (fst (Load.upload_partitioned_transactions faults w))
             = s3_transactions w ++ added).
  { unfold Load.upload_partitioned_transactions, bind, gets, lift, perform,
      modify, raise. simpl.
    destruct (csv_cleaned w) as [csv|];
      [|exists []; rewrite app_nil_r; reflexivity].
    destruct (Transform.to_datetime csv) as [df|e];
      [|exists []; rewrite app_nil_r; reflexivity].
    destruct (Partition.partitions df) as [groups|e];
      [|exists []; rewrite app_nil_r; reflexivity].
    match goal with |- context [Load.s3_to_parquet faults groups ?w1] =>
      pose proof (s3_to_parquet_written faults groups w1) as [Hw _]
    end.
    simpl in Hw. eauto. }
  destruct H as [added H]. exists added.
  destruct (Load.upload_partitioned_transactions faults w) as [w' [[]|e]];
    simpl in *; exact H.
Qed.

Lemma main_extends (db : Extract.Database) (faults : Faults) (w : World) :
  exists added,
    s3_transactions (fst (main db faults w)) = s3_transactions w ++ added.
Proof.
  unfold main, bind at 1.
  pose proof (main_extract_bucket db faults w) as H1.
  destruct (Extract.main_extract db faults w) as [w1 [n|e]]; simpl in H1;
    [|exists []; rewrite app_nil_r; exact H1].
  destruct (Nat.eqb n 0); [exists []; rewrite app_nil_r; exact H1|].
  unfold bind at 1. pose proof (main_transform_bucket w1) as H2.
  destruct (Transform.main_transform w1) as [w2 [n2|e]]; simpl in H2;
    [|exists []; rewrite app_nil_r; simpl; congruence].
  unfold bind at 1. pose proof (main_partition_transactions_bucket w2) as H3.
  destruct (Partition.main_partition_transactions w2) as [w3 [n3|e]]; simpl in H3;
    [|exists []; rewrite app_nil_r; simpl; congruence].
  destruct (upload_transaction_data_extends faults false w3) as [added Ha].
  exists added. rewrite Ha. congruence.
Qed.

(** X12.  The dataset in the bucket only grows: whatever the runs, their
    databases and their failures, every object present before is present
    afterwards, unchanged and in the same place of the listing. *)
Theorem bucket_is_append_only (schedule : list (Extract.Database * Faults))
        (w : World) :
  exists added,
    s3_transactions (runs schedule w) = s3_transactions w ++ added.
Proof.
  revert w. induction schedule as [|[db faults] schedule IH]; intros w; simpl.
  - exists []. rewrite app_nil_r. reflexivity.
  - destruct (main_extends db faults w) as [a1 H1].
    destruct (IH (fst (main db faults w))) as [a2 H2].
    exists (a1 ++ a2). rewrite H2, H1, app_assoc. reflexivity.
Qed.

End PublishFacts.

(* ================================================================== *)
(** * More on partitioning *)


Section PartitionMore.
Import Time Frame Store Partition.

Lemma add_date_columns_no_text (df : list Row) :
  existsb (fun r => is_text (at_ r)) df = false ->
  add_date_columns df = Done (map (fun r => (r, date_parts (at_ r))) df).
Proof. intros H. unfold add_date_columns. rewrite H. reflexivity. Qed.

Lemma dated_rows_with_date (df : list Row) :
  existsb (fun r => is_text (at_ r)) df = false ->
  drop_date_columns
    (filter (fun x : Dated => notna (snd x))
            (map (fun r => (r, date_parts (at_ r))) df))
  = filter (fun r => at_notna (at_ r)) df.
Proof.
  unfold drop_date_columns.
  induction df as [|r df IH]; simpl; intros H; [reflexivity|].
  apply orb_false_iff in H. destruct H as [Hr H].
  destruct (at_ r) as [|s|t]; simpl in *; try discriminate;
    rewrite (IH H); reflexivity.
Qed.


Lemma save_partitions_other_dates (groups : list (PartKey * list Row))
      (w : World) (k : PartKey) (g : list Row) :
  ~ In k (map fst groups) ->
  In (k, g) (parquet_partitions (fst (save_partitions groups w)))
  <-> In (k, g) (parquet_partitions w).
Proof.
  revert w. induction groups as [|[k' g'] groups IH]; intros w Hk;
    [reflexivity|].
  rewrite save_partitions_unfold. cbv zeta.
  set (w' := set_parquet_partition k' g' (fst (perform (WritePartition k') w))).
  assert (Hne : k <> k') by (intros ->; apply Hk; left; reflexivity).
  specialize (IH w' (fun H => Hk (or_intror H))).
  assert (Hw' : In (k, g) (parquet_partitions w') <-> In (k, g) (parquet_partitions w)).
  { unfold w'. simpl. rewrite filter_In. simpl.
    destruct (PartKey_eq_dec k k') as [E|_]; [contradiction|].
    split; [intros [E|[H _]]; [inversion E; congruence | exact H] | auto]. }
  destruct (save_partitions groups w') as [w'' [n|e]]; simpl in *;
    rewrite IH; exact Hw'.
Qed.

Lemma save_partitions_replaces (groups : list (PartKey * list Row))
      (w : World) (k : PartKey) (g : list Row) :
  NoDup (map fst groups) -> In k (map fst groups) ->
  In (k, g) (parquet_partitions (fst (save_partitions groups w))) ->
  In (k, g) groups.
Proof.
  revert w. induction groups as [|[k' g'] groups IH]; intros w Hnd Hk Hin;
    [destruct Hk|].
  inversion Hnd as [|? ? Hfresh Hnd']; subst.
  rewrite save_partitions_unfold in Hin. cbv zeta in Hin.
  set (w' := set_parquet_partition k' g' (fst (perform (WritePartition k') w))) in *.
  destruct (in_dec PartKey_eq_dec k (map fst groups)) as [Hrest|Hrest].
  - right. apply (IH w' Hnd' Hrest).
    destruct (save_partitions groups w') as [w'' [n|e]]; exact Hin.
  - destruct Hk as [Hk|Hk]; [|contradiction]. simpl in Hk. subst k'.
    assert (Hin' : In (k, g) (parquet_partitions w')).
    { apply (save_partitions_other_dates groups w' k g Hrest).
      destruct (save_partitions groups w') as [w'' [n|e]]; exact Hin. }
    unfold w' in Hin'. simpl in Hin'. destruct Hin' as [E|Hf].
    + left. exact E.
    + apply filter_In in Hf. destruct Hf as [_ Hf]. simpl in Hf.
      destruct (PartKey_eq_dec k k); [discriminate | congruence].
Qed.

Lemma partitions_keys_distinct (df : list Row) (groups : list (PartKey * list Row)) :
  partitions df = Done groups -> NoDup (map fst groups).
Proof.
  unfold partitions. destruct (add_date_columns df) as [dated|e]; [|discriminate].
  intros H. inversion H; subst. rewrite map_map. simpl.
  rewrite (map_ext _ fst) by reflexivity.
  match goal with
  | |- NoDup ?l =>
      assert (E : l = group_keys PartKey_eq_dec PartKey_leb snd dated)
        by apply groupby_keys;
      rewrite E
  end.
  apply group_keys_NoDup.
Qed.


Lemma distinct_spec {A : Type} (eq_dec : forall a b : A, {a = b} + {a <> b})
      (seen l : list A) :
  NoDup (distinct eq_dec seen l)
  /\ forall x, In x (distinct eq_dec seen l) <-> In x l /\ ~ In x seen.
Proof.
  revert seen. induction l as [|y l IH]; simpl; intros seen.
  - split; [constructor | tauto].
  - destruct (in_dec eq_dec y seen) as [Hy|Hy].
    + destruct (IH seen) as [Hnd Hin]. split; [exact Hnd|].
      intros x. rewrite Hin. split; [tauto|].
      intros [[<-|Hx] Hs]; [contradiction | tauto].
    + destruct (IH (y :: seen)) as [Hnd Hin]. split.
      * constructor; [|exact Hnd]. rewrite Hin. simpl. tauto.
      * intros x. simpl. rewrite Hin. simpl. split.
        -- intros [<-|[Hx Hs]]; tauto.
        -- intros [[<-|Hx] Hs]; [tauto|].
           destruct (eq_dec y x); [tauto|]. right. tauto.
Qed.

(** X15.  The dimension tables [extract_dimension_tables] returns list
    every truck and every payment method of the frame once: no tuple is
    repeated, none is missing and none is added. *)
Theorem extract_dimension_tables_distinct (df : list Row) :
  let trucks := fst (extract_dimension_tables df) in
  let payment_methods := snd (extract_dimension_tables df) in
  NoDup trucks /\ NoDup payment_methods
  /\ (forall t, In t trucks <->
        exists r, In r df
          /\ t = (truck_id r, truck_name r, truck_description r,
                  has_card_reader r, fsa_rating r))
  /\ (forall p, In p payment_methods <->
        exists r, In r df /\ p = (payment_method_id r, payment_method r)).
Proof.
  unfold extract_dimension_tables. simpl.
  split; [apply distinct_spec|]. split; [apply distinct_spec|]. split.
  - intros t. rewrite (proj2 (distinct_spec TruckDim_eq_dec [] _)), in_map_iff.
    split.
    + intros [[r [E Hr]] _]. eauto.
    + intros [r [Hr ->]]. split; [eauto | tauto].
  - intros p. rewrite (proj2 (distinct_spec PaymentDim_eq_dec [] _)), in_map_iff.
    split.
    + intros [[r [E Hr]] _]. eauto.
    + intros [r [Hr ->]]. split; [eauto | tauto].
Qed.

End PartitionMore.

(* ================================================================== *)
(** * From one stage to the next *)

Section HandOff.
Import Time Frame Store Footprint Calendar Query Provenance Pipeline.

Lemma to_datetime_cell_csv_at (t : Timestamp) :
  in_range t = true ->
  Transform.to_datetime_cell (csv_at (AtTime t)) = Done (AtTime t).
Proof.
  intros Hr. unfold csv_at, Transform.to_datetime_cell.
  rewrite (fromisoformat_isoformat t Hr). reflexivity.
Qed.

Lemma to_datetime_to_csv (df : list Row) :
  (forall r, In r df -> exists t, at_ r = AtTime t /\ in_range t = true) ->
  Transform.to_datetime (to_csv df) = Done (map read_back df).
Proof.
  induction df as [|r df IH]; intros H; [reflexivity|].
  destruct (H r (or_introl eq_refl)) as [t [Ht Hr]].
  unfold to_csv in *. cbn [map Transform.to_datetime].
  rewrite IH by (intros; apply H; right; assumption).
  unfold csv_row at 1. cbn [at_]. rewrite Ht.
  rewrite (to_datetime_cell_csv_at t Hr).
  unfold csv_row, read_back, set_at. cbn. rewrite Ht. reflexivity.
Qed.

Lemma read_back_same (r : Row) :
  csv_text (truck_name r) = truck_name r ->
  csv_text (truck_description r) = truck_description r ->
  csv_text (payment_method r) = payment_method r ->
  read_back r = r.
Proof.
  intros H1 H2 H3. unfold read_back. rewrite H1, H2, H3.
  destruct r; reflexivity.
Qed.


Lemma extracted_in_range (db : Extract.Database) (since : option Timestamp)
      (r : Extract.Transaction) :
  db_in_range db = true -> In r (Extract.extract_data db since) ->
  in_range (Extract.at_ r) = true.
Proof.
  intros Hdb Hin. unfold Extract.extract_data in Hin.
  apply (proj1 (order_by_at_In _ _)) in Hin.
  assert (Hj : In r (Extract.from_join db)).
  { destruct since; simpl in Hin; [apply filter_In in Hin; tauto | exact Hin]. }
  apply from_join_In in Hj. destruct Hj as (ft & dt & pm & Hft & _ & _ & _ & _ & ->).
  unfold db_in_range in Hdb. rewrite forallb_forall in Hdb.
  simpl. apply Hdb. exact Hft.
Qed.

(** What cleaning makes of the file the extraction stage wrote. *)
Lemma clean_extracted (db : Extract.Database) (since : option Timestamp) :
  db_in_range db = true ->
  exists cleaned,
    Transform.clean_data
      (to_csv (map Extract.to_frame (Extract.extract_data db since)))
    = Done cleaned
    /\ forall o, In o cleaned ->
         exists r z, In r (Extract.extract_data db since)
           /\ at_ o = AtTime (Extract.at_ r)
           /\ in_range (Extract.at_ r) = true
           /\ transaction_id o = Some (Extract.transaction_id r)
           /\ truck_id o = Some (Extract.truck_id r)
           /\ payment_method_id o = Some (Extract.payment_method_id r)
           /\ Extract.total r = Some z
           /\ total o = Transform.to_major_units (float_of_int z).
Proof.
  intros Hdb.
  assert (Hcell : forall x,
            In x (to_csv (map Extract.to_frame (Extract.extract_data db since))) ->
            exists r, In r (Extract.extract_data db since)
                      /\ x = csv_row (Extract.to_frame r)
                      /\ Transform.to_datetime_cell (at_ x)
                         = Done (AtTime (Extract.at_ r))).
  { intros x Hx. unfold to_csv in Hx. rewrite map_map in Hx.
    apply in_map_iff in Hx. destruct Hx as [r [<- Hr]].
    exists r. split; [exact Hr|]. split; [reflexivity|].
    apply to_datetime_cell_csv_at.
    exact (extracted_in_range db since r Hdb Hr). }
  destruct (clean_data_returns
              (to_csv (map Extract.to_frame (Extract.extract_data db since))))
    as [cleaned Hc].
  { intros x Hx. destruct (Hcell x Hx) as (r & _ & _ & E). eauto. }
  exists cleaned. split; [exact Hc|].
  intros o Ho.
  pose proof (clean_data_rows _ _ o Hc Ho) as (_ & _ & Hnum & _).
  destruct (Embeds_In _ _ _ o (clean_data_Embeds _ _ Hc) Ho) as [x [Hx [c [Ec ->]]]].
  destruct (Hcell x Hx) as (r & Hr & -> & E).
  rewrite E in Ec. inversion Ec; subst c.
  cbn in Hnum.
  destruct (Extract.total r) as [z|] eqn:Hz; [|discriminate Hnum].
  exists r, z. split; [exact Hr|].
  split; [reflexivity|].
  split; [exact (extracted_in_range db since r Hdb Hr)|].
  cbn. rewrite Hz. repeat split; reflexivity.
Qed.


End HandOff.

Section WholeRun.
Import Time Frame Store Footprint Calendar Query Provenance Pipeline.

Lemma main_transform_done (w : World) (df cleaned : list Row) :
  csv_transactions w = Some df -> Transform.clean_data df = Done cleaned ->
  Transform.main_transform w
  = (mkWorld (s3_last_run w) (s3_transactions w) (csv_transactions w)
             (Some (to_csv cleaned)) (parquet_dimensions w)
             (parquet_partitions w)
             (effects w ++ [ReadTransactionsCsv; WriteCleanedCsv]),
     Done (List.length cleaned)).
Proof.
  intros Hcsv Hc.
  unfold Transform.main_transform, Transform.load_data,
    Transform.save_cleaned_data, bind, perform, modify, gets, lift, ret.
  simpl. rewrite Hcsv. simpl. rewrite Hc. simpl.
  rewrite <- app_assoc. reflexivity.
Qed.

Lemma main_partition_transactions_local :
  preserves s3_last_run Partition.main_partition_transactions
  /\ preserves csv_cleaned Partition.main_partition_transactions.
Proof.
  unfold Partition.main_partition_transactions, Partition.load_cleaned_data,
    Partition.save_dimensions, Partition.partition_transactions.
  split; preserves_stmt; apply save_partitions_local.
Qed.

Lemma main_partition_transactions_done (w : World) (csv df : list Row)
      (groups : list (PartKey * list Row)) :
  csv_cleaned w = Some csv -> Transform.to_datetime csv = Done df ->
  Partition.partitions df = Done groups ->
  snd (Partition.main_partition_transactions w) = Done (List.length groups).
Proof.
  intros Hcsv Hdt Hp.
  unfold Partition.main_partition_transactions, Partition.load_cleaned_data,
    Partition.save_dimensions, Partition.partition_transactions,
    bind, perform, modify, gets, lift.
  simpl. rewrite Hcsv. simpl. rewrite Hdt. simpl. rewrite Hp.
  match goal with |- context [Partition.save_partitions groups ?w1] =>
    pose proof (save_partitions_count groups w1) as Hn;
    destruct (Partition.save_partitions groups w1) as [w' [n|e]]
  end; simpl in *; congruence.
Qed.

Lemma written_all (faults : Faults) (groups : list (PartKey * list Row)) :
  (forall k, write_partition_error faults k = None) ->
  written faults groups = groups /\ first_write_error faults groups = None.
Proof.
  intros H. induction groups as [|[k g] groups [IH1 IH2]]; simpl.
  - split; reflexivity.
  - rewrite (H k), IH1, IH2. split; reflexivity.
Qed.


(** X19.  [main_transform] writes the cleaned file only when cleaning
    succeeded: when it raises (no input file, or an event time that does
    not parse) every file and the bucket are as before; when it returns
    [n], the cleaned file holds the [n] rows [clean_data] made of the
    input file. *)
Theorem main_transform_all_or_nothing (w : World) :
  (forall e, snd (Transform.main_transform w) = Raised e ->
     fst (Transform.main_transform w)
     = mkWorld (s3_last_run w) (s3_transactions w) (csv_transactions w)
               (csv_cleaned w) (parquet_dimensions w) (parquet_partitions w)
               (effects w ++ [ReadTransactionsCsv]))
  /\ (forall n, snd (Transform.main_transform w) = Done n ->
        exists df cleaned,
          csv_transactions w = Some df
          /\ Transform.clean_data df = Done cleaned
          /\ n = List.length cleaned
          /\ csv_cleaned (fst (Transform.main_transform w))
             = Some (to_csv cleaned)).
Proof.
  destruct (csv_transactions w) as [df|] eqn:Hcsv.
  - destruct (Transform.clean_data df) as [cleaned|e0] eqn:Hc.
    + rewrite (main_transform_done w df cleaned Hcsv Hc). split.
      * intros e H. discriminate.
      * intros n H. inversion H; subst. exists df, cleaned.
        repeat split; auto.
    + assert (E : Transform.main_transform w
                  = (mkWorld (s3_last_run w) (s3_transactions w) (csv_transactions w)
                       (csv_cleaned w) (parquet_dimensions w) (parquet_partitions w)
                       (effects w ++ [ReadTransactionsCsv]), Raised e0)).
      { unfold Transform.main_transform, Transform.load_data, bind, perform,
          modify, gets, lift. simpl. rewrite Hcsv. simpl. rewrite Hc. reflexivity. }
      rewrite E. split; [intros; simpl; rewrite ?Hcsv; reflexivity | discriminate].
  - assert (E : Transform.main_transform w
                = (mkWorld (s3_last_run w) (s3_transactions w) (csv_transactions w)
                     (csv_cleaned w) (parquet_dimensions w) (parquet_partitions w)
                     (effects w ++ [ReadTransactionsCsv]),
                   Raised (FileNotFoundError "data/transactions.csv"))).
    { unfold Transform.main_transform, Transform.load_data, bind, perform,
        modify, gets, raise. simpl. rewrite Hcsv. reflexivity. }
    rewrite E. split; [intros; simpl; rewrite ?Hcsv; reflexivity | discriminate].
Qed.

End WholeRun.

(* ================================================================== *)
(** * More on the report metrics *)

Section ReportMore.
Import Report.
Local Open Scope Q_scope.

Lemma sort_by_nil {A : Type} (leb : A -> A -> bool) (l : list A) :
  sort_by leb l = [] <-> l = [].
Proof.
  split.
  - intros H. pose proof (sort_by_perm leb l) as P. rewrite H in P.
    apply Permutation_nil in P. exact P.
  - intros ->. reflexivity.
Qed.

Lemma truck_stats_nil (df : list Sale) :
  truck_stats df = [] <-> forall r, In r df -> truck_name r = None.
Proof.
  unfold truck_stats. rewrite sort_by_nil. unfold groupby. rewrite map_map.
  split.
  - intros H r Hr. apply map_eq_nil in H.
    destruct (truck_name r) as [k|] eqn:Hk; [|reflexivity].
    assert (Hin : In k (group_keys string_dec String.leb truck_name df))
      by (apply group_keys_In; eauto).
    rewrite H in Hin. destruct Hin.
  - intros H.
    destruct (group_keys string_dec String.leb truck_name df) as [|k ks] eqn:E;
      [reflexivity|].
    assert (Hin : In k (group_keys string_dec String.leb truck_name df))
      by (rewrite E; left; reflexivity).
    apply group_keys_In in Hin. destruct Hin as [r [Hr Hk]].
    rewrite (H r Hr) in Hk. discriminate.
Qed.

(** X20.  [calculate_metrics] raises exactly on a non-empty frame in
    which no row has a truck name, and then with the [IndexError] of
    [truck_stats.index[0]]; on every other frame it returns. *)
Theorem calculate_metrics_raises_iff (yesterday : string) (df : list Sale) :
  ((exists e, calculate_metrics yesterday df = Raised e)
   <-> df <> [] /\ forall r, In r df -> truck_name r = None)
  /\ (forall e, calculate_metrics yesterday df = Raised e ->
        e = IndexError "index 0 is out of bounds for axis 0 with size 0").
Proof.
  unfold calculate_metrics. destruct df as [|first rest].
  - split; [|discriminate]. split; [intros [e H]; discriminate|].
    intros [H _]. contradiction.
  - pose proof (truck_stats_nil (first :: rest)) as Hnil.
    destruct (truck_stats (first :: rest)) as [|best stats].
    + split; [|intros e H; inversion H; reflexivity]. split.
      * intros _. split; [discriminate | apply Hnil; reflexivity].
      * intros _. eauto.
    + split; [|discriminate]. split; [intros [e H]; discriminate|].
      intros [_ H]. apply Hnil in H. discriminate.
Qed.

Lemma Qle_bool_total (a b : Q) : Qle_bool a b = true \/ Qle_bool b a = true.
Proof.
  rewrite !Qle_bool_iff. destruct (Qlt_le_dec a b) as [H|H];
    [left; apply Qlt_le_weak; exact H | right; exact H].
Qed.

Lemma truck_stats_descending (df : list Sale) :
  StronglySorted (fun a b => Truck.revenue b <= Truck.revenue a) (truck_stats df).
Proof.
  unfold truck_stats.
  match goal with |- StronglySorted _ (sort_by ?leb ?l) =>
    pose proof (sort_by_Sorted leb (fun a b => Qle_bool_total _ _) l) as Hs
  end.
  apply Sorted_StronglySorted.
  - intros a b c Hab Hbc. apply (Qle_trans _ (Truck.revenue b)); assumption.
  - induction Hs as [|a l Hs IH Hd]; constructor; [exact IH|].
    destruct Hd as [|b l Hab]; constructor.
    apply Qle_bool_iff. exact Hab.
Qed.

Lemma StronglySorted_last_least {A : Type} (R : A -> A -> Prop)
      (x : A) (l : list A) :
  (forall a, R a a) ->
  StronglySorted R (x :: l) ->
  forall a, In a (x :: l) -> R a (last (x :: l) x).
Proof.
  intros Hrefl. revert x. induction l as [|y l IH]; intros x Hs a Ha.
  - destruct Ha as [<-|[]]. apply Hrefl.
  - inversion Hs as [|? ? Hs' Hall]; subst.
    change (last (x :: y :: l) x) with (last (y :: l) x).
    rewrite (proj1 (last_nonempty y l x y)).
    destruct Ha as [<-|Ha].
    + rewrite Forall_forall in Hall. apply Hall.
      apply (proj2 (last_nonempty y l y y)).
    + apply IH; assumption.
Qed.

(** X21.  In the metrics of a non-empty frame the trucks are listed by
    descending revenue, the best truck is the first and the worst the
    last of that list, and every truck's revenue lies between the
    worst's and the best's. *)
Theorem best_and_worst_truck (yesterday : string) (df : list Sale) (m : Metrics) :
  df <> [] -> calculate_metrics yesterday df = Done m ->
  all_trucks m = truck_stats df
  /\ StronglySorted (fun a b => Truck.revenue b <= Truck.revenue a) (all_trucks m)
  /\ (exists best rest,
        all_trucks m = best :: rest
        /\ best_truck m = Truck.name best
        /\ best_truck_revenue m = Truck.revenue best
        /\ worst_truck m = Truck.name (last (best :: rest) best)
        /\ worst_truck_revenue m = Truck.revenue (last (best :: rest) best))
  /\ (forall s, In s (all_trucks m) ->
        worst_truck_revenue m <= Truck.revenue s <= best_truck_revenue m).
Proof.
  intros Hne H. destruct df as [|first rest0]; [contradiction|].
  unfold calculate_metrics in H.
  pose proof (truck_stats_descending (first :: rest0)) as Hs.
  destruct (truck_stats (first :: rest0)) as [|best stats] eqn:E; [discriminate|].
  inversion H; subst m; clear H. cbn [all_trucks best_truck best_truck_revenue
    worst_truck worst_truck_revenue].
  split; [reflexivity|]. split; [exact Hs|]. split.
  - exists best, stats. repeat split; reflexivity.
  - intros s Hin. split.
    + apply (StronglySorted_last_least
               (fun a b => Truck.revenue b <= Truck.revenue a) best stats);
        [intros a; apply Qle_refl | exact Hs | exact Hin].
    + inversion Hs as [|? ? _ Hall]; subst.
      destruct Hin as [<-|Hin]; [apply Qle_refl|].
      rewrite Forall_forall in Hall. apply Hall. exact Hin.
Qed.

End ReportMore.


Section TextRoundTrip.
Import Time Calendar.


End TextRoundTrip.

(* ================================================================== *)
(** * The further properties on the sample data *)

Section FurtherExamples.
Import Time Frame Store Extract Pipeline Calendar Query Provenance Footprint.

(** X2, witness: the keys of the sample dimension tables are distinct. *)
Lemma first_extraction_once_per_resolved_fact_witness :
  Permutation
    (map transaction_id (extract_data Sample.db None))
    (map ft_transaction_id
         (filter (resolves Sample.db) (FACT_Transaction Sample.db))).
Proof.
  apply (first_extraction_once_per_resolved_fact Sample.db).
  - simpl. constructor; [intros [] | constructor].
  - simpl. constructor; [intros [H|[]]; discriminate H|].
    constructor; [intros [] | constructor].
Defined.

(** X3, witness: the first query on the sample database. *)
Lemma watermark_is_last_row_witness :
  at_max Fixture.batch_first Fixture.batch_rest
  = at_ (last (Fixture.batch_first :: Fixture.batch_rest) Fixture.batch_first).
Proof.
  apply (watermark_is_last_row Sample.db None Fixture.batch_first
           Fixture.batch_rest).
  reflexivity.
Defined.

(** X4, witness: the sample database with an unreadable state file. *)
Lemma state_read_error_aborts_witness :
  main Sample.db Fixture.state_unreadable Sample.first_run
  = (mkWorld None [] None None None [] [S3GetState],
     Raised (ClientError "AccessDenied")).
Proof.
  apply (state_read_error_aborts Sample.db Fixture.state_unreadable
           Sample.first_run AccessDenied).
  reflexivity.
Defined.

(** X5, witness: the first run on the sample database. *)
Lemma first_run_extracts_everything_witness :
  snd (get_last_processed_timestamp no_faults Sample.first_run) = Done None.
Proof.
  apply (first_run_extracts_everything Sample.db no_faults Sample.first_run);
    try reflexivity.
  discriminate.
Defined.

(** X6, witness: the first run on the sample database with a failing put. *)
Lemma put_failure_stops_after_csv_witness :
  lower_bound (fst (main Sample.db Fixture.put_fails Sample.first_run))
  = Done None.
Proof.
  apply (put_failure_stops_after_csv Sample.db Fixture.put_fails
           Sample.first_run None Fixture.batch_first Fixture.batch_rest
           SlowDown); reflexivity.
Defined.

(** X7, witness: the sample database after a first run. *)
Lemma rerun_extracts_nothing_witness :
  extract_data Sample.db (Some 1704189601000000) = [].
Proof.
  apply (rerun_extracts_nothing Sample.db no_faults Sample.first_run);
    reflexivity.
Defined.

(** X8, witness: the two cleaned sample rows. *)
Lemma clean_data_output_invariant_witness :
  Forall (fun o => Transform.critical_notna o = true
                   /\ Transform.count_same
                        (Transform.duplicate_check_cols o)
                        (map Transform.duplicate_check_cols Sample.cleaned)
                      = 1%nat)
         Sample.cleaned.
Proof.
  apply Forall_forall. intros o Ho.
  destruct (clean_data_output_invariant Sample.raw Sample.cleaned
              ltac:(vm_compute; reflexivity) o Ho) as (_ & H1 & H2).
  split; assumption.
Defined.

(** X10, witness: the sample frame and its cleaned form. *)
Lemma clean_data_provenance_witness :
  (List.length Sample.cleaned <= List.length Sample.raw)%nat.
Proof.
  apply (clean_data_provenance Sample.raw Sample.cleaned).
  vm_compute. reflexivity.
Defined.

(** X11, witness: the cleaned sample frame, published without failures. *)
Lemma upload_appends_until_first_failure_witness :
  s3_transactions
    (fst (Load.upload_transaction_data no_faults false Fixture.cleaned_file))
  = Fixture.cleaned_groups
  /\ snd (Load.upload_transaction_data no_faults false Fixture.cleaned_file)
     = Done tt.
Proof.
  destruct (upload_appends_until_first_failure no_faults Fixture.cleaned_file
              (to_csv Sample.cleaned) Sample.cleaned Fixture.cleaned_groups)
    as (H1 & H2 & _);
    [reflexivity | vm_compute; reflexivity | vm_compute; reflexivity |].
  split; [rewrite H1; reflexivity | rewrite H2; reflexivity].
Defined.






(** X21, witness: the sample sales. *)
Lemma best_and_worst_truck_witness :
  exists m,
    Report.calculate_metrics "2024-01-01" Sample.sales = Done m
    /\ Report.all_trucks m = Report.truck_stats Sample.sales.
Proof.
  eexists. split; [reflexivity|].
  apply (best_and_worst_truck "2024-01-01" Sample.sales);
    [discriminate | reflexivity].
Defined.

End FurtherExamples.
